(** * Bus passenger tracking: entry/exit matching, route validation and fares

    A shallow embedding of the algorithmic core of the tracking server
    ([simplified_bus_server.py], class [SimplifiedBusTracker]) and of the
    route detector ([route_detector.py], class [RouteDetector]).

    Conventions of the embedding.
    - Python floats that only go through arithmetic and comparisons
      (similarities, fares, distances handed to the fare calculator, GPS
      coordinates as stored) are exact rationals [Q]; great-circle distances,
      which go through [math.sin], [math.cos], [math.asin] and [math.sqrt],
      are real numbers [R] computed from the rational coordinates.
    - A Python function whose body sits in [try: ... except Exception:] is
      given as a body returning [option] ([None] is a raised exception)
      and the function proper, which maps [None] to the value returned by
      the handler.
    - MongoDB collections are lists of records in insertion order; an
      [_id] is a natural number handed out by a counter of the store.
    - [datetime.now()] is an explicit argument [now] (seconds since the
      epoch) of every operation that reads the clock. *)

From Stdlib Require Import ZArith QArith Qround Reals Psatz List String Ascii Bool.
Import ListNotations.

Set Implicit Arguments.

(* ================================================================== *)
(** * Python values at the boundary *)

(** An argument that the code does not control: [None], a number or text. *)
Inductive pyval : Type :=
  | PyNone
  | PyNum (q : Q)
  | PyStr (s : string).

(** Truthiness as used by [if not x]. *)
Definition py_truthy (v : pyval) : bool :=
  match v with
  | PyNone => false
  | PyNum q => negb (Qeq_bool q 0)
  | PyStr s => negb (String.eqb s EmptyString)
  end.

Definition Qltb (x y : Q) : bool := negb (Qle_bool y x).

(** Error monad for the body of a [try] block. *)
Definition bind {A B : Type} (m : option A) (k : A -> option B) : option B :=
  match m with
  | Some a => k a
  | None => None
  end.

Notation "x <- m ;; k" := (bind m (fun x => k))
  (at level 61, m at next level, right associativity).

(** A float that may be [float('inf')]. *)
Inductive xreal : Type :=
  | Finite (r : R)
  | Infinity.

Definition xlt_dec (x y : xreal) : bool :=
  match x, y with
  | Finite a, Finite b => if Rlt_dec a b then true else false
  | Finite _, Infinity => true
  | Infinity, _ => false
  end.

Definition xle_dec (x y : xreal) : bool :=
  match x, y with
  | Finite a, Finite b => if Rle_dec a b then true else false
  | _, Infinity => true
  | Infinity, Finite _ => false
  end.

(** ASCII part of [str.lower]. *)
Definition lower_ascii (c : ascii) : ascii :=
  let n := nat_of_ascii c in
  if (65 <=? n)%nat && (n <=? 90)%nat then ascii_of_nat (n + 32) else c.

Fixpoint lower (s : string) : string :=
  match s with
  | EmptyString => EmptyString
  | String c t => String (lower_ascii c) (lower t)
  end.

(** [needle in hay] on strings. *)
Fixpoint str_in (needle hay : string) : bool :=
  String.prefix needle hay ||
  match hay with
  | EmptyString => false
  | String _ t => str_in needle t
  end.

Definition get_str (o : option string) : string :=
  match o with
  | Some s => s
  | None => EmptyString
  end.

(* ================================================================== *)
(** * GeoDistance: the Haversine formula *)

Definition radians (deg : R) : R := (deg * PI / 180)%R.

(** The central angle [c] of the formula, from coordinates in degrees. *)
Definition haversine_angle (lat1 lon1 lat2 lon2 : R) : R :=
  let lat1 := radians lat1 in
  let lon1 := radians lon1 in
  let lat2 := radians lat2 in
  let lon2 := radians lon2 in
  let dlat := (lat2 - lat1)%R in
  let dlon := (lon2 - lon1)%R in
  let a := ((sin (dlat / 2))² + cos lat1 * cos lat2 * (sin (dlon / 2))²)%R in
  (2 * asin (sqrt a))%R.

(** Nested [haversine_distance] of [_check_location_proximity]: [R * c]. *)
Definition haversine_distance (lat1 lon1 lat2 lon2 : Q) : R :=
  (6371 * haversine_angle (Q2R lat1) (Q2R lon1) (Q2R lat2) (Q2R lon2))%R.

Section External.

(** Python's [float()] on text: the parsed number, or [None] when it
    raises [ValueError]. *)
Variable float_of_str : string -> option Q.

(** [float(x)]: [None] is the raised [TypeError] or [ValueError]. *)
Definition py_float (v : pyval) : option Q :=
  match v with
  | PyNone => None
  | PyNum q => Some q
  | PyStr s => float_of_str s
  end.

(** Body of [SimplifiedBusTracker.calculate_haversine_distance]. *)
Definition calculate_haversine_distance_try (lat1 lon1 lat2 lon2 : pyval) : option R :=
  a <- py_float lat1 ;;
  b <- py_float lon1 ;;
  c <- py_float lat2 ;;
  d <- py_float lon2 ;;
  Some (haversine_angle (Q2R a) (Q2R b) (Q2R c) (Q2R d) * 6371)%R.

(** [SimplifiedBusTracker.calculate_haversine_distance]: the handler
    prints the error and returns [0.0]. *)
Definition calculate_haversine_distance (lat1 lon1 lat2 lon2 : pyval) : R :=
  match calculate_haversine_distance_try lat1 lon1 lat2 lon2 with
  | Some d => d
  | None => 0%R
  end.

(** Body of [RouteDetector.calculate_distance]. *)
Definition calculate_distance_try (lat1 lon1 lat2 lon2 : pyval) : option R :=
  a <- py_float lat1 ;;
  b <- py_float lon1 ;;
  c <- py_float lat2 ;;
  d <- py_float lon2 ;;
  Some (6371 * haversine_angle (Q2R a) (Q2R b) (Q2R c) (Q2R d))%R.

(** [RouteDetector.calculate_distance]: the handler prints the error and
    returns [float('inf')]. *)
Definition calculate_distance (lat1 lon1 lat2 lon2 : pyval) : xreal :=
  match calculate_distance_try lat1 lon1 lat2 lon2 with
  | Some d => Finite d
  | None => Infinity
  end.

(* ================================================================== *)
(** * RouteDetector *)

Record waypoint : Type := {
  wp_name : option string;
  wp_latitude : option Q;
  wp_longitude : option Q
}.

(** A document of the [routes] collection, as cached in [route_cache]. *)
Record route : Type := {
  route_id : string;
  route_name : option string;
  waypoints : list waypoint
}.

(** A stop of a document of the [busRoutes] collection. *)
Record stop : Type := {
  stop_name : option string;
  stop_latitude : option Q;
  stop_longitude : option Q;
  stop_order : option Z
}.

Record bus_route : Type := {
  br_route_name : option string;
  br_is_active : bool;
  br_stops : list stop
}.

(** An element of a member's [valid_routes]. *)
Record valid_route : Type := {
  from_location : option string;
  to_location : option string;
  route_patterns : list string
}.

(** The second component of the detector's answers. *)
Inductive match_info : Type :=
  | RouteStops (rname : option string) (entry_stop exit_stop : stop)
               (entry_order exit_order : Z)
  | LocationProximity (from_loc to_loc : string)
  | NotWithinProximity
  | LocationName (matched_route rid : string)
  | PartialRoute (matched_route rid : string)
  | Pattern (matched_route rid pattern : string)
  | NotInValidRoutes (detected_routes : list string).

(** One iteration of the waypoint loop of [is_point_near_route]. *)
Definition nearest_step (lat lon : Q) (acc : xreal * option waypoint)
    (wp : waypoint) : xreal * option waypoint :=
  match wp_latitude wp, wp_longitude wp with
  | Some wp_lat, Some wp_lon =>
      let distance :=
        calculate_distance (PyNum lat) (PyNum lon) (PyNum wp_lat) (PyNum wp_lon) in
      if xlt_dec distance (fst acc) then (distance, Some wp) else acc
  | _, _ => acc
  end.

(** [is_point_near_route]; the distance of the answer is kept unrounded. *)
Definition is_point_near_route (lat lon : Q) (r : route) (threshold_km : R)
    : bool * option (xreal * option waypoint) :=
  match waypoints r with
  | [] => (false, None)
  | wps =>
      let res := fold_left (nearest_step lat lon) wps (Infinity, None) in
      (xle_dec (fst res) (Finite threshold_km), Some res)
  end.

(** The [route_id]s of the answer of [detect_route_from_gps] with the
    default threshold of 2 km.  The confidence of each route and the
    order by confidence are left out: the caller modelled here,
    [find_matching_season_ticket_routes], only builds the set of ids. *)
Definition detect_route_from_gps (route_cache : list route) (lat lon : Q)
    : list string :=
  map route_id
    (filter (fun r => fst (is_point_near_route lat lon r 2%R)) route_cache).

Definition PROXIMITY_THRESHOLD_KM : R := 10%R.

Definition within_proximity (lat lon s_lat s_lon : Q) : bool :=
  if Rle_dec (haversine_distance lat lon s_lat s_lon) PROXIMITY_THRESHOLD_KM
  then true else false.

(** One iteration of the stop loop of [_check_location_proximity]: a
    stop whose latitude or longitude is missing or zero is skipped; the
    entry stop and the exit stop are each assigned once, by the first
    stop found within the threshold. *)
Definition scan_stop (entry_lat entry_lon exit_lat exit_lon : Q)
    (acc : option stop * option stop) (s : stop) : option stop * option stop :=
  match stop_latitude s, stop_longitude s with
  | Some stop_lat, Some stop_lon =>
      if Qeq_bool stop_lat 0 || Qeq_bool stop_lon 0 then acc
      else
        let entry_stop :=
          match fst acc with
          | Some e => Some e
          | None =>
              if within_proximity entry_lat entry_lon stop_lat stop_lon
              then Some s else None
          end in
        let exit_stop :=
          match snd acc with
          | Some x => Some x
          | None =>
              if within_proximity exit_lat exit_lon stop_lat stop_lon
              then Some s else None
          end in
        (entry_stop, exit_stop)
  | _, _ => acc
  end.

(** The stops [(entry_stop, exit_stop)] found on one route. *)
Definition find_stops (entry_lat entry_lon exit_lat exit_lon : Q)
    (stops : list stop) : option stop * option stop :=
  fold_left (scan_stop entry_lat entry_lon exit_lat exit_lon) stops (None, None).

(** A stop that the scan can select for the point [(lat, lon)]: both
    coordinates present and non-zero, within the threshold. *)
Definition stop_near (lat lon : Q) (s : stop) : bool :=
  match stop_latitude s, stop_longitude s with
  | Some stop_lat, Some stop_lon =>
      negb (Qeq_bool stop_lat 0 || Qeq_bool stop_lon 0)
      && within_proximity lat lon stop_lat stop_lon
  | _, _ => false
  end.

(** The distance from a point to a stop with coordinates. *)
Definition stop_distance (lat lon : Q) (s : stop) : option R :=
  match stop_latitude s, stop_longitude s with
  | Some stop_lat, Some stop_lon => Some (haversine_distance lat lon stop_lat stop_lon)
  | _, _ => None
  end.

Definition get_order (s : stop) : Z :=
  match stop_order s with
  | Some n => n
  | None => 0%Z
  end.

(** The loop over [member_valid_routes] once both stops are found in
    increasing order. *)
Definition stops_match_member (entry_stop exit_stop : stop)
    (member_valid_routes : list valid_route) : bool :=
  existsb
    (fun vr =>
       let from_loc := lower (get_str (from_location vr)) in
       let to_loc := lower (get_str (to_location vr)) in
       let entry_name := lower (get_str (stop_name entry_stop)) in
       let exit_name := lower (get_str (stop_name exit_stop)) in
       str_in from_loc entry_name && str_in to_loc exit_name)
    member_valid_routes.

(** Body of the loop over [routes_with_stops] for one route: [Some] is
    the [return True, {...'match_type': 'route_stops'...}]. *)
Definition match_route_stops (entry_lat entry_lon exit_lat exit_lon : Q)
    (member_valid_routes : list valid_route) (r : bus_route) : option match_info :=
  match br_stops r with
  | [] => None
  | stops =>
      match find_stops entry_lat entry_lon exit_lat exit_lon stops with
      | (Some entry_stop, Some exit_stop) =>
          let entry_order := get_order entry_stop in
          let exit_order := get_order exit_stop in
          if (entry_order <? exit_order)%Z then
            if stops_match_member entry_stop exit_stop member_valid_routes
            then Some (RouteStops (br_route_name r) entry_stop exit_stop
                                  entry_order exit_order)
            else None
          else None
      | _ => None
      end
  end.

Fixpoint first_some {A B : Type} (f : A -> option B) (l : list A) : option B :=
  match l with
  | [] => None
  | a :: t =>
      match f a with
      | Some b => Some b
      | None => first_some f t
      end
  end.

Definition known_locations : list (string * (Q * Q)) :=
  [ ("jaffna"%string, (9.6615, 80.0255));
    ("kodikamam"%string, (9.6833, 80.0833));
    ("chavakachcheri"%string, (9.6667, 80.1667));
    ("kilinochchi"%string, (9.3833, 80.4000));
    ("vavuniya"%string, (8.7542, 80.4982));
    ("anuradhapura"%string, (8.3114, 80.4037));
    ("kurunegala"%string, (7.4863, 80.3623));
    ("colombo"%string, (6.9271, 79.8612));
    ("kandy"%string, (7.2906, 80.6337)) ]%Q.

Fixpoint dict_get {V : Type} (d : list (string * V)) (k : string) : option V :=
  match d with
  | [] => None
  | (k', v) :: t => if String.eqb k k' then Some v else dict_get t k
  end.

(** Body of the final loop of [_check_location_proximity] for one
    [valid_route]. *)
Definition match_known_location (entry_lat entry_lon exit_lat exit_lon : Q)
    (vr : valid_route) : option match_info :=
  let from_loc := lower (get_str (from_location vr)) in
  let to_loc := lower (get_str (to_location vr)) in
  match dict_get known_locations from_loc, dict_get known_locations to_loc with
  | Some from_coords, Some to_coords =>
      if within_proximity entry_lat entry_lon (fst from_coords) (snd from_coords)
         && within_proximity exit_lat exit_lon (fst to_coords) (snd to_coords)
      then Some (LocationProximity from_loc to_loc)
      else None
  | _, _ => None
  end.

(** The first half of [_check_location_proximity]: the stops of the
    active documents of [busRoutes].  [bus_routes = None] is a query
    that raises; the handler falls through to the table of known
    locations. *)
Definition check_route_stops (bus_routes : option (list bus_route))
    (entry_lat entry_lon exit_lat exit_lon : Q)
    (member_valid_routes : list valid_route) : option match_info :=
  match bus_routes with
  | None => None
  | Some docs =>
      first_some
        (match_route_stops entry_lat entry_lon exit_lat exit_lon member_valid_routes)
        (filter br_is_active docs)
  end.

(** [RouteDetector._check_location_proximity]. *)
Definition _check_location_proximity (bus_routes : option (list bus_route))
    (entry_lat entry_lon exit_lat exit_lon : Q)
    (member_valid_routes : list valid_route) : bool * match_info :=
  match check_route_stops bus_routes entry_lat entry_lon exit_lat exit_lon
          member_valid_routes with
  | Some info => (true, info)
  | None =>
      match first_some (match_known_location entry_lat entry_lon exit_lat exit_lon)
              member_valid_routes with
      | Some info => (true, info)
      | None => (false, NotWithinProximity)
      end
  end.

Definition cache_get (route_cache : list route) (rid : string) : option route :=
  find (fun r => String.eqb (route_id r) rid) route_cache.

Definition route_name_str (r : route) : string := get_str (route_name r).

(** Inner body of [find_matching_season_ticket_routes] for one
    [valid_route] and one common route id. *)
Definition match_valid_route_on (route_cache : list route)
    (bus_routes : option (list bus_route))
    (entry_lat entry_lon exit_lat exit_lon : Q)
    (vr : valid_route) (rid : string) : option match_info :=
  match cache_get route_cache rid with
  | None => None
  | Some r =>
      let rname := route_name_str r in
      let from_loc := lower (get_str (from_location vr)) in
      let to_loc := lower (get_str (to_location vr)) in
      match route_patterns vr with
      | [] =>
          let entry_match := str_in from_loc (lower rname) in
          let exit_match := str_in to_loc (lower rname) in
          if entry_match && exit_match then Some (LocationName rname rid)
          else if entry_match then
            if fst (_check_location_proximity bus_routes
                      entry_lat entry_lon exit_lat exit_lon [vr])
            then Some (PartialRoute rname rid)
            else None
          else None
      | patterns =>
          first_some
            (fun pattern =>
               if str_in (lower pattern) (lower rname)
                  || str_in (lower rname) (lower pattern)
               then Some (Pattern rname rid pattern) else None)
            patterns
      end
  end.

(** [RouteDetector.find_matching_season_ticket_routes].  The set of
    common route ids is the list of the entry ids that are also exit
    ids. *)
Definition find_matching_season_ticket_routes (route_cache : list route)
    (bus_routes : option (list bus_route))
    (entry_lat entry_lon exit_lat exit_lon : Q)
    (member_valid_routes : list valid_route) : bool * match_info :=
  let entry_routes := detect_route_from_gps route_cache entry_lat entry_lon in
  let exit_routes := detect_route_from_gps route_cache exit_lat exit_lon in
  let common_route_ids :=
    filter (fun rid => existsb (String.eqb rid) exit_routes) entry_routes in
  match common_route_ids with
  | [] =>
      _check_location_proximity bus_routes entry_lat entry_lon exit_lat exit_lon
        member_valid_routes
  | _ =>
      match first_some
              (fun vr =>
                 first_some
                   (match_valid_route_on route_cache bus_routes
                      entry_lat entry_lon exit_lat exit_lon vr)
                   common_route_ids)
              member_valid_routes with
      | Some info => (true, info)
      | None =>
          (false,
           NotInValidRoutes
             (map (fun rid =>
                     match cache_get route_cache rid with
                     | Some r => route_name_str r
                     | None => EmptyString
                     end) common_route_ids))
      end
  end.

(* ================================================================== *)
(** * FareCalculator *)

(** A document of the [fareStages] collection. *)
Record fare_stage : Type := {
  stage_number : Z;
  fare : pyval;
  fs_is_active : bool
}.

(** [find_one(..., sort=[('stage_number', 1)])] on the matching documents. *)
Fixpoint lowest_stage (l : list fare_stage) : option fare_stage :=
  match l with
  | [] => None
  | x :: t =>
      match lowest_stage t with
      | None => Some x
      | Some y => if (stage_number y <? stage_number x)%Z then Some y else Some x
      end
  end.

(** [find_one(..., sort=[('stage_number', -1)])] on the matching documents. *)
Fixpoint highest_stage (l : list fare_stage) : option fare_stage :=
  match l with
  | [] => None
  | x :: t =>
      match highest_stage t with
      | None => Some x
      | Some y => if (stage_number x <? stage_number y)%Z then Some y else Some x
      end
  end.

Definition STAGE_DISTANCE : Q := 3.5.

(** The hardcoded calculation used when no stage is found. *)
Definition fallback_fare (stage : Z) : Q :=
  if (stage =? 1)%Z then 30 else 30 + inject_Z (stage - 1) * 10.

(** A fare table on which fares are numbers, are not negative and do not
    decrease with the stage number, over its active stages. *)
Definition monotone_table (docs : list fare_stage) : Prop :=
  (forall a, In a docs -> fs_is_active a = true ->
     exists q, py_float (fare a) = Some q /\ 0 <= q)
  /\ (forall a b qa qb,
        In a docs -> In b docs ->
        fs_is_active a = true -> fs_is_active b = true ->
        (stage_number a <= stage_number b)%Z ->
        py_float (fare a) = Some qa -> py_float (fare b) = Some qb ->
        qa <= qb).

(** The fare of stage [stage] read from the table [docs], with the three
    levels of fallback of [calculate_fare]. *)
Definition lookup_fare (docs : list fare_stage) (stage : Z) : option Q :=
  match find (fun fs => (stage_number fs =? stage)%Z && fs_is_active fs) docs with
  | Some fare_stage => py_float (fare fare_stage)
  | None =>
      match lowest_stage
              (filter (fun fs => (stage <=? stage_number fs)%Z && fs_is_active fs) docs) with
      | Some closest_stage => py_float (fare closest_stage)
      | None =>
          match highest_stage (filter fs_is_active docs) with
          | Some highest => py_float (fare highest)
          | None => Some (fallback_fare stage)
          end
      end
  end.

(** Body of [calculate_fare].  [fare_stages = None] is a [fareStages]
    collection whose queries raise. *)
Definition calculate_fare_try (fare_stages : option (list fare_stage))
    (distance_km : pyval) : option Q :=
  if negb (py_truthy distance_km) then Some 0
  else
    match distance_km with
    | PyNone => Some 0
    | PyStr _ => None
    | PyNum d =>
        if Qle_bool d 0 then Some 0
        else if Qltb d 0.1 then Some 0
        else
          let stage := Qceiling (d / STAGE_DISTANCE) in
          docs <- fare_stages ;;
          lookup_fare docs stage
    end.

(** [SimplifiedBusTracker.calculate_fare]: the handler prints the error
    and returns [0.0]. *)
Definition calculate_fare (fare_stages : option (list fare_stage))
    (distance_km : pyval) : Q :=
  match calculate_fare_try fare_stages distance_km with
  | Some f => f
  | None => 0
  end.

(* ================================================================== *)
(** * TripLedger: the state of [SimplifiedBusTracker] *)

Definition embedding : Type := list Q.

(** [cosine_similarity] of scikit-learn on two row vectors; [None] is the
    [ValueError] raised for incompatible dimensions. *)
Variable cosine_similarity : embedding -> embedding -> option Q.

Record distance_info : Type := {
  distance_km : Q;
  duration_minutes : Q;
  provider : string;
  success : bool
}.

(** [calculate_road_distance]: the road-distance providers with their
    straight-line fallback; [None] when no distance is available. *)
Variable calculate_road_distance : Q -> Q -> Q -> Q -> option distance_info.

(** [reverse_geocode]: the name of a place, when the geocoder gives one. *)
Variable reverse_geocode : Q -> Q -> option string.

Inductive trip_status : Type := Active | Completed.
Inductive log_type : Type := ENTRY | EXIT | UnknownType.

(** A trip id is the text [bus_id_YYYY-MM-DD_HH:MM]: the bus and the
    minute of the start time. *)
Record trip_id : Type := {
  tid_bus : string;
  tid_minute : Z
}.

Definition trip_id_eqb (a b : trip_id) : bool :=
  String.eqb (tid_bus a) (tid_bus b) && (tid_minute a =? tid_minute b)%Z.

Record location : Type := {
  latitude : Q;
  longitude : Q;
  device_id : option string;
  loc_timestamp : option Z
}.

(** A face log sent by a device.  [log_timestamp] is the parsed
    timestamp, [None] when it is empty or does not parse. *)
Record face_log : Type := {
  log_location_type : log_type;
  log_face_id : Z;
  log_face_embedding : embedding;
  log_embedding_size : Z;
  log_latitude : Q;
  log_longitude : Q;
  log_device_id : option string;
  log_timestamp : option Z
}.

Record season_detected : Type := {
  sd_member_id : string;
  sd_member_name : string;
  sd_similarity_score : Q
}.

(** A document of [temp_entries]: an open EntryRecord. *)
Record temp_entry : Type := {
  te_id : nat;
  te_trip_id : trip_id;
  te_trip_start_time : Z;
  te_bus_id : string;
  te_route_name : string;
  te_face_id : Z;
  te_face_embedding : embedding;
  te_embedding_size : Z;
  te_season_ticket_detected : option season_detected;
  te_entry_location : location;
  te_entry_timestamp : Z;
  te_created_at : Z
}.

(** A document of [unmatchedPassengers]. *)
Record unmatched : Type := {
  un_trip_id : trip_id;
  un_bus_id : string;
  un_route_name : string;
  un_type : log_type;
  un_trip_start_time : Z;
  un_face_id : Z;
  un_face_embedding : embedding;
  un_embedding_size : Z;
  un_location : location;
  un_timestamp : Z;
  best_similarity_found : Q;
  reason : string;
  un_created_at : Z
}.

(** A document of [seasonTicketMembers]. *)
Record member : Type := {
  m_id : nat;
  member_id : string;
  name : string;
  m_face_embedding : embedding;
  valid_from : Z;
  valid_until : Z;
  is_active : bool;
  valid_routes : option (list valid_route);
  ticket_type : option string;
  total_trips : Z;
  last_used : option Z
}.

(** The second component of the answer of
    [is_route_valid_for_season_ticket]. *)
Inductive valid_detail : Type :=
  | NoDetail
  | ByDetector (info : match_info)
  | ByFallback (vr : valid_route).

Record season_ticket_info : Type := {
  sti_member_id : string;
  sti_member_name : string;
  sti_ticket_type : string;
  sti_valid_until : Z;
  sti_similarity_score : Q;
  sti_valid_route : valid_detail
}.

(** A document of [busPassengerList]: a FinalJourney. *)
Record final_passenger : Type := {
  fp_id : nat;
  fp_trip_id : trip_id;
  fp_trip_start_time : Z;
  fp_bus_id : string;
  fp_route_name : string;
  is_season_ticket : bool;
  fp_season_ticket_info : option season_ticket_info;
  entryLocation : location * option string;
  exitLocation : location * option string;
  entry_timestamp : Z;
  exit_timestamp : Z;
  journey_duration_minutes : Q;
  similarity_score : Q;
  entry_face_id : Z;
  exit_face_id : Z;
  fp_distance_info : distance_info;
  price : Q;
  fp_stage_number : Z;
  fp_created_at : Z
}.

(** A document of [tripSessions]. *)
Record trip_session : Type := {
  ts_id : nat;
  ts_trip_id : trip_id;
  ts_bus_id : string;
  ts_route_name : string;
  ts_start_time : Z;
  ts_end_time : option Z;
  ts_status : trip_status;
  total_passengers : nat;
  total_unmatched : nat;
  route_detection_gps : option (Q * Q)
}.

(** [self.current_trip]. *)
Record current_trip_info : Type := {
  ct_trip_id : trip_id;
  ct_start_time : Z;
  ct_status : trip_status;
  ct_id : nat
}.

(** The tracker: its collections, the detector's cache ([None] when the
    detector failed to initialise), the current trip and the counter of
    the [_id]s handed out by [insert_one]. *)
Record tracker : Type := {
  temp_entries : list temp_entry;
  final_passengers : list final_passenger;
  unmatched_passengers : list unmatched;
  trip_sessions : list trip_session;
  season_ticket_members : list member;
  fare_stages : option (list fare_stage);
  bus_routes : option (list bus_route);
  route_detector : option (list route);
  current_trip : option current_trip_info;
  next_oid : nat
}.

Definition bus_id : string := "BUS_JC_001".
Definition self_route_name : string := "Jaffna-Colombo".
Definition similarity_threshold : Q := 0.7.
Definition season_ticket_similarity_threshold : Q := 0.65.
Definition time_window_hours : Z := 48.

Definition set_temp_entries (l : list temp_entry) (s : tracker) : tracker :=
  {| temp_entries := l;
     final_passengers := final_passengers s;
     unmatched_passengers := unmatched_passengers s;
     trip_sessions := trip_sessions s;
     season_ticket_members := season_ticket_members s;
     fare_stages := fare_stages s;
     bus_routes := bus_routes s;
     route_detector := route_detector s;
     current_trip := current_trip s;
     next_oid := next_oid s |}.

Definition set_final_passengers (l : list final_passenger) (s : tracker) : tracker :=
  {| temp_entries := temp_entries s;
     final_passengers := l;
     unmatched_passengers := unmatched_passengers s;
     trip_sessions := trip_sessions s;
     season_ticket_members := season_ticket_members s;
     fare_stages := fare_stages s;
     bus_routes := bus_routes s;
     route_detector := route_detector s;
     current_trip := current_trip s;
     next_oid := next_oid s |}.

Definition set_unmatched_passengers (l : list unmatched) (s : tracker) : tracker :=
  {| temp_entries := temp_entries s;
     final_passengers := final_passengers s;
     unmatched_passengers := l;
     trip_sessions := trip_sessions s;
     season_ticket_members := season_ticket_members s;
     fare_stages := fare_stages s;
     bus_routes := bus_routes s;
     route_detector := route_detector s;
     current_trip := current_trip s;
     next_oid := next_oid s |}.

Definition set_trip_sessions (l : list trip_session) (s : tracker) : tracker :=
  {| temp_entries := temp_entries s;
     final_passengers := final_passengers s;
     unmatched_passengers := unmatched_passengers s;
     trip_sessions := l;
     season_ticket_members := season_ticket_members s;
     fare_stages := fare_stages s;
     bus_routes := bus_routes s;
     route_detector := route_detector s;
     current_trip := current_trip s;
     next_oid := next_oid s |}.

Definition set_season_ticket_members (l : list member) (s : tracker) : tracker :=
  {| temp_entries := temp_entries s;
     final_passengers := final_passengers s;
     unmatched_passengers := unmatched_passengers s;
     trip_sessions := trip_sessions s;
     season_ticket_members := l;
     fare_stages := fare_stages s;
     bus_routes := bus_routes s;
     route_detector := route_detector s;
     current_trip := current_trip s;
     next_oid := next_oid s |}.

Definition set_current_trip (c : option current_trip_info) (s : tracker) : tracker :=
  {| temp_entries := temp_entries s;
     final_passengers := final_passengers s;
     unmatched_passengers := unmatched_passengers s;
     trip_sessions := trip_sessions s;
     season_ticket_members := season_ticket_members s;
     fare_stages := fare_stages s;
     bus_routes := bus_routes s;
     route_detector := route_detector s;
     current_trip := c;
     next_oid := next_oid s |}.

Definition set_next_oid (n : nat) (s : tracker) : tracker :=
  {| temp_entries := temp_entries s;
     final_passengers := final_passengers s;
     unmatched_passengers := unmatched_passengers s;
     trip_sessions := trip_sessions s;
     season_ticket_members := season_ticket_members s;
     fare_stages := fare_stages s;
     bus_routes := bus_routes s;
     route_detector := route_detector s;
     current_trip := current_trip s;
     next_oid := n |}.

(* ------------------------------------------------------------------ *)
(** ** Collection primitives *)

(** [update_one]: the first matching document is rewritten. *)
Fixpoint update_one {A : Type} (p : A -> bool) (f : A -> A) (l : list A) : list A :=
  match l with
  | [] => []
  | x :: t => if p x then f x :: t else x :: update_one p f t
  end.

(** [delete_one]: the first matching document is removed. *)
Fixpoint delete_one {A : Type} (p : A -> bool) (l : list A) : list A :=
  match l with
  | [] => []
  | x :: t => if p x then t else x :: delete_one p t
  end.

(** [delete_many]: every matching document is removed. *)
Definition delete_many {A : Type} (p : A -> bool) (l : list A) : list A :=
  filter (fun x => negb (p x)) l.

Definition count_documents {A : Type} (p : A -> bool) (l : list A) : nat :=
  List.length (filter p l).

(** A loop whose body may raise. *)
Fixpoint fold_try {A B : Type} (f : B -> A -> option B) (l : list A) (acc : B)
    : option B :=
  match l with
  | [] => Some acc
  | x :: t => acc' <- f acc x ;; fold_try f t acc'
  end.

Definition nonempty {A : Type} (l : list A) : bool :=
  match l with
  | [] => false
  | _ :: _ => true
  end.

(* ------------------------------------------------------------------ *)
(** ** Trips *)

Definition generate_trip_id (start_time : Z) : trip_id :=
  {| tid_bus := bus_id; tid_minute := (start_time / 60)%Z |}.

(** 2020-01-01T00:00:00 in seconds. *)
Definition YEAR_2020 : Z := 1577836800.

Definition _parse_timestamp_safe (now : Z) (timestamp : option Z) : Z :=
  match timestamp with
  | None => now
  | Some parsed_time => if (parsed_time <? YEAR_2020)%Z then now else parsed_time
  end.

(** [self.current_trip and self.current_trip.get('status') == 'active']. *)
Definition has_active_trip (s : tracker) : bool :=
  match current_trip s with
  | Some ct =>
      match ct_status ct with
      | Active => true
      | Completed => false
      end
  | None => false
  end.

(** The [unmatched_entry] built from an open entry by [end_current_trip]
    and by the orphan cleanup of [start_new_trip]. *)
Definition entry_to_unmatched (tid : trip_id) (trip_start : Z) (why : string)
    (now : Z) (entry : temp_entry) : unmatched :=
  {| un_trip_id := tid;
     un_bus_id := bus_id;
     un_route_name := te_route_name entry;
     un_type := ENTRY;
     un_trip_start_time := trip_start;
     un_face_id := te_face_id entry;
     un_face_embedding := te_face_embedding entry;
     un_embedding_size := te_embedding_size entry;
     un_location := te_entry_location entry;
     un_timestamp := te_entry_timestamp entry;
     best_similarity_found := 0;
     reason := why;
     un_created_at := now |}.

Definition in_trip (tid : trip_id) (e : temp_entry) : bool :=
  trip_id_eqb (te_trip_id e) tid.

Definition of_bus (e : temp_entry) : bool :=
  String.eqb (te_bus_id e) bus_id.

(** [end_current_trip]. *)
Definition end_current_trip (now : Z) (s : tracker) : tracker * bool :=
  match current_trip s with
  | None => (s, false)
  | Some ct =>
      let tid := ct_trip_id ct in
      let passenger_count :=
        count_documents (fun fp => trip_id_eqb (fp_trip_id fp) tid)
          (final_passengers s) in
      let remaining :=
        filter (fun e => in_trip tid e && of_bus e) (temp_entries s) in
      let moved :=
        map (entry_to_unmatched tid (ct_start_time ct)
               "Trip ended - no exit match found" now) remaining in
      let unmatched_count := List.length remaining in
      let s1 := set_unmatched_passengers (unmatched_passengers s ++ moved) s in
      let s2 := set_temp_entries (delete_many (in_trip tid) (temp_entries s1)) s1 in
      let s3 :=
        set_trip_sessions
          (update_one (fun ts => Nat.eqb (ts_id ts) (ct_id ct))
             (fun ts =>
                {| ts_id := ts_id ts;
                   ts_trip_id := ts_trip_id ts;
                   ts_bus_id := ts_bus_id ts;
                   ts_route_name := ts_route_name ts;
                   ts_start_time := ts_start_time ts;
                   ts_end_time := Some now;
                   ts_status := Completed;
                   total_passengers := passenger_count;
                   total_unmatched := unmatched_count;
                   route_detection_gps := route_detection_gps ts |})
             (trip_sessions s2)) s2 in
      (set_current_trip None s3, true)
  end.

(** The safety cleanup of [start_new_trip]: every open entry of the bus
    becomes an unmatched record and leaves the buffer. *)
Definition cleanup_orphans (now : Z) (s : tracker) : tracker :=
  let orphaned_entries := filter of_bus (temp_entries s) in
  match orphaned_entries with
  | [] => s
  | _ =>
      let moved :=
        map (fun entry =>
               entry_to_unmatched (te_trip_id entry) (te_trip_start_time entry)
                 "Orphaned entry - cleaned up before new trip" now entry)
            orphaned_entries in
      let s1 := set_unmatched_passengers (unmatched_passengers s ++ moved) s in
      set_temp_entries (delete_many of_bus (temp_entries s1)) s1
  end.

(** [start_new_trip].  [initial_gps = Some _] is a non-empty GPS fix: the
    call [self.route_detector.detect_route_direction(...)] then raises
    [AttributeError], no such method being defined by [RouteDetector],
    and the handler returns [None] after the previous trip was ended and
    the buffer cleaned. *)
Definition start_new_trip (start_time : option Z) (initial_gps : option (Q * Q))
    (now : Z) (s : tracker) : tracker * option trip_id :=
  let start_time :=
    match start_time with
    | Some t => t
    | None => now
    end in
  let s1 := if has_active_trip s then fst (end_current_trip now s) else s in
  let s2 := cleanup_orphans now s1 in
  let tid := generate_trip_id start_time in
  match initial_gps with
  | Some _ => (s2, None)
  | None =>
      let detected_route := self_route_name in
      let oid := next_oid s2 in
      let trip_session :=
        {| ts_id := oid;
           ts_trip_id := tid;
           ts_bus_id := bus_id;
           ts_route_name := detected_route;
           ts_start_time := start_time;
           ts_end_time := None;
           ts_status := Active;
           total_passengers := 0;
           total_unmatched := 0;
           route_detection_gps := initial_gps |} in
      let s3 :=
        set_next_oid (S oid) (set_trip_sessions (trip_sessions s2 ++ [trip_session]) s2) in
      (set_current_trip
         (Some {| ct_trip_id := tid;
                  ct_start_time := start_time;
                  ct_status := Active;
                  ct_id := oid |}) s3,
       Some tid)
  end.

(* ------------------------------------------------------------------ *)
(** ** Season tickets *)

(** One iteration of the member loop of [check_season_ticket_member]. *)
Definition season_step (face_embedding : embedding) (acc : option member * Q)
    (m : member) : option (option member * Q) :=
  match m_face_embedding m with
  | [] => Some acc
  | member_embedding =>
      similarity <- cosine_similarity face_embedding member_embedding ;;
      if Qltb (snd acc) similarity then
        if Qltb season_ticket_similarity_threshold similarity
        then Some (Some m, similarity)
        else Some (fst acc, similarity)
      else Some acc
  end.

(** [check_season_ticket_member]; the handler returns [(None, 0.0)]. *)
Definition check_season_ticket_member (face_embedding : embedding) (now : Z)
    (s : tracker) : option member * Q :=
  match face_embedding with
  | [] => (None, 0)
  | _ =>
      let all_active_members :=
        filter (fun m => is_active m && (valid_from m <=? now)%Z
                         && (now <=? valid_until m)%Z
                         && nonempty (m_face_embedding m))
               (season_ticket_members s) in
      match all_active_members with
      | [] => (None, 0)
      | _ =>
          match fold_try (season_step face_embedding) all_active_members (None, 0) with
          | Some (Some best_match, best_similarity) => (Some best_match, best_similarity)
          | Some (None, _) => (None, 0)
          | None => (None, 0)
          end
      end
  end.

(** [_fallback_route_validation]: the configured route name against the
    member's valid routes. *)
Definition _fallback_route_validation (valid : list valid_route)
    : bool * valid_detail :=
  match
    first_some
      (fun vr =>
         match route_patterns vr with
         | [] =>
             let from_loc := lower (get_str (from_location vr)) in
             let to_loc := lower (get_str (to_location vr)) in
             if str_in from_loc (lower self_route_name)
                && str_in to_loc (lower self_route_name)
             then Some vr else None
         | patterns =>
             if existsb
                  (fun pattern =>
                     str_in (lower pattern) (lower self_route_name)
                     || str_in (lower self_route_name) (lower pattern))
                  patterns
             then Some vr else None
         end)
      valid
  with
  | Some vr => (true, ByFallback vr)
  | None => (false, NoDetail)
  end.

(** [is_route_valid_for_season_ticket]. *)
Definition is_route_valid_for_season_ticket (s : tracker) (m : member)
    (entry_location exit_location : location) : bool * valid_detail :=
  match valid_routes m with
  | None => (true, NoDetail)
  | Some [] => (true, NoDetail)
  | Some valid =>
      let entry_lat := latitude entry_location in
      let entry_lon := longitude entry_location in
      let exit_lat := latitude exit_location in
      let exit_lon := longitude exit_location in
      if Qeq_bool entry_lat 0 || Qeq_bool entry_lon 0
         || Qeq_bool exit_lat 0 || Qeq_bool exit_lon 0
      then _fallback_route_validation valid
      else
        match route_detector s with
        | Some route_cache =>
            let res :=
              find_matching_season_ticket_routes route_cache (bus_routes s)
                entry_lat entry_lon exit_lat exit_lon valid in
            (fst res, ByDetector (snd res))
        | None => _fallback_route_validation valid
        end
  end.

(* ------------------------------------------------------------------ *)
(** ** Entries and exits *)

(** [store_entry]: [None] is the answer of the handler. *)
Definition store_entry (log_entry : face_log) (now : Z) (s : tracker)
    : tracker * option nat :=
  let s1 :=
    if has_active_trip s then s else fst (start_new_trip None None now s) in
  match current_trip s1 with
  | None => (s1, None)
  | Some ct =>
      let season := check_season_ticket_member (log_face_embedding log_entry) now s1 in
      let season_ticket_detected :=
        match fst season with
        | Some season_member =>
            Some {| sd_member_id := member_id season_member;
                    sd_member_name := name season_member;
                    sd_similarity_score := snd season |}
        | None => None
        end in
      let oid := next_oid s1 in
      let temp_entry :=
        {| te_id := oid;
           te_trip_id := ct_trip_id ct;
           te_trip_start_time := ct_start_time ct;
           te_bus_id := bus_id;
           te_route_name := self_route_name;
           te_face_id := log_face_id log_entry;
           te_face_embedding := log_face_embedding log_entry;
           te_embedding_size := log_embedding_size log_entry;
           te_season_ticket_detected := season_ticket_detected;
           te_entry_location :=
             {| latitude := log_latitude log_entry;
                longitude := log_longitude log_entry;
                device_id := log_device_id log_entry;
                loc_timestamp := log_timestamp log_entry |};
           te_entry_timestamp := _parse_timestamp_safe now (log_timestamp log_entry);
           te_created_at := now |} in
      (set_next_oid (S oid) (set_temp_entries (temp_entries s1 ++ [temp_entry]) s1),
       Some oid)
  end.

(** [.sort("entry_timestamp", -1)]: latest entry first. *)
Fixpoint insert_desc (e : temp_entry) (l : list temp_entry) : list temp_entry :=
  match l with
  | [] => [e]
  | x :: t =>
      if (te_entry_timestamp x <=? te_entry_timestamp e)%Z then e :: x :: t
      else x :: insert_desc e t
  end.

Definition sort_desc (l : list temp_entry) : list temp_entry :=
  fold_right insert_desc [] l.

(** The query of [find_matching_entry]: the open entries of the current
    trip and of the bus, inside the time window, with an embedding. *)
Definition entries_list (now : Z) (ct : current_trip_info) (s : tracker)
    : list temp_entry :=
  let time_threshold := (now - time_window_hours * 3600)%Z in
  sort_desc
    (filter (fun e => in_trip (ct_trip_id ct) e && of_bus e
                      && (time_threshold <=? te_entry_timestamp e)%Z
                      && nonempty (te_face_embedding e))
            (temp_entries s)).

(** One iteration of the matching loop: the running best is replaced only
    by a similarity above both the running best and the threshold. *)
Definition match_step (exit_embedding : embedding) (acc : option temp_entry * Q)
    (entry : temp_entry) : option (option temp_entry * Q) :=
  match te_face_embedding entry with
  | [] => Some acc
  | entry_embedding =>
      similarity <- cosine_similarity exit_embedding entry_embedding ;;
      if Qltb (snd acc) similarity && Qltb similarity_threshold similarity
      then Some (Some entry, similarity)
      else Some acc
  end.

(** The loop of [find_matching_entry]: [(best_match, best_similarity)]. *)
Definition best_match_of (exit_embedding : embedding) (entries : list temp_entry)
    : option (option temp_entry * Q) :=
  fold_try (match_step exit_embedding) entries (None, 0).

Definition unavailable_distance : distance_info :=
  {| distance_km := 0;
     duration_minutes := 0;
     provider := "unavailable";
     success := false |}.

(** [distance_info.get('distance_km', 0) if distance_info else 0] for the
    road distance between the entry and the exit. *)
Definition journey_distance (exit_log : face_log) (best_match : temp_entry) : Q :=
  match calculate_road_distance
          (latitude (te_entry_location best_match))
          (longitude (te_entry_location best_match))
          (log_latitude exit_log) (log_longitude exit_log) with
  | Some di => distance_km di
  | None => 0
  end.

(** The branch [if best_match:] of [find_matching_entry]: the record of
    the journey and the tracker after the writes. *)
Definition finalize_journey (exit_log : face_log) (now : Z) (ct : current_trip_info)
    (best_match : temp_entry) (best_similarity : Q) (s : tracker)
    : tracker * final_passenger :=
  let passenger_id := S (List.length (final_passengers s)) in
  let entry_location := te_entry_location best_match in
  let dinfo :=
    calculate_road_distance (latitude entry_location) (longitude entry_location)
      (log_latitude exit_log) (log_longitude exit_log) in
  let season := check_season_ticket_member (log_face_embedding exit_log) now s in
  let distance := journey_distance exit_log best_match in
  let exit_location :=
    {| latitude := log_latitude exit_log;
       longitude := log_longitude exit_log;
       device_id := None;
       loc_timestamp := None |} in
  let outcome :=
    match fst season with
    | Some season_member =>
        let valid :=
          is_route_valid_for_season_ticket s season_member entry_location exit_location in
        if fst valid then
          (true,
           Some {| sti_member_id := member_id season_member;
                   sti_member_name := name season_member;
                   sti_ticket_type :=
                     match ticket_type season_member with
                     | Some t => t
                     | None => "monthly"
                     end;
                   sti_valid_until := valid_until season_member;
                   sti_similarity_score := snd season;
                   sti_valid_route := snd valid |},
           0,
           update_one (fun m => Nat.eqb (m_id m) (m_id season_member))
             (fun m =>
                {| m_id := m_id m;
                   member_id := member_id m;
                   name := name m;
                   m_face_embedding := m_face_embedding m;
                   valid_from := valid_from m;
                   valid_until := valid_until m;
                   is_active := is_active m;
                   valid_routes := valid_routes m;
                   ticket_type := ticket_type m;
                   total_trips := (total_trips m + 1)%Z;
                   last_used := Some now |})
             (season_ticket_members s))
        else
          (false, None, calculate_fare (fare_stages s) (PyNum distance),
           season_ticket_members s)
    | None =>
        (false, None, calculate_fare (fare_stages s) (PyNum distance),
         season_ticket_members s)
    end in
  let stage :=
    match dinfo with
    | Some di =>
        if Qltb 0 (distance_km di) then Qceiling (distance_km di / 3.5) else 0%Z
    | None => 0%Z
    end in
  let exit_time := _parse_timestamp_safe now (log_timestamp exit_log) in
  let final_passenger :=
    {| fp_id := passenger_id;
       fp_trip_id := ct_trip_id ct;
       fp_trip_start_time := ct_start_time ct;
       fp_bus_id := bus_id;
       fp_route_name := self_route_name;
       is_season_ticket := fst (fst (fst outcome));
       fp_season_ticket_info := snd (fst (fst outcome));
       entryLocation :=
         (entry_location,
          reverse_geocode (latitude entry_location) (longitude entry_location));
       exitLocation :=
         ({| latitude := log_latitude exit_log;
             longitude := log_longitude exit_log;
             device_id := log_device_id exit_log;
             loc_timestamp := log_timestamp exit_log |},
          reverse_geocode (log_latitude exit_log) (log_longitude exit_log));
       entry_timestamp := te_entry_timestamp best_match;
       exit_timestamp := exit_time;
       journey_duration_minutes :=
         inject_Z (exit_time - te_entry_timestamp best_match) / 60;
       similarity_score := best_similarity;
       entry_face_id := te_face_id best_match;
       exit_face_id := log_face_id exit_log;
       fp_distance_info :=
         match dinfo with
         | Some di => di
         | None => unavailable_distance
         end;
       price := snd (fst outcome);
       fp_stage_number := stage;
       fp_created_at := now |} in
  let s1 := set_season_ticket_members (snd outcome) s in
  let s2 := set_final_passengers (final_passengers s1 ++ [final_passenger]) s1 in
  let s3 :=
    set_temp_entries
      (delete_one (fun e => Nat.eqb (te_id e) (te_id best_match)) (temp_entries s2)) s2 in
  (s3, final_passenger).

(** The first half of [find_matching_entry], up to the end of the
    matching loop. *)
Inductive search_outcome : Type :=
  | Aborted
  | NoMatch (best_similarity : Q)
  | Match (ct : current_trip_info) (best_match : temp_entry) (best_similarity : Q).

(** [Aborted] gathers the early answers [None, 0.0]: no embedding in the
    log, no active trip, no candidate entry, or an exception in the loop. *)
Definition search_entries (exit_log : face_log) (now : Z) (s : tracker)
    : search_outcome :=
  match log_face_embedding exit_log with
  | [] => Aborted
  | exit_embedding =>
      match current_trip s with
      | None => Aborted
      | Some ct =>
          match ct_status ct with
          | Completed => Aborted
          | Active =>
              match entries_list now ct s with
              | [] => Aborted
              | entries =>
                  match best_match_of exit_embedding entries with
                  | None => Aborted
                  | Some (Some best_match, best_similarity) =>
                      Match ct best_match best_similarity
                  | Some (None, best_similarity) => NoMatch best_similarity
                  end
              end
          end
      end
  end.

(** [find_matching_entry]: the tracker after the call, the record of the
    journey when an entry matched, and the similarity handed back. *)
Definition find_matching_entry (exit_log : face_log) (now : Z) (s : tracker)
    : tracker * option final_passenger * Q :=
  match search_entries exit_log now s with
  | Aborted => (s, None, 0)
  | NoMatch best_similarity => (s, None, best_similarity)
  | Match ct best_match best_similarity =>
      let res := finalize_journey exit_log now ct best_match best_similarity s in
      (fst res, Some (snd res), best_similarity)
  end.

(** [store_unmatched_exit]: [false] is the answer [None] given when no
    trip is active. *)
Definition store_unmatched_exit (exit_log : face_log) (best_similarity : Q)
    (now : Z) (s : tracker) : tracker * bool :=
  match current_trip s with
  | None => (s, false)
  | Some ct =>
      match ct_status ct with
      | Completed => (s, false)
      | Active =>
          let unmatched_exit :=
            {| un_trip_id := ct_trip_id ct;
               un_bus_id := bus_id;
               un_route_name := self_route_name;
               un_type := EXIT;
               un_trip_start_time := ct_start_time ct;
               un_face_id := log_face_id exit_log;
               un_face_embedding := log_face_embedding exit_log;
               un_embedding_size := log_embedding_size exit_log;
               un_location :=
                 {| latitude := log_latitude exit_log;
                    longitude := log_longitude exit_log;
                    device_id := log_device_id exit_log;
                    loc_timestamp := log_timestamp exit_log |};
               un_timestamp := _parse_timestamp_safe now (log_timestamp exit_log);
               best_similarity_found := best_similarity;
               reason := "No matching entry found";
               un_created_at := now |} in
          (set_unmatched_passengers (unmatched_passengers s ++ [unmatched_exit]) s,
           true)
      end
  end.

(** The answers of [process_face_log]. *)
Inductive response : Type :=
  | StoredEntry (entry_id : nat)
  | ErrorResponse
  | MatchedJourney (journey : final_passenger) (similarity : Q)
  | UnmatchedExit (best_similarity : Q) (stored : bool)
  | UnknownLocationType.

(** [process_face_log]. *)
Definition process_face_log (log_entry : face_log) (now : Z) (s : tracker)
    : tracker * response :=
  match log_location_type log_entry with
  | ENTRY =>
      let res := store_entry log_entry now s in
      match snd res with
      | Some entry_id => (fst res, StoredEntry entry_id)
      | None => (fst res, ErrorResponse)
      end
  | EXIT =>
      let res := find_matching_entry log_entry now s in
      match snd (fst res) with
      | Some match_result => (fst (fst res), MatchedJourney match_result (snd res))
      | None =>
          let stored := store_unmatched_exit log_entry (snd res) now (fst (fst res)) in
          (fst stored, UnmatchedExit (snd res) (snd stored))
      end
  | UnknownType => (s, UnknownLocationType)
  end.

(* ------------------------------------------------------------------ *)
(** ** Observations on the ledger *)

Definition session_active (ts : trip_session) : bool :=
  match ts_status ts with
  | Active => String.eqb (ts_bus_id ts) bus_id
  | Completed => false
  end.

(** The ACTIVE trips of the bus. *)
Definition active_sessions (s : tracker) : list trip_session :=
  filter session_active (trip_sessions s).

(** The open entries of a trip of the bus. *)
Definition open_entries_of (tid : trip_id) (s : tracker) : list temp_entry :=
  filter (fun e => in_trip tid e && of_bus e) (temp_entries s).

Definition unmatched_entries (s : tracker) : list unmatched :=
  filter (fun u => match un_type u with ENTRY => true | _ => false end)
         (unmatched_passengers s).

End External.

(* ================================================================== *)
(** * Invariants of the ledger *)

(** The ledger is coherent: the [_id]s of the trip sessions are distinct
    and below the counter, and the ACTIVE sessions of the bus are exactly
    the current trip. *)
Definition ledger_ok (s : tracker) : Prop :=
  NoDup (map ts_id (trip_sessions s))
  /\ (forall ts, In ts (trip_sessions s) -> (ts_id ts < next_oid s)%nat)
  /\ match current_trip s with
     | Some ct => ct_status ct = Active /\ map ts_id (active_sessions s) = [ct_id ct]
     | None => active_sessions s = []
     end.

(** The [_id]s of the buffer are distinct and below the counter. *)
Definition buffer_ok (s : tracker) : Prop :=
  NoDup (map te_id (temp_entries s))
  /\ forall e, In e (temp_entries s) -> (te_id e < next_oid s)%nat.

(** The first assignment of a variable that is assigned once. *)
Definition keep_first {A : Type} (a b : option A) : option A :=
  match a with
  | Some x => Some x
  | None => b
  end.

(* ================================================================== *)
(** * Concrete collaborators and data for the examples *)

(** A [float()] that rejects every text. *)
Definition no_text_number (_ : string) : option Q := None.

Definition dot (a b : embedding) : Q :=
  fold_right Qplus 0 (map (fun p => fst p * snd p) (combine a b)).

(** The square root of a rational square. *)
Definition exact_sqrt (q : Q) : option Q :=
  let r := Qred q in
  let n := Z.sqrt (Qnum r) in
  let d := Z.sqrt (Zpos (Qden r)) in
  if ((n * n =? Qnum r) && (d * d =? Zpos (Qden r)))%Z
  then Some (n # Z.to_pos d) else None.

(** The cosine similarity of two vectors of the same dimension whose
    norms are rational; an exception for any other pair. *)
Definition rational_cosine (a b : embedding) : option Q :=
  if Nat.eqb (List.length a) (List.length b) then
    na <- exact_sqrt (dot a a) ;;
    nb <- exact_sqrt (dot b b) ;;
    Some (Qred (dot a b / (na * nb)))
  else None.

Definition no_road_distance (_ _ _ _ : Q) : option distance_info := None.

Definition road_distance_of (km : Q) (_ _ _ _ : Q) : option distance_info :=
  Some {| distance_km := km;
          duration_minutes := km * 2;
          provider := "osrm";
          success := true |}.

Definition no_geocoder (_ _ : Q) : option string := None.

Definition empty_tracker : tracker :=
  {| temp_entries := [];
     final_passengers := [];
     unmatched_passengers := [];
     trip_sessions := [];
     season_ticket_members := [];
     fare_stages := Some [];
     bus_routes := Some [];
     route_detector := Some [];
     current_trip := None;
     next_oid := 0 |}.

(** 2023-11-14T22:13:20Z. *)
Definition t0 : Z := 1700000000.

Definition log_of (ty : log_type) (fid : Z) (e : embedding) (ts : Z) : face_log :=
  {| log_location_type := ty;
     log_face_id := fid;
     log_face_embedding := e;
     log_embedding_size := Z.of_nat (List.length e);
     log_latitude := 9.6615;
     log_longitude := 80.0255;
     log_device_id := Some "ESP32_CAM_01"%string;
     log_timestamp := Some ts |}.

(** A trip started at [t0] with one passenger on board. *)
Definition one_on_board : tracker :=
  fst (store_entry rational_cosine
         (log_of ENTRY 1 [1; 1; 1; 1] (t0 + 60)) (t0 + 60)
         (fst (start_new_trip None None t0 empty_tracker))).

(** ** Stops and routes *)

(** Two stops on the meridian 80 E, about 5.6 km apart, and a third one
    a degree of latitude further north. *)
Definition stop_a : stop :=
  {| stop_name := Some "Stop A"%string;
     stop_latitude := Some 9.05;
     stop_longitude := Some 80;
     stop_order := Some 1%Z |}.

Definition stop_b : stop :=
  {| stop_name := Some "Stop B"%string;
     stop_latitude := Some 9;
     stop_longitude := Some 80;
     stop_order := Some 2%Z |}.

Definition stop_c : stop :=
  {| stop_name := Some "Stop C"%string;
     stop_latitude := Some 10;
     stop_longitude := Some 80;
     stop_order := Some 3%Z |}.

Definition route_bc : bus_route :=
  {| br_route_name := Some "B-C"%string;
     br_is_active := true;
     br_stops := [stop_b; stop_c] |}.

Definition ticket_c_to_b : valid_route :=
  {| from_location := Some "Stop C"%string;
     to_location := Some "Stop B"%string;
     route_patterns := [] |}.

(** ** Fare tables *)

Definition fare_table : list fare_stage :=
  [ {| stage_number := 1; fare := PyNum 30; fs_is_active := true |};
    {| stage_number := 2; fare := PyNum 40; fs_is_active := true |};
    {| stage_number := 3; fare := PyNum 50; fs_is_active := true |} ].

(** A table whose second stage is cheaper than its first. *)
Definition falling_table : list fare_stage :=
  [ {| stage_number := 1; fare := PyNum 50; fs_is_active := true |};
    {| stage_number := 2; fare := PyNum 20; fs_is_active := true |} ].

(** ** Exit logs and trackers *)

(** An exit log whose face is at cosine 1/2 of the passenger on board. *)
Definition exit_half : face_log := log_of EXIT 2 [1; 0; 0; 0] (t0 + 600).

(** An exit log with the face of the passenger on board. *)
Definition exit_same : face_log := log_of EXIT 3 [2; 2; 2; 2] (t0 + 600).

(** The tracker after [exit_same] was processed on [one_on_board]. *)
Definition after_exit_same : tracker :=
  fst (fst (find_matching_entry no_text_number rational_cosine no_road_distance
              no_geocoder exit_same (t0 + 600) one_on_board)).

(** A member whose season ticket has no route restriction. *)
Definition unrestricted_member : member :=
  {| m_id := 7;
     member_id := "ST001";
     name := "K. Perera";
     m_face_embedding := [1; 1; 1; 1];
     valid_from := t0 - 86400;
     valid_until := t0 + 2592000;
     is_active := true;
     valid_routes := Some [];
     ticket_type := None;
     total_trips := 0;
     last_used := None |}.

(** A trip started at [t0] with the unrestricted member on board. *)
Definition member_on_board : tracker :=
  fst (store_entry rational_cosine
         (log_of ENTRY 1 [1; 1; 1; 1] (t0 + 60)) (t0 + 60)
         (fst (start_new_trip None None t0
                 (set_season_ticket_members [unrestricted_member] empty_tracker)))).

(** [one_on_board] with a [fareStages] collection whose queries raise. *)
Definition fares_unreachable : tracker :=
  {| temp_entries := temp_entries one_on_board;
     final_passengers := final_passengers one_on_board;
     unmatched_passengers := unmatched_passengers one_on_board;
     trip_sessions := trip_sessions one_on_board;
     season_ticket_members := season_ticket_members one_on_board;
     fare_stages := None;
     bus_routes := bus_routes one_on_board;
     route_detector := route_detector one_on_board;
     current_trip := current_trip one_on_board;
     next_oid := next_oid one_on_board |}.

(** A GPS fix at Jaffna. *)
Definition gps_fix : Q * Q := (9.6615, 80.0255).

(** A second [start_new_trip], with a GPS fix, an hour into the trip of
    [one_on_board]. *)
Definition restart_with_gps : tracker * option trip_id :=
  start_new_trip None (Some gps_fix) (t0 + 3600) one_on_board.


(* ================================================================== *)
(** * Further observations on the detector *)

(** The distance from a point to a waypoint that has both coordinates. *)
Definition waypoint_distance (lat lon : Q) (wp : waypoint) : option R :=
  match wp_latitude wp, wp_longitude wp with
  | Some wp_lat, Some wp_lon => Some (haversine_distance lat lon wp_lat wp_lon)
  | _, _ => None
  end.


(** The second component of the answer of [is_journey_on_route]; the
    distances are kept unrounded. *)
Inductive journey_check : Type :=
  | RouteNotFound
  | JourneyChecked (entry_match : bool) (entry_distance : option xreal)
                   (exit_match : bool) (exit_distance : option xreal)
                   (rname : option string).

(** [RouteDetector.is_journey_on_route]. *)
Definition is_journey_on_route (float_of_str : string -> option Q)
    (route_cache : list route)
    (entry_lat entry_lon exit_lat exit_lon : Q) (rid : string) (threshold_km : R)
    : bool * journey_check :=
  match cache_get route_cache rid with
  | None => (false, RouteNotFound)
  | Some r =>
      let entry := is_point_near_route float_of_str entry_lat entry_lon r threshold_km in
      let exit := is_point_near_route float_of_str exit_lat exit_lon r threshold_km in
      (fst entry && fst exit,
       JourneyChecked (fst entry) (option_map fst (snd entry))
                      (fst exit) (option_map fst (snd exit))
                      (route_name r))
  end.

(** A ticket from stop B to stop C, in the direction of [route_bc]. *)
Definition ticket_b_to_c : valid_route :=
  {| from_location := Some "Stop B"%string;
     to_location := Some "Stop C"%string;
     route_patterns := [] |}.


(** [one_on_board] after a second passenger, whose embedding has three
    components only, has boarded. *)
Definition mixed_on_board : tracker :=
  fst (store_entry rational_cosine
         (log_of ENTRY 4 [1; 1; 1] (t0 + 120)) (t0 + 120) one_on_board).


(** The current trip of [one_on_board]. *)
Definition first_trip : current_trip_info :=
  {| ct_trip_id := generate_trip_id t0;
     ct_start_time := t0;
     ct_status := Active;
     ct_id := 0 |}.


(* ------------------------------------------------------------------ *)
(** ** The log endpoints of [do_POST] *)

(** [/api/entry-logs], [/api/exit-logs] and [/api/face-logs]. *)
Inductive logs_path : Type := EntryLogs | ExitLogs | FaceLogs.

(** The location type of a batch: fixed by the first two endpoints, the
    type of the first log of the batch on [/api/face-logs]. *)
Definition batch_location_type (path : logs_path) (logs : list face_log) : log_type :=
  match path with
  | EntryLogs => ENTRY
  | ExitLogs => EXIT
  | FaceLogs =>
      match logs with
      | log :: _ => log_location_type log
      | [] => UnknownType
      end
  end.

(** [log['location_type'] = location_type]. *)
Definition with_location_type (location_type : log_type) (log : face_log) : face_log :=
  {| log_location_type := location_type;
     log_face_id := log_face_id log;
     log_face_embedding := log_face_embedding log;
     log_embedding_size := log_embedding_size log;
     log_latitude := log_latitude log;
     log_longitude := log_longitude log;
     log_device_id := log_device_id log;
     log_timestamp := log_timestamp log |}.

(** [processing_summary] of the response. *)
Record processing_summary : Type := {
  matched_journeys : nat;
  stored_entries : nat;
  unmatched_exits : nat
}.

Definition is_matched_journey (r : response) : bool :=
  match r with MatchedJourney _ _ => true | _ => false end.

Definition is_stored_entry (r : response) : bool :=
  match r with StoredEntry _ => true | _ => false end.

Definition is_unmatched_exit (r : response) : bool :=
  match r with UnmatchedExit _ _ => true | _ => false end.

Definition summary_of (results : list response) : processing_summary :=
  {| matched_journeys := List.length (filter is_matched_journey results);
     stored_entries := List.length (filter is_stored_entry results);
     unmatched_exits := List.length (filter is_unmatched_exit results) |}.

Section LogEndpoints.

Variable float_of_str : string -> option Q.
Variable cosine_similarity : embedding -> embedding -> option Q.
Variable calculate_road_distance : Q -> Q -> Q -> Q -> option distance_info.
Variable reverse_geocode : Q -> Q -> option string.

(** The loop over the logs of a batch.  Each log comes with the reading
    of the clock while it is processed. *)
Fixpoint process_logs (location_type : log_type) (logs : list (face_log * Z))
    (s : tracker) : tracker * list response :=
  match logs with
  | [] => (s, [])
  | (log, now) :: rest =>
      let result :=
        process_face_log float_of_str cosine_similarity calculate_road_distance
          reverse_geocode (with_location_type location_type log) now s in
      let later := process_logs location_type rest (fst result) in
      (fst later, snd result :: snd later)
  end.

(** The handler of the three log endpoints: the tracker after the batch,
    the results and their summary. *)
Definition do_POST_logs (path : logs_path) (logs : list (face_log * Z))
    (s : tracker) : tracker * list response * processing_summary :=
  let location_type := batch_location_type path (map fst logs) in
  let res := process_logs location_type logs s in
  (fst res, snd res, summary_of (snd res)).

End LogEndpoints.

(** A batch for [/api/face-logs]: an entry log followed by a log that
    its device labelled as an exit. *)
Definition mixed_batch : list (face_log * Z) :=
  [ (log_of ENTRY 5 [1; 0; 0; 0] (t0 + 700), (t0 + 700)%Z);
    (log_of EXIT 6 [1; 1; 1; 1] (t0 + 710), (t0 + 710)%Z) ].

(** Two exit logs: the passenger on board, then a stranger. *)
Definition exit_batch : list (face_log * Z) :=
  [ (exit_same, (t0 + 600)%Z); (exit_half, (t0 + 610)%Z) ].


(** A member whose stored embedding has three components only. *)
Definition short_member : member :=
  {| m_id := 8;
     member_id := "ST002";
     name := "S. Nathan";
     m_face_embedding := [1; 1; 1];
     valid_from := t0 - 86400;
     valid_until := t0 + 2592000;
     is_active := true;
     valid_routes := Some [];
     ticket_type := None;
     total_trips := 0;
     last_used := None |}.

(** [one_on_board] with two season ticket members. *)
Definition two_members_on_board : tracker :=
  set_season_ticket_members [unrestricted_member; short_member] one_on_board.


(* ================================================================== *)
(** * The schedule and the trip context *)

(** Times of day are seconds after midnight of the tracker's clock; a
    text [HH:MM] is the number of its minutes after midnight. *)
Definition seconds_of_day (t : Z) : Z := (t mod 86400)%Z.

(** [strftime("%H:%M")] of the clock, as minutes after midnight. *)
Definition minute_of_day (t : Z) : Z := ((t / 60) mod 1440)%Z.

(** An entry of [self.schedule]. *)
Record route_info : Type := {
  ri_route_name : string;
  ri_departure_time : Z;
  ri_departure_city : string;
  ri_destination_city : string;
  ri_estimated_duration_hours : Z
}.

Definition jaffna_to_colombo : route_info :=
  {| ri_route_name := "Jaffna-Colombo";
     ri_departure_time := 7 * 60;
     ri_departure_city := "Jaffna";
     ri_destination_city := "Colombo";
     ri_estimated_duration_hours := 8 |}.

Definition colombo_to_jaffna : route_info :=
  {| ri_route_name := "Colombo-Jaffna";
     ri_departure_time := 18 * 60;
     ri_departure_city := "Colombo";
     ri_destination_city := "Jaffna";
     ri_estimated_duration_hours := 8 |}.

(** [self.schedule], in the order of its items. *)
Definition schedule : list (string * route_info) :=
  [ ("jaffna_to_colombo"%string, jaffna_to_colombo);
    ("colombo_to_jaffna"%string, colombo_to_jaffna) ].

(** [get_current_route_info]: the route of the time of day
    [current_time]. *)
Definition get_current_route_info (current_time : Z) : route_info :=
  if ((6 * 3600 <=? current_time) && (current_time <? 18 * 3600))%Z
  then jaffna_to_colombo
  else colombo_to_jaffna.

(** [is_departure_time]: the first route of the schedule whose departure
    is at most [tolerance_minutes] away from the minute of
    [current_time]. *)
Definition is_departure_time (current_time : Z) (tolerance_minutes : Z)
    : bool * option route_info :=
  let current_minutes := (current_time / 60)%Z in
  match
    find (fun item =>
            let departure_minutes := ri_departure_time (snd item) in
            let time_diff := Z.abs (current_minutes - departure_minutes) in
            (time_diff <=? tolerance_minutes)%Z)
         schedule
  with
  | Some item => (true, Some (snd item))
  | None => (false, None)
  end.

(** The answer of [get_current_trip]; the fields [bus_id], [start_time],
    [duration_minutes], [next_departure] and the two cities are left
    out. *)
Record trip_view : Type := {
  tv_trip_id : option trip_id;
  tv_route_name : string;
  tv_status : string;
  tv_trip_active : bool;
  tv_passengers_inside : nat;
  tv_passengers_completed : nat
}.

(** [get_current_trip]: [None] when the session of the current trip is
    not in [tripSessions]. *)
Definition get_current_trip (now : Z) (s : tracker) : option trip_view :=
  match current_trip s with
  | None =>
      let departure := is_departure_time (seconds_of_day now) 30 in
      Some {| tv_trip_id := None;
              tv_route_name :=
                match snd departure with
                | Some info => ri_route_name info
                | None => self_route_name
                end;
              tv_status := "waiting_for_departure";
              tv_trip_active := fst departure;
              tv_passengers_inside := 0;
              tv_passengers_completed := 0 |}
  | Some ct =>
      match find (fun ts => Nat.eqb (ts_id ts) (ct_id ct)) (trip_sessions s) with
      | Some trip_session =>
          let passenger_count :=
            count_documents (fun fp => trip_id_eqb (fp_trip_id fp) (ct_trip_id ct))
              (final_passengers s) in
          let temp_count :=
            count_documents (in_trip (ct_trip_id ct)) (temp_entries s) in
          let duration_minutes :=
            inject_Z (now - ts_start_time trip_session) / 60 in
          let info :=
            get_current_route_info (seconds_of_day (ts_start_time trip_session)) in
          let estimated_duration_minutes :=
            inject_Z (ri_estimated_duration_hours info * 60) in
          let trip_status : string :=
            if Qltb duration_minutes 60 then "departing"%string
            else if Qltb duration_minutes (estimated_duration_minutes - 60)
            then "in_transit"%string
            else if Qltb duration_minutes (estimated_duration_minutes + 180)
            then "approaching_destination"%string
            else "should_have_arrived"%string in
          Some {| tv_trip_id := Some (ct_trip_id ct);
                  tv_route_name := ts_route_name trip_session;
                  tv_status := trip_status;
                  tv_trip_active := true;
                  tv_passengers_inside := temp_count;
                  tv_passengers_completed := passenger_count |}
      | None => None
      end
  end.

(** [cleanup_old_temp_entries_for_new_trip]: every open entry of the bus
    becomes an unmatched record; the answer is their number. *)
Definition cleanup_old_temp_entries_for_new_trip (now : Z) (s : tracker)
    : tracker * nat :=
  let old_entries := filter of_bus (temp_entries s) in
  match old_entries with
  | [] => (s, 0%nat)
  | _ =>
      let moved :=
        map (fun entry =>
               {| un_trip_id := te_trip_id entry;
                  un_bus_id := bus_id;
                  un_route_name := self_route_name;
                  un_type := ENTRY;
                  un_trip_start_time := te_trip_start_time entry;
                  un_face_id := te_face_id entry;
                  un_face_embedding := te_face_embedding entry;
                  un_embedding_size := te_embedding_size entry;
                  un_location := te_entry_location entry;
                  un_timestamp := te_entry_timestamp entry;
                  best_similarity_found := 0;
                  reason := "New trip started - previous trip data";
                  un_created_at := now |})
            old_entries in
      let s1 := set_unmatched_passengers (unmatched_passengers s ++ moved) s in
      (set_temp_entries (delete_many of_bus (temp_entries s1)) s1,
       List.length old_entries)
  end.

(** [is_within_trip_schedule]: the three times are texts [HH:MM], [None]
    for a text that does not parse, on which the handler answers
    [False]. *)
Definition is_within_trip_schedule (current_time_str trip_start trip_end : option Z)
    : bool :=
  match current_time_str, trip_start, trip_end with
  | Some current, Some start, Some end_ =>
      if (start <=? end_)%Z
      then ((start <=? current) && (current <=? end_))%Z
      else ((start <=? current) || (current <=? end_))%Z
  | _, _, _ => false
  end.

(** [current_trip.get('status') == 'active']. *)
Definition status_is_active (v : trip_view) : bool :=
  String.eqb (tv_status v) "active".

(** The automatic trip management of [GET /api/trip-context]: the
    tracker after the request and the trip the response is built from.
    A query parameter is [None] when it is absent or empty. *)
Definition trip_context (esp32_trip_start esp32_trip_end : option (option Z))
    (now : Z) (s : tracker) : tracker * option trip_view :=
  match esp32_trip_start, esp32_trip_end with
  | Some trip_start, Some trip_end =>
      let is_esp32_trip_time :=
        is_within_trip_schedule (Some (minute_of_day now)) trip_start trip_end in
      let current_trip := get_current_trip now s in
      if is_esp32_trip_time then
        if match current_trip with
           | None => true
           | Some v => negb (status_is_active v)
           end
        then
          let s1 := fst (cleanup_old_temp_entries_for_new_trip now s) in
          let s2 := fst (start_new_trip None None now s1) in
          (s2, get_current_trip now s2)
        else (s, current_trip)
      else
        if match current_trip with
           | None => false
           | Some v => status_is_active v
           end
        then (fst (end_current_trip now s), None)
        else (s, current_trip)
  | _, _ => (s, get_current_trip now s)
  end.


(* ================================================================== *)
(** * Board heartbeats *)

(** An element of the [boards] list of a power configuration: a text,
    a dictionary (a field is [None] when it is absent or [None]), or any
    other value. *)
Inductive board : Type :=
  | BoardText (device : string)
  | BoardDict (b_device_id b_board_id b_location b_board_name b_ip_address
                 : option string)
              (b_last_seen : option Z)
  | BoardOther.

(** [a or b] on optional texts: the empty text is false. *)
Definition py_or (a b : option string) : option string :=
  match a with
  | Some EmptyString => b
  | Some x => Some x
  | None => b
  end.

(** A board in the new format. *)
Definition new_board (device location ip_address : string) (last_seen : option Z)
    : board :=
  BoardDict (Some device) None (Some location) None (Some ip_address) last_seen.

(** [board_device_id] of the loop of [update_board_heartbeat]: the device
    a board stands for; [None] for a dictionary without an id and for a
    value that the loop skips. *)
Definition board_device_id (b : board) : option string :=
  match b with
  | BoardText device => Some device
  | BoardDict dev bid _ _ _ _ => py_or dev bid
  | BoardOther => None
  end.

(** [isinstance(board, str) or isinstance(board, dict)]. *)
Definition is_text_or_dict (b : board) : bool :=
  match b with
  | BoardOther => false
  | _ => true
  end.

(** One iteration of the loop of [update_board_heartbeat] on
    [(new_boards, board_found)]. *)
Definition heartbeat_step (device_id location ip_address : string) (now : Z)
    (acc : list board * bool) (b : board) : list board * bool :=
  match b with
  | BoardOther => acc
  | BoardText device =>
      if String.eqb device device_id
      then (fst acc ++ [new_board device_id location ip_address (Some now)], true)
      else (fst acc ++ [new_board device "Unknown" "No IP" None], snd acc)
  | BoardDict dev bid loc bname ip seen =>
      match py_or dev bid with
      | Some board_device_id =>
          if String.eqb board_device_id device_id
          then (fst acc ++ [new_board device_id location ip_address (Some now)], true)
          else
            (fst acc
             ++ [BoardDict (py_or (py_or dev bid) (Some "Unknown"%string)) None
                   (py_or (py_or loc bname) (Some "Unknown"%string)) None
                   (py_or ip (Some "No IP"%string)) seen],
             snd acc)
      | None =>
          (fst acc
           ++ [BoardDict (py_or (py_or dev bid) (Some "Unknown"%string)) None
                 (py_or (py_or loc bname) (Some "Unknown"%string)) None
                 (py_or ip (Some "No IP"%string)) seen],
           snd acc)
      end
  end.

(** [update_board_heartbeat]: the list written back to the [boards] of
    the configuration. *)
Definition update_board_heartbeat (device_id location ip_address : string)
    (now : Z) (boards : list board) : list board :=
  let res :=
    fold_left (heartbeat_step device_id location ip_address now) boards ([], false) in
  if snd res then fst res
  else fst res ++ [new_board device_id location ip_address (Some now)].


(** A batch for [/api/face-logs] whose first log carries a location type
    that is neither ENTRY nor EXIT, followed by an entry log with the
    face of a new passenger and an exit log with the face of the
    passenger on board. *)
Definition stray_batch : list (face_log * Z) :=
  [ (log_of UnknownType 7 [0; 1; 0; 0] (t0 + 700), (t0 + 700)%Z);
    (log_of ENTRY 8 [0; 0; 1; 0] (t0 + 710), (t0 + 710)%Z);
    (log_of EXIT 9 [2; 2; 2; 2] (t0 + 720), (t0 + 720)%Z) ].







(* ================================================================== *)
(** * Properties *)

(** ** Great-circle distance on a meridian *)

Section GeoFacts.

Local Open Scope R_scope.

Lemma radians_minus (a b : R) : radians a - radians b = radians (a - b).
Proof. unfold radians. lra. Qed.

Lemma asin_abs_sin (y : R) :
  - (PI / 2) <= y <= PI / 2 -> asin (Rabs (sin y)) = Rabs y.
Proof.
  intros [Hl Hu].
  pose proof PI_RGT_0 as Hpi.
  destruct (Rle_dec 0 y) as [Hy | Hy].
  - rewrite (Rabs_pos_eq y) by exact Hy.
    rewrite Rabs_pos_eq.
    + apply asin_sin. lra.
    + apply sin_ge_0; lra.
  - assert (Hneg : y < 0) by lra.
    rewrite (Rabs_left y) by exact Hneg.
    replace (sin y) with (- sin (- y)) by (rewrite sin_neg; lra).
    rewrite Rabs_Ropp.
    rewrite Rabs_pos_eq.
    + apply asin_sin. lra.
    + apply sin_ge_0; lra.
Qed.

(** With equal longitudes the central angle is the difference of the
    latitudes, in radians. *)
Lemma haversine_angle_same_meridian (lat1 lat2 lon : R) :
  -180 <= lat2 - lat1 <= 180 ->
  haversine_angle lat1 lon lat2 lon = Rabs (radians (lat2 - lat1)).
Proof.
  intros H.
  unfold haversine_angle.
  replace ((radians lon - radians lon) / 2) with 0 by lra.
  rewrite sin_0.
  replace ((sin ((radians lat2 - radians lat1) / 2))² +
           cos (radians lat1) * cos (radians lat2) * 0²)
    with ((sin ((radians lat2 - radians lat1) / 2))²)
    by (unfold Rsqr; lra).
  rewrite sqrt_Rsqr_abs.
  rewrite asin_abs_sin.
  - rewrite radians_minus.
    replace (radians (lat2 - lat1) / 2) with (radians (lat2 - lat1) * / 2) by lra.
    rewrite Rabs_mult. rewrite (Rabs_pos_eq (/ 2)) by lra. lra.
  - rewrite radians_minus. unfold radians.
    pose proof PI_RGT_0. split; nra.
Qed.

Lemma haversine_distance_meridian (lat1 lat2 lon : Q) :
  -180 <= Q2R lat2 - Q2R lat1 <= 180 ->
  haversine_distance lat1 lon lat2 lon
  = 6371 * (Rabs (Q2R lat2 - Q2R lat1) * PI / 180).
Proof.
  intros H. unfold haversine_distance.
  rewrite haversine_angle_same_meridian by exact H.
  unfold radians.
  replace ((Q2R lat2 - Q2R lat1) * PI / 180)
    with ((Q2R lat2 - Q2R lat1) * (PI / 180)) by lra.
  rewrite Rabs_mult.
  rewrite (Rabs_pos_eq (PI / 180)) by (pose proof PI_RGT_0; lra).
  lra.
Qed.

(** The distance of a point to itself is zero. *)
Lemma haversine_distance_same_point (lat lon : Q) :
  haversine_distance lat lon lat lon = 0.
Proof.
  rewrite haversine_distance_meridian by lra.
  replace (Q2R lat - Q2R lat) with 0 by lra.
  rewrite Rabs_R0. lra.
Qed.

Lemma Rabs_bound (x b : R) : Rabs x <= b -> - b <= x <= b.
Proof.
  intros H. unfold Rabs in H. destruct (Rcase_abs x); lra.
Qed.

Lemma PI_gt_3 : 3 < PI.
Proof. pose proof PI2_3_2. lra. Qed.

Lemma within_proximity_true (lat lon s_lat s_lon : Q) :
  haversine_distance lat lon s_lat s_lon <= 10 ->
  within_proximity lat lon s_lat s_lon = true.
Proof.
  intros H. unfold within_proximity, PROXIMITY_THRESHOLD_KM.
  destruct (Rle_dec _ _); [reflexivity | contradiction].
Qed.

Lemma within_proximity_false (lat lon s_lat s_lon : Q) :
  10 < haversine_distance lat lon s_lat s_lon ->
  within_proximity lat lon s_lat s_lon = false.
Proof.
  intros H. unfold within_proximity, PROXIMITY_THRESHOLD_KM.
  destruct (Rle_dec _ _); [lra | reflexivity].
Qed.

Lemma within_proximity_same_point (lat lon : Q) :
  within_proximity lat lon lat lon = true.
Proof.
  apply within_proximity_true. rewrite haversine_distance_same_point. lra.
Qed.

(** Seven hundredths of a degree of latitude are less than 10 km. *)
Lemma within_proximity_meridian_near (lat1 lat2 lon : Q) :
  Rabs (Q2R lat2 - Q2R lat1) <= 7 / 100 ->
  within_proximity lat1 lon lat2 lon = true.
Proof.
  intros H. apply within_proximity_true.
  assert (Hr : -180 <= Q2R lat2 - Q2R lat1 <= 180).
  { apply Rabs_bound in H. lra. }
  rewrite haversine_distance_meridian by exact Hr.
  pose proof PI_4. pose proof PI_RGT_0.
  pose proof (Rabs_pos (Q2R lat2 - Q2R lat1)).
  nra.
Qed.

(** A tenth of a degree of latitude is more than 10 km. *)
Lemma within_proximity_meridian_far (lat1 lat2 lon : Q) :
  1 / 10 <= Rabs (Q2R lat2 - Q2R lat1) <= 180 ->
  within_proximity lat1 lon lat2 lon = false.
Proof.
  intros [Hl Hu]. apply within_proximity_false.
  assert (Hr : -180 <= Q2R lat2 - Q2R lat1 <= 180).
  { apply Rabs_bound in Hu. lra. }
  rewrite haversine_distance_meridian by exact Hr.
  pose proof PI_gt_3. nra.
Qed.

End GeoFacts.

Ltac q2r := unfold Q2R; simpl; try lra.

Ltac rabs_concrete :=
  match goal with
  | |- context [Rabs ?x] =>
      let H := fresh in
      first [ assert (H : (0 <= x)%R) by (unfold Q2R; simpl; lra);
              rewrite (Rabs_pos_eq x H)
            | assert (H : (x < 0)%R) by (unfold Q2R; simpl; lra);
              rewrite (Rabs_left x H) ]
  end.

Lemma near_a_from_b : within_proximity 9 80 9.05 80 = true.
Proof. apply within_proximity_meridian_near. rabs_concrete. q2r. Qed.

Lemma far_c_from_b : within_proximity 9 80 10 80 = false.
Proof. apply within_proximity_meridian_far. rabs_concrete. q2r. Qed.

Lemma far_b_from_c : within_proximity 10 80 9 80 = false.
Proof. apply within_proximity_meridian_far. rabs_concrete. q2r. Qed.

(* ------------------------------------------------------------------ *)
(** ** GeoDistance on input that is not a number *)

Section GeoErrors.

Variable float_of_str : string -> option Q.

Lemma bind_none {A B : Type} (m : option A) (k : A -> option B) :
  m = None -> bind m k = None.
Proof. intros ->. reflexivity. Qed.

Lemma haversine_try_none (lat1 lon1 lat2 lon2 : pyval) :
  py_float float_of_str lat1 = None \/ py_float float_of_str lon1 = None \/
  py_float float_of_str lat2 = None \/ py_float float_of_str lon2 = None ->
  calculate_haversine_distance_try float_of_str lat1 lon1 lat2 lon2 = None
  /\ calculate_distance_try float_of_str lat1 lon1 lat2 lon2 = None.
Proof.
  intros H.
  unfold calculate_haversine_distance_try, calculate_distance_try.
  destruct (py_float float_of_str lat1) as [a|]; [|split; reflexivity].
  destruct (py_float float_of_str lon1) as [b|]; [|split; reflexivity].
  destruct (py_float float_of_str lat2) as [c|]; [|split; reflexivity].
  destruct (py_float float_of_str lon2) as [d|]; [|split; reflexivity].
  destruct H as [H | [H | [H | H]]]; discriminate H.
Qed.

(** C2 (as the code has it): when a coordinate is not a number, that is
    when [float()] raises on one of the four arguments, the tracker's
    [calculate_haversine_distance] hands back the distance [0.0] and the
    detector's [calculate_distance] hands back [float('inf')]; neither
    raises to its caller. *)
Theorem non_numeric_coordinate_outcomes (lat1 lon1 lat2 lon2 : pyval) :
  py_float float_of_str lat1 = None \/ py_float float_of_str lon1 = None \/
  py_float float_of_str lat2 = None \/ py_float float_of_str lon2 = None ->
  calculate_haversine_distance float_of_str lat1 lon1 lat2 lon2 = 0%R
  /\ calculate_distance float_of_str lat1 lon1 lat2 lon2 = Infinity.
Proof.
  intros H. apply haversine_try_none in H. destruct H as [H1 H2].
  unfold calculate_haversine_distance, calculate_distance.
  rewrite H1, H2. split; reflexivity.
Qed.

End GeoErrors.

Lemma non_numeric_coordinate_outcomes_witness :
  calculate_haversine_distance no_text_number
    (PyStr "north") (PyNum 80.0255) (PyNum 6.9271) (PyNum 79.8612) = 0%R
  /\ calculate_distance no_text_number
       (PyStr "north") (PyNum 80.0255) (PyNum 6.9271) (PyNum 79.8612) = Infinity.
Proof.
  apply (non_numeric_coordinate_outcomes no_text_number
           (PyStr "north") (PyNum 80.0255) (PyNum 6.9271) (PyNum 79.8612)).
  left. reflexivity.
Defined.

(** C2 (as stated) fails: a latitude that is [None] is not a number, and
    the tracker's Haversine function answers with the distance zero. *)
Lemma haversine_silent_zero :
  py_float no_text_number PyNone = None
  /\ calculate_haversine_distance no_text_number
       PyNone (PyNum 80.0255) (PyNum 6.9271) (PyNum 79.8612) = 0%R.
Proof. split; reflexivity. Qed.

(* ------------------------------------------------------------------ *)
(** ** Segment matching *)

Lemma scan_stop_spec (el eo xl xo : Q) (acc : option stop * option stop) (s : stop) :
  scan_stop el eo xl xo acc s
  = (keep_first (fst acc) (if stop_near el eo s then Some s else None),
     keep_first (snd acc) (if stop_near xl xo s then Some s else None)).
Proof.
  unfold scan_stop, stop_near.
  destruct acc as [a b]; simpl.
  destruct (stop_latitude s) as [la|]; [|destruct a, b; reflexivity].
  destruct (stop_longitude s) as [lo|]; [|destruct a, b; reflexivity].
  destruct (Qeq_bool la 0 || Qeq_bool lo 0); simpl.
  - destruct a, b; reflexivity.
  - destruct a, b; reflexivity.
Qed.

Lemma fold_scan_spec (el eo xl xo : Q) (stops : list stop) :
  forall acc,
    fold_left (scan_stop el eo xl xo) stops acc
    = (keep_first (fst acc) (find (stop_near el eo) stops),
       keep_first (snd acc) (find (stop_near xl xo) stops)).
Proof.
  induction stops as [|s t IH]; intros [a b]; simpl.
  - destruct a, b; reflexivity.
  - rewrite IH, scan_stop_spec; simpl.
    destruct a, b, (stop_near el eo s), (stop_near xl xo s); reflexivity.
Qed.

Lemma find_stops_find (el eo xl xo : Q) (stops : list stop) :
  find_stops el eo xl xo stops
  = (find (stop_near el eo) stops, find (stop_near xl xo) stops).
Proof.
  unfold find_stops. rewrite fold_scan_spec. reflexivity.
Qed.

(** C3 (as the code has it): on a route, the entry stop is the first stop
    of the stop list, in list order, that has non-zero coordinates and
    lies within 10 km of the entry point, and the exit stop is the first
    such stop for the exit point. *)
Theorem find_stops_first_within_radius (el eo xl xo : Q) (stops : list stop) :
  find_stops el eo xl xo stops
  = (find (stop_near el eo) stops, find (stop_near xl xo) stops).
Proof.
  exact (find_stops_find el eo xl xo stops).
Qed.

Lemma stop_a_near_b : stop_near 9 80 stop_a = true.
Proof. unfold stop_near; simpl. rewrite near_a_from_b. reflexivity. Qed.

Lemma stop_b_near_b : stop_near 9 80 stop_b = true.
Proof. unfold stop_near; simpl. rewrite within_proximity_same_point. reflexivity. Qed.

(** C3 (as stated) fails: for an entry point standing on stop B, with
    stop A listed first and 5.6 km away, the scan selects stop A although
    stop B is within the radius and strictly nearer. *)
Lemma first_stop_not_nearest :
  fst (find_stops 9 80 9 80 [stop_a; stop_b]) = Some stop_a
  /\ In stop_b [stop_a; stop_b]
  /\ stop_near 9 80 stop_b = true
  /\ (haversine_distance 9 80 9 80 < haversine_distance 9 80 9.05 80)%R.
Proof.
  split; [|split; [|split]].
  - rewrite find_stops_find. simpl.
    rewrite stop_a_near_b. reflexivity.
  - right. left. reflexivity.
  - exact stop_b_near_b.
  - rewrite haversine_distance_same_point.
    rewrite haversine_distance_meridian by (unfold Q2R; simpl; lra).
    rabs_concrete.
    pose proof PI_RGT_0. unfold Q2R; simpl. lra.
Qed.

(** C4: on a candidate route whose detected entry stop and exit stop are
    [e] and [x], the segment match is rejected when the order of [e] is
    not strictly less than the order of [x], and every accepted match has
    strictly increasing stop orders. *)
Theorem segment_match_needs_increasing_order
    (el eo xl xo : Q) (member_valid_routes : list valid_route) (r : bus_route)
    (e x : stop) :
  find_stops el eo xl xo (br_stops r) = (Some e, Some x) ->
  (~ (get_order e < get_order x)%Z ->
   match_route_stops el eo xl xo member_valid_routes r = None)
  /\ (forall info,
        match_route_stops el eo xl xo member_valid_routes r = Some info ->
        (get_order e < get_order x)%Z
        /\ info = RouteStops (br_route_name r) e x (get_order e) (get_order x)).
Proof.
  intros Hfound. unfold match_route_stops.
  destruct (br_stops r) as [|s0 t] eqn:Hstops.
  - unfold find_stops in Hfound. simpl in Hfound. discriminate Hfound.
  - rewrite Hfound. split.
    + intros Hno.
      destruct (get_order e <? get_order x)%Z eqn:Hlt; [|reflexivity].
      apply Z.ltb_lt in Hlt. contradiction.
    + intros info Hacc.
      destruct (get_order e <? get_order x)%Z eqn:Hlt; [|discriminate Hacc].
      apply Z.ltb_lt in Hlt.
      destruct (stops_match_member e x member_valid_routes); [|discriminate Hacc].
      injection Hacc as <-. split; [exact Hlt | reflexivity].
Qed.

Lemma stops_from_c_to_b :
  find_stops 10 80 9 80 (br_stops route_bc) = (Some stop_c, Some stop_b).
Proof.
  rewrite find_stops_find. simpl.
  unfold stop_near; simpl.
  rewrite far_b_from_c, far_c_from_b, !within_proximity_same_point. reflexivity.
Qed.

Lemma segment_match_needs_increasing_order_witness :
  match_route_stops 10 80 9 80 [ticket_c_to_b] route_bc = None.
Proof.
  apply (segment_match_needs_increasing_order 10 80 9 80 [ticket_c_to_b] route_bc
           stops_from_c_to_b).
  unfold get_order, stop_c, stop_b; simpl. lia.
Defined.

(* ------------------------------------------------------------------ *)
(** ** FareCalculator *)

Section FareFacts.

Variable float_of_str : string -> option Q.

Local Open Scope Q_scope.

Lemma Qltb_true (x y : Q) : x < y -> Qltb x y = true.
Proof.
  intros H. unfold Qltb.
  destruct (Qle_bool y x) eqn:E; [|reflexivity].
  apply Qle_bool_iff in E. exfalso. apply (Qlt_not_le _ _ H E).
Qed.

Lemma Qltb_false (x y : Q) : y <= x -> Qltb x y = false.
Proof.
  intros H. unfold Qltb.
  apply Qle_bool_iff in H. rewrite H. reflexivity.
Qed.

Lemma Qltb_lt (x y : Q) : Qltb x y = true -> x < y.
Proof.
  unfold Qltb. intros H.
  destruct (Qle_bool y x) eqn:E; [discriminate H|].
  apply Qnot_le_lt. intros Hle. apply Qle_bool_iff in Hle. congruence.
Qed.

Lemma fare_below_100m (fs : option (list fare_stage)) (d : Q) :
  d < 0.1 -> calculate_fare_try float_of_str fs (PyNum d) = Some 0.
Proof.
  intros H. unfold calculate_fare_try, py_truthy.
  destruct (Qeq_bool d 0); simpl; [reflexivity|].
  destruct (Qle_bool d 0); [reflexivity|].
  rewrite (Qltb_true H). reflexivity.
Qed.

Lemma fare_from_100m (fs : option (list fare_stage)) (d : Q) :
  0.1 <= d ->
  calculate_fare_try float_of_str fs (PyNum d)
  = (docs <- fs ;; lookup_fare float_of_str docs (Qceiling (d / STAGE_DISTANCE))).
Proof.
  intros H. unfold calculate_fare_try, py_truthy.
  assert (Hpos : 0 < d) by (apply Qlt_le_trans with (y := 0.1); [reflexivity | exact H]).
  destruct (Qeq_bool d 0) eqn:E0.
  { apply Qeq_bool_iff in E0. rewrite E0 in Hpos. discriminate Hpos. }
  simpl.
  destruct (Qle_bool d 0) eqn:E1.
  { apply Qle_bool_iff in E1. exfalso. apply (Qlt_not_le _ _ Hpos E1). }
  rewrite (Qltb_false H). reflexivity.
Qed.

(** C6: a distance below 0.1 km costs 0, and any other distance [d] is
    charged what the table gives for stage [ceil(d / 3.5)]: the fare of
    the active stage with that number when there is one.  So 0.05 km is
    free, 3.5 km is charged the fare of stage 1 and 3.51 km the fare of
    stage 2. *)
Theorem fare_by_stage
    (fs : option (list fare_stage)) (docs : list fare_stage) (d : Q) :
  (d < 0.1 -> calculate_fare float_of_str fs (PyNum d) = 0)
  /\ (0.1 <= d ->
      calculate_fare_try float_of_str (Some docs) (PyNum d)
      = lookup_fare float_of_str docs (Qceiling (d / 3.5))
      /\ (forall st,
            find (fun x => (stage_number x =? Qceiling (d / 3.5))%Z && fs_is_active x)
                 docs = Some st ->
            calculate_fare_try float_of_str (Some docs) (PyNum d)
            = py_float float_of_str (fare st))
      /\ (forall st p,
            find (fun x => (stage_number x =? Qceiling (d / 3.5))%Z && fs_is_active x)
                 docs = Some st ->
            py_float float_of_str (fare st) = Some p ->
            calculate_fare float_of_str (Some docs) (PyNum d) = p)
      /\ (forall p,
            lookup_fare float_of_str docs (Qceiling (d / 3.5)) = Some p ->
            calculate_fare float_of_str (Some docs) (PyNum d) = p))
  /\ calculate_fare float_of_str fs (PyNum 0.05) = 0
  /\ Qceiling (3.5 / 3.5) = 1%Z
  /\ Qceiling (3.51 / 3.5) = 2%Z
  /\ (forall st p,
        find (fun x => (stage_number x =? 1)%Z && fs_is_active x) docs = Some st ->
        py_float float_of_str (fare st) = Some p ->
        calculate_fare float_of_str (Some docs) (PyNum 3.5) = p)
  /\ (forall st p,
        find (fun x => (stage_number x =? 2)%Z && fs_is_active x) docs = Some st ->
        py_float float_of_str (fare st) = Some p ->
        calculate_fare float_of_str (Some docs) (PyNum 3.51) = p).
Proof.
  assert (Hfrom : forall d', 0.1 <= d' ->
            calculate_fare_try float_of_str (Some docs) (PyNum d')
            = lookup_fare float_of_str docs (Qceiling (d' / 3.5))).
  { intros d' H. rewrite (fare_from_100m (Some docs) H). reflexivity. }
  assert (Hstage : forall d' st p, 0.1 <= d' ->
            find (fun x => (stage_number x =? Qceiling (d' / 3.5))%Z && fs_is_active x)
                 docs = Some st ->
            py_float float_of_str (fare st) = Some p ->
            calculate_fare float_of_str (Some docs) (PyNum d') = p).
  { intros d' st p H Hst Hp. unfold calculate_fare. rewrite (Hfrom d' H).
    unfold lookup_fare. rewrite Hst, Hp. reflexivity. }
  split; [|split; [|split; [|split; [|split; [|split]]]]].
  - intros H. unfold calculate_fare. rewrite (fare_below_100m fs H). reflexivity.
  - intros H. split; [exact (Hfrom d H)|]. split; [|split].
    + intros st Hst. rewrite (Hfrom d H). unfold lookup_fare. rewrite Hst. reflexivity.
    + intros st p Hst Hp. exact (Hstage d st p H Hst Hp).
    + intros p Hp. unfold calculate_fare. rewrite (Hfrom d H), Hp. reflexivity.
  - unfold calculate_fare. rewrite fare_below_100m; reflexivity.
  - reflexivity.
  - reflexivity.
  - intros st p Hst Hp. apply (Hstage 3.5 st p); [discriminate | exact Hst | exact Hp].
  - intros st p Hst Hp. apply (Hstage 3.51 st p); [discriminate | exact Hst | exact Hp].
Qed.

End FareFacts.

Lemma fare_by_stage_witness :
  calculate_fare no_text_number (Some fare_table) (PyNum 0.05) = 0
  /\ calculate_fare no_text_number (Some fare_table) (PyNum 3.5) = 30
  /\ calculate_fare no_text_number (Some fare_table) (PyNum 3.51) = 40.
Proof.
  destruct (fare_by_stage no_text_number (Some fare_table) fare_table 0.05)
    as (Hfree & _ & _ & _ & _ & Hone & Htwo).
  split; [|split].
  - apply Hfree. reflexivity.
  - apply (Hone {| stage_number := 1; fare := PyNum 30; fs_is_active := true |});
      reflexivity.
  - apply (Htwo {| stage_number := 2; fare := PyNum 40; fs_is_active := true |});
      reflexivity.
Defined.

Section FareOrder.

Variable float_of_str : string -> option Q.

Local Open Scope Q_scope.

Lemma lowest_stage_spec (l : list fare_stage) :
  forall p, lowest_stage l = Some p ->
    In p l /\ forall a, In a l -> (stage_number p <= stage_number a)%Z.
Proof.
  induction l as [|x t IH]; intros p H; simpl in H; [discriminate H|].
  destruct (lowest_stage t) as [y|] eqn:E.
  - destruct (IH y eq_refl) as [Hin Hmin].
    destruct (stage_number y <? stage_number x)%Z eqn:C; injection H as <-.
    + apply Z.ltb_lt in C. split; [right; exact Hin|].
      intros a [<- | Ha]; [lia | apply Hmin; exact Ha].
    + apply Z.ltb_ge in C. split; [left; reflexivity|].
      intros a [<- | Ha]; [lia | specialize (Hmin a Ha); lia].
  - injection H as <-. split; [left; reflexivity|].
    destruct t; [|simpl in E; destruct (lowest_stage t); [destruct (_ <? _)%Z|]; discriminate E].
    intros a [<- | []]. lia.
Qed.

Lemma lowest_stage_none (l : list fare_stage) : lowest_stage l = None -> l = [].
Proof.
  destruct l as [|x t]; [reflexivity|]. simpl.
  destruct (lowest_stage t); [destruct (_ <? _)%Z|]; discriminate.
Qed.

Lemma highest_stage_spec (l : list fare_stage) :
  forall p, highest_stage l = Some p ->
    In p l /\ forall a, In a l -> (stage_number a <= stage_number p)%Z.
Proof.
  induction l as [|x t IH]; intros p H; simpl in H; [discriminate H|].
  destruct (highest_stage t) as [y|] eqn:E.
  - destruct (IH y eq_refl) as [Hin Hmax].
    destruct (stage_number x <? stage_number y)%Z eqn:C; injection H as <-.
    + apply Z.ltb_lt in C. split; [right; exact Hin|].
      intros a [<- | Ha]; [lia | apply Hmax; exact Ha].
    + apply Z.ltb_ge in C. split; [left; reflexivity|].
      intros a [<- | Ha]; [lia | specialize (Hmax a Ha); lia].
  - injection H as <-. split; [left; reflexivity|].
    destruct t; [|simpl in E; destruct (highest_stage t); [destruct (_ <? _)%Z|]; discriminate E].
    intros a [<- | []]. lia.
Qed.

Lemma highest_stage_none (l : list fare_stage) : highest_stage l = None -> l = [].
Proof.
  destruct l as [|x t]; [reflexivity|]. simpl.
  destruct (highest_stage t); [destruct (_ <? _)%Z|]; discriminate.
Qed.

(** The document that [calculate_fare] reads for a stage: the active
    stage of least number at or above it, else the active stage of
    greatest number; the hardcoded fare when no stage is active. *)
Lemma lookup_fare_cases (docs : list fare_stage) (stage : Z) :
  (exists p,
      In p docs /\ fs_is_active p = true
      /\ lookup_fare float_of_str docs stage = py_float float_of_str (fare p)
      /\ (((stage <= stage_number p)%Z
           /\ forall a, In a docs -> fs_is_active a = true ->
                        (stage <= stage_number a)%Z ->
                        (stage_number p <= stage_number a)%Z)
          \/ ((forall a, In a docs -> fs_is_active a = true ->
                         (stage_number a < stage)%Z)
              /\ forall a, In a docs -> fs_is_active a = true ->
                           (stage_number a <= stage_number p)%Z)))
  \/ ((forall a, In a docs -> fs_is_active a = true -> False)
      /\ lookup_fare float_of_str docs stage = Some (fallback_fare stage)).
Proof.
  unfold lookup_fare.
  destruct (find _ docs) as [p|] eqn:Hfind.
  - apply find_some in Hfind. destruct Hfind as [Hin Hp].
    apply andb_true_iff in Hp. destruct Hp as [Hn Ha]. apply Z.eqb_eq in Hn.
    left. exists p. repeat split; try assumption.
    left. split; [lia|]. intros a _ _ Hle. lia.
  - destruct (lowest_stage _) as [p|] eqn:Hlow.
    + apply lowest_stage_spec in Hlow. destruct Hlow as [Hin Hmin].
      apply filter_In in Hin. destruct Hin as [Hin Hp].
      apply andb_true_iff in Hp. destruct Hp as [Hn Ha]. apply Z.leb_le in Hn.
      left. exists p. repeat split; try assumption.
      left. split; [exact Hn|]. intros a Hia Haa Hle.
      apply Hmin. apply filter_In. split; [exact Hia|].
      apply andb_true_iff. split; [apply Z.leb_le; exact Hle | exact Haa].
    + apply lowest_stage_none in Hlow.
      assert (Hbelow : forall a, In a docs -> fs_is_active a = true ->
                                 (stage_number a < stage)%Z).
      { intros a Hia Haa.
        destruct (Z_lt_le_dec (stage_number a) stage) as [Hlt | Hge]; [exact Hlt|].
        exfalso.
        assert (Hf : In a (filter (fun fs => (stage <=? stage_number fs)%Z
                                              && fs_is_active fs) docs)).
        { apply filter_In. split; [exact Hia|].
          apply andb_true_iff. split; [apply Z.leb_le; exact Hge | exact Haa]. }
        rewrite Hlow in Hf. exact Hf. }
      destruct (highest_stage _) as [p|] eqn:Hhigh.
      * apply highest_stage_spec in Hhigh. destruct Hhigh as [Hin Hmax].
        apply filter_In in Hin. destruct Hin as [Hin Ha].
        left. exists p. repeat split; try assumption.
        right. split; [exact Hbelow|]. intros a Hia Haa.
        apply Hmax. apply filter_In. split; assumption.
      * apply highest_stage_none in Hhigh.
        right. split; [|reflexivity].
        intros a Hia Haa.
        assert (Hf : In a (filter fs_is_active docs))
          by (apply filter_In; split; assumption).
        rewrite Hhigh in Hf. exact Hf.
Qed.

Lemma fallback_fare_eq (stage : Z) :
  fallback_fare stage == 30 + inject_Z (stage - 1) * 10.
Proof.
  unfold fallback_fare.
  destruct (stage =? 1)%Z eqn:E; [|reflexivity].
  apply Z.eqb_eq in E. subst stage. reflexivity.
Qed.

Lemma fallback_fare_monotone (s1 s2 : Z) :
  (1 <= s1 <= s2)%Z ->
  0 <= fallback_fare s1 /\ fallback_fare s1 <= fallback_fare s2.
Proof.
  intros [H1 H2].
  rewrite !fallback_fare_eq.
  assert (Ha : inject_Z 0 <= inject_Z (s1 - 1)) by (rewrite <- Zle_Qle; lia).
  assert (Hb : inject_Z (s1 - 1) <= inject_Z (s2 - 1)) by (rewrite <- Zle_Qle; lia).
  change (inject_Z 0) with 0 in Ha.
  split; lra.
Qed.

Lemma lookup_fare_monotone (docs : list fare_stage) (s1 s2 : Z) :
  monotone_table float_of_str docs ->
  (1 <= s1 <= s2)%Z ->
  exists q1 q2,
    lookup_fare float_of_str docs s1 = Some q1
    /\ lookup_fare float_of_str docs s2 = Some q2
    /\ 0 <= q1 /\ q1 <= q2.
Proof.
  intros [Hnum Hmono] Hs.
  destruct (lookup_fare_cases docs s1) as [[p1 (Hin1 & Ha1 & Hl1 & Hc1)] | [Hno1 Hl1]];
  destruct (lookup_fare_cases docs s2) as [[p2 (Hin2 & Ha2 & Hl2 & Hc2)] | [Hno2 Hl2]].
  - destruct (Hnum p1 Hin1 Ha1) as [q1 [Hq1 Hpos1]].
    destruct (Hnum p2 Hin2 Ha2) as [q2 [Hq2 _]].
    exists q1, q2. rewrite Hl1, Hl2. repeat split; try assumption.
    apply (Hmono p1 p2); try assumption.
    destruct Hc2 as [[Hge2 Hmin2] | [Hlt2 Hmax2]].
    + destruct Hc1 as [[Hge1 Hmin1] | [Hlt1 Hmax1]].
      * apply Hmin1; [exact Hin2 | exact Ha2 | lia].
      * specialize (Hlt1 p2 Hin2 Ha2). lia.
    + apply Hmax2; assumption.
  - exfalso. exact (Hno2 p1 Hin1 Ha1).
  - exfalso. exact (Hno1 p2 Hin2 Ha2).
  - exists (fallback_fare s1), (fallback_fare s2).
    destruct (fallback_fare_monotone Hs) as [Hp Hm].
    repeat split; assumption.
Qed.

Lemma stage_positive (d : Q) : 0.1 <= d -> (1 <= Qceiling (d / STAGE_DISTANCE))%Z.
Proof.
  intros H.
  assert (Hpos : 0 < d / STAGE_DISTANCE).
  { apply Qlt_shift_div_l; [reflexivity|].
    apply Qlt_le_trans with (y := 0.1); [reflexivity | exact H]. }
  pose proof (Qle_ceiling (d / STAGE_DISTANCE)) as Hc.
  destruct (Z_lt_le_dec 0 (Qceiling (d / STAGE_DISTANCE))) as [Hlt | Hle]; [lia|].
  exfalso.
  assert (Hz : inject_Z (Qceiling (d / STAGE_DISTANCE)) <= inject_Z 0)
    by (rewrite <- Zle_Qle; exact Hle).
  change (inject_Z 0) with 0 in Hz.
  apply (Qlt_not_le _ _ Hpos). apply Qle_trans with (y := inject_Z (Qceiling (d / STAGE_DISTANCE))); assumption.
Qed.

Lemma stage_monotone (d1 d2 : Q) :
  d1 <= d2 ->
  (Qceiling (d1 / STAGE_DISTANCE) <= Qceiling (d2 / STAGE_DISTANCE))%Z.
Proof.
  intros H. apply Qceiling_resp_le.
  unfold Qdiv. apply Qmult_le_compat_r; [exact H|].
  unfold Qle; simpl; lia.
Qed.

(** C7 (as the code has it): on a fare table whose active fares are
    numbers, are not negative and do not decrease with the stage number,
    the fare does not decrease with the distance; the empty table, for
    which the hardcoded fare of 30 plus 10 per further stage is used, is
    such a table. *)
Theorem fare_monotone_on_monotone_table (docs : list fare_stage) (d1 d2 : Q) :
  monotone_table float_of_str docs ->
  d1 <= d2 ->
  calculate_fare float_of_str (Some docs) (PyNum d1)
  <= calculate_fare float_of_str (Some docs) (PyNum d2)
  /\ calculate_fare float_of_str (Some []) (PyNum d1)
     <= calculate_fare float_of_str (Some []) (PyNum d2).
Proof.
  assert (Hgen : forall table, monotone_table float_of_str table -> d1 <= d2 ->
            calculate_fare float_of_str (Some table) (PyNum d1)
            <= calculate_fare float_of_str (Some table) (PyNum d2)).
  { intros table Hm Hd. unfold calculate_fare.
    destruct (Qlt_le_dec d1 0.1) as [Hlow1 | Hhigh1].
    - rewrite (fare_below_100m float_of_str (Some table) Hlow1).
      destruct (Qlt_le_dec d2 0.1) as [Hlow2 | Hhigh2].
      + rewrite (fare_below_100m float_of_str (Some table) Hlow2). apply Qle_refl.
      + rewrite (fare_from_100m float_of_str (Some table) Hhigh2). simpl.
        pose proof (stage_positive Hhigh2) as Hs.
        destruct (@lookup_fare_monotone table _ _ Hm (conj Hs (Z.le_refl _)))
          as (q1 & q2 & H1 & H2 & Hp & _).
        rewrite H1. exact Hp.
    - assert (Hhigh2 : 0.1 <= d2) by (apply Qle_trans with (y := d1); assumption).
      rewrite (fare_from_100m float_of_str (Some table) Hhigh1).
      rewrite (fare_from_100m float_of_str (Some table) Hhigh2). simpl.
      pose proof (stage_positive Hhigh1) as Hs.
      pose proof (stage_monotone Hd) as Hle.
      destruct (@lookup_fare_monotone table _ _ Hm (conj Hs Hle))
        as (q1 & q2 & H1 & H2 & _ & Hq).
      rewrite H1, H2. exact Hq. }
  intros Hm Hd. split.
  - apply Hgen; assumption.
  - apply Hgen; [|exact Hd].
    split; intros a; intros; contradiction.
Qed.

End FareOrder.

Lemma fare_table_monotone : monotone_table no_text_number fare_table.
Proof.
  split.
  - intros a Ha _. simpl in Ha.
    destruct Ha as [<- | [<- | [<- | []]]]; simpl;
      eexists; (split; [reflexivity | unfold Qle; simpl; lia]).
  - intros a b qa qb Ha Hb _ _ Hle Hqa Hqb. simpl in Ha, Hb.
    destruct Ha as [<- | [<- | [<- | []]]];
    destruct Hb as [<- | [<- | [<- | []]]];
    simpl in *; injection Hqa as <-; injection Hqb as <-;
    unfold Qle; simpl; lia.
Qed.

Lemma fare_monotone_on_monotone_table_witness :
  calculate_fare no_text_number (Some fare_table) (PyNum 2)
  <= calculate_fare no_text_number (Some fare_table) (PyNum 8)
  /\ calculate_fare no_text_number (Some []) (PyNum 2)
     <= calculate_fare no_text_number (Some []) (PyNum 8).
Proof.
  apply (@fare_monotone_on_monotone_table no_text_number fare_table 2 8).
  - exact fare_table_monotone.
  - unfold Qle; simpl; lia.
Defined.

(** C7 (as stated) fails: on a table whose stage 2 is cheaper than its
    stage 1, a journey of 1 km costs 50 and a journey of 5 km costs 20. *)
Lemma fare_not_monotone_on_falling_table :
  1 <= 5
  /\ calculate_fare no_text_number (Some falling_table) (PyNum 1) = 50
  /\ calculate_fare no_text_number (Some falling_table) (PyNum 5) = 20
  /\ ~ (calculate_fare no_text_number (Some falling_table) (PyNum 1)
        <= calculate_fare no_text_number (Some falling_table) (PyNum 5)).
Proof.
  split; [unfold Qle; simpl; lia|].
  split; [reflexivity|]. split; [reflexivity|].
  intros H. vm_compute in H. apply H. reflexivity.
Qed.

(* ------------------------------------------------------------------ *)
(** ** TripLedger: matching an exit *)

Section Matching.

Variable float_of_str : string -> option Q.
Variable cosine_similarity : embedding -> embedding -> option Q.
Variable calculate_road_distance : Q -> Q -> Q -> Q -> option distance_info.
Variable reverse_geocode : Q -> Q -> option string.

Lemma match_loop_no_match (emb : embedding) (l : list temp_entry) :
  forall acc b',
    fold_try (match_step cosine_similarity emb) l acc = Some (None, b') ->
    fst acc = None /\ b' = snd acc.
Proof.
  induction l as [|e t IH]; intros acc b' H; simpl in H.
  - injection H as Hacc. subst acc. split; reflexivity.
  - unfold bind in H.
    destruct (match_step cosine_similarity emb acc e) as [acc'|] eqn:Hs;
      [|discriminate H].
    destruct (IH _ _ H) as [Hnone Hb].
    unfold match_step in Hs.
    destruct (te_face_embedding e) as [|q0 qs].
    + injection Hs as <-. split; assumption.
    + unfold bind in Hs.
      destruct (cosine_similarity emb (q0 :: qs)) as [sim|]; [|discriminate Hs].
      destruct (Qltb (snd acc) sim && Qltb similarity_threshold sim);
        injection Hs as <-.
      * discriminate Hnone.
      * split; assumption.
Qed.

Lemma match_loop_member (emb : embedding) (l : list temp_entry) :
  forall acc E b,
    fold_try (match_step cosine_similarity emb) l acc = Some (Some E, b) ->
    fst acc = Some E \/ In E l.
Proof.
  induction l as [|e t IH]; intros acc E b H; simpl in H.
  - injection H as Hacc. subst acc. left. reflexivity.
  - unfold bind in H.
    destruct (match_step cosine_similarity emb acc e) as [acc'|] eqn:Hs;
      [|discriminate H].
    destruct (IH _ _ _ H) as [Hacc | Hin]; [|right; right; exact Hin].
    unfold match_step in Hs.
    destruct (te_face_embedding e).
    + injection Hs as <-. left. exact Hacc.
    + unfold bind in Hs.
      destruct (cosine_similarity emb _); [|discriminate Hs].
      destruct (Qltb (snd acc) q0 && Qltb similarity_threshold q0);
        injection Hs as <-.
      * simpl in Hacc. injection Hacc as <-. right. left. reflexivity.
      * left. exact Hacc.
Qed.

(** On no match the similarity handed back is the initial [0.0]: the
    running best is only ever replaced together with the match. *)
Lemma no_match_similarity_zero (exit_log : face_log) (now : Z) (s : tracker) (b : Q) :
  search_entries cosine_similarity exit_log now s = NoMatch b -> b = 0.
Proof.
  unfold search_entries, best_match_of. intros H.
  destruct (log_face_embedding exit_log) as [|q0 qs]; [discriminate H|].
  destruct (current_trip s) as [ct|]; [|discriminate H].
  destruct (ct_status ct); [|discriminate H].
  destruct (entries_list now ct s) as [|e0 es]; [discriminate H|].
  destruct (fold_try _ _ _) as [[[E|] c]|] eqn:Hf; try discriminate H.
  injection H as <-. exact (proj2 (match_loop_no_match _ _ _ Hf)).
Qed.

Lemma insert_desc_in (e x : temp_entry) (l : list temp_entry) :
  In x (insert_desc e l) -> x = e \/ In x l.
Proof.
  induction l as [|y t IH]; simpl.
  - intros [<- | []]. left. reflexivity.
  - destruct (te_entry_timestamp y <=? te_entry_timestamp e)%Z; simpl.
    + intros [<- | H]; [left; reflexivity | right; exact H].
    + intros [<- | H]; [right; left; reflexivity|].
      destruct (IH H) as [-> | Hin]; [left; reflexivity | right; right; exact Hin].
Qed.

Lemma sort_desc_in (x : temp_entry) (l : list temp_entry) :
  In x (sort_desc l) -> In x l.
Proof.
  induction l as [|e t IH]; simpl; [tauto|].
  intros H. apply insert_desc_in in H.
  destruct H as [-> | H]; [left; reflexivity | right; exact (IH H)].
Qed.

Lemma entries_list_in (now : Z) (ct : current_trip_info) (s : tracker) (x : temp_entry) :
  In x (entries_list now ct s) -> In x (temp_entries s).
Proof.
  unfold entries_list. intros H. apply sort_desc_in in H.
  apply filter_In in H. exact (proj1 H).
Qed.

Lemma search_match_in (exit_log : face_log) (now : Z) (s : tracker)
    (ct : current_trip_info) (E : temp_entry) (sim : Q) :
  search_entries cosine_similarity exit_log now s = Match ct E sim ->
  In E (temp_entries s) /\ current_trip s = Some ct.
Proof.
  unfold search_entries, best_match_of. intros H.
  destruct (log_face_embedding exit_log) as [|q0 qs]; [discriminate H|].
  destruct (current_trip s) as [ct0|]; [|discriminate H].
  destruct (ct_status ct0); [|discriminate H].
  destruct (entries_list now ct0 s) as [|e0 es] eqn:Hl; [discriminate H|].
  destruct (fold_try _ _ _) as [[[E0|] c]|] eqn:Hf; try discriminate H.
  injection H as <- <- <-.
  apply match_loop_member in Hf. simpl in Hf.
  destruct Hf as [Hf | Hf]; [discriminate Hf|].
  split; [|reflexivity].
  apply (entries_list_in now ct0). rewrite Hl. exact Hf.
Qed.

Lemma delete_one_id_gone (l : list temp_entry) (k : nat) :
  NoDup (map te_id l) ->
  forall e, In e (delete_one (fun x => Nat.eqb (te_id x) k) l) -> te_id e <> k.
Proof.
  induction l as [|x t IH]; simpl; intros Hnd e He; [contradiction|].
  inversion Hnd as [|? ? Hnotin Hnd']; subst.
  destruct (Nat.eqb (te_id x) k) eqn:Hk.
  - apply Nat.eqb_eq in Hk. intros Heq. apply Hnotin.
    rewrite Hk, <- Heq. apply in_map. exact He.
  - destruct He as [<- | He].
    + apply Nat.eqb_neq. exact Hk.
    + exact (IH Hnd' e He).
Qed.

Lemma find_matching_entry_match (exit_log : face_log) (now : Z) (s : tracker)
    (ct : current_trip_info) (E : temp_entry) (sim : Q) :
  search_entries cosine_similarity exit_log now s = Match ct E sim ->
  find_matching_entry float_of_str cosine_similarity calculate_road_distance
    reverse_geocode exit_log now s
  = (fst (finalize_journey float_of_str cosine_similarity calculate_road_distance
            reverse_geocode exit_log now ct E sim s),
     Some (snd (finalize_journey float_of_str cosine_similarity calculate_road_distance
                  reverse_geocode exit_log now ct E sim s)),
     sim).
Proof.
  intros H. unfold find_matching_entry. rewrite H. reflexivity.
Qed.

Lemma finalize_journey_temp_entries (exit_log : face_log) (now : Z)
    (ct : current_trip_info) (E : temp_entry) (sim : Q) (s : tracker) :
  temp_entries (fst (finalize_journey float_of_str cosine_similarity
                       calculate_road_distance reverse_geocode exit_log now ct E sim s))
  = delete_one (fun e => Nat.eqb (te_id e) (te_id E)) (temp_entries s).
Proof. reflexivity. Qed.

Lemma finalize_journey_recorded (exit_log : face_log) (now : Z)
    (ct : current_trip_info) (E : temp_entry) (sim : Q) (s : tracker) :
  final_passengers (fst (finalize_journey float_of_str cosine_similarity
                           calculate_road_distance reverse_geocode exit_log now ct E sim s))
  = final_passengers s
    ++ [snd (finalize_journey float_of_str cosine_similarity
               calculate_road_distance reverse_geocode exit_log now ct E sim s)].
Proof. reflexivity. Qed.

(** C9: when an exit log matches the open entry [E], the journey is
    recorded and [E] leaves the buffer; no later exit log, whatever its
    embedding, can match an entry with the [_id] of [E] again.  The
    [_id]s of the buffer are distinct, as in any collection. *)
Theorem consumed_entry_not_matched_again
    (exit_log : face_log) (now : Z) (s : tracker)
    (ct : current_trip_info) (E : temp_entry) (sim : Q) :
  NoDup (map te_id (temp_entries s)) ->
  search_entries cosine_similarity exit_log now s = Match ct E sim ->
  let res :=
    find_matching_entry float_of_str cosine_similarity calculate_road_distance
      reverse_geocode exit_log now s in
  let s' := fst (fst res) in
  In E (temp_entries s)
  /\ (exists journey,
        snd (fst res) = Some journey /\ In journey (final_passengers s'))
  /\ (forall e, In e (temp_entries s') -> te_id e <> te_id E)
  /\ (forall exit_log' now' ct' E' sim',
        search_entries cosine_similarity exit_log' now' s' = Match ct' E' sim' ->
        te_id E' <> te_id E).
Proof.
  intros Hnd Hs res s'.
  assert (Hres : res
            = (fst (finalize_journey float_of_str cosine_similarity
                      calculate_road_distance reverse_geocode exit_log now ct E sim s),
               Some (snd (finalize_journey float_of_str cosine_similarity
                            calculate_road_distance reverse_geocode exit_log now ct E sim s)),
               sim))
    by exact (find_matching_entry_match _ _ _ Hs).
  assert (Hstate : s'
            = fst (finalize_journey float_of_str cosine_similarity
                     calculate_road_distance reverse_geocode exit_log now ct E sim s))
    by (unfold s'; rewrite Hres; reflexivity).
  assert (Hgone : forall e, In e (temp_entries s') -> te_id e <> te_id E).
  { intros e He. rewrite Hstate, finalize_journey_temp_entries in He.
    exact (delete_one_id_gone _ Hnd e He). }
  split; [exact (proj1 (search_match_in _ _ _ Hs))|].
  split.
  - rewrite Hres, Hstate.
    eexists. split; [reflexivity|].
    rewrite finalize_journey_recorded. apply in_or_app. right. left. reflexivity.
  - split; [exact Hgone|].
    intros exit_log' now' ct' E' sim' Hs'.
    apply Hgone. exact (proj1 (search_match_in _ _ _ Hs')).
Qed.

End Matching.

Lemma one_on_board_ids : NoDup (map te_id (temp_entries one_on_board)).
Proof. vm_compute. repeat constructor. intros []. Qed.

Lemma consumed_entry_not_matched_again_witness :
  temp_entries after_exit_same = []
  /\ (forall exit_log' now' ct' E' sim',
        search_entries rational_cosine exit_log' now' after_exit_same
        = Match ct' E' sim' ->
        te_id E' <> 1%nat).
Proof.
  split; [reflexivity|].
  destruct (search_entries rational_cosine exit_same (t0 + 600) one_on_board)
    as [| b | ct E sim] eqn:Hs; [vm_compute in Hs; discriminate Hs ..|].
  pose proof (@consumed_entry_not_matched_again no_text_number rational_cosine
                no_road_distance no_geocoder exit_same (t0 + 600) one_on_board
                ct E sim one_on_board_ids Hs) as H.
  cbv zeta in H. destruct H as (_ & _ & _ & H).
  vm_compute in Hs. injection Hs as _ HE _. subst E.
  exact H.
Defined.

(** C1 (at the failing input): one passenger is on board and the face of
    the exit log is at cosine 1/2 of that passenger's, below the threshold
    0.7.  The
    exit is stored as unmatched with [best_similarity_found] equal to 0,
    not to the greatest similarity observed, 1/2. *)
Theorem unmatched_exit_records_zero_similarity :
  map te_face_embedding (temp_entries one_on_board) = [[1; 1; 1; 1]]
  /\ rational_cosine (log_face_embedding exit_half) [1; 1; 1; 1] = Some (1 # 2)
  /\ Qltb similarity_threshold (1 # 2) = false
  /\ snd (process_face_log no_text_number rational_cosine no_road_distance
            no_geocoder exit_half (t0 + 600) one_on_board)
     = UnmatchedExit 0 true
  /\ map best_similarity_found
       (unmatched_passengers
          (fst (process_face_log no_text_number rational_cosine no_road_distance
                  no_geocoder exit_half (t0 + 600) one_on_board)))
     = [0].
Proof.
  repeat split; vm_compute; reflexivity.
Qed.

(* ------------------------------------------------------------------ *)
(** ** TripLedger: the price of a matched journey *)

Section Pricing.

Variable float_of_str : string -> option Q.
Variable cosine_similarity : embedding -> embedding -> option Q.
Variable calculate_road_distance : Q -> Q -> Q -> Q -> option distance_info.
Variable reverse_geocode : Q -> Q -> option string.

Lemma route_valid_without_routes (s : tracker) (m : member)
    (entry_location exit_location : location) :
  valid_routes m = None \/ valid_routes m = Some [] ->
  is_route_valid_for_season_ticket float_of_str s m entry_location exit_location
  = (true, NoDetail).
Proof.
  intros [H | H]; unfold is_route_valid_for_season_ticket; rewrite H; reflexivity.
Qed.

(** C5: for a member whose list of valid routes is empty (or absent) the
    route validation accepts any entry and exit location; a journey
    matched for an exit log in which that member is recognised is
    recorded with [is_season_ticket] true and price 0. *)
Theorem unrestricted_season_ticket_is_exempt
    (exit_log : face_log) (now : Z) (s : tracker)
    (ct : current_trip_info) (E : temp_entry) (sim : Q) (m : member) :
  search_entries cosine_similarity exit_log now s = Match ct E sim ->
  fst (check_season_ticket_member cosine_similarity
         (log_face_embedding exit_log) now s) = Some m ->
  valid_routes m = None \/ valid_routes m = Some [] ->
  (forall entry_location exit_location,
     is_route_valid_for_season_ticket float_of_str s m entry_location exit_location
     = (true, NoDetail))
  /\ exists journey,
       snd (fst (find_matching_entry float_of_str cosine_similarity
                   calculate_road_distance reverse_geocode exit_log now s))
       = Some journey
       /\ is_season_ticket journey = true
       /\ price journey = 0
       /\ In journey
            (final_passengers
               (fst (fst (find_matching_entry float_of_str cosine_similarity
                            calculate_road_distance reverse_geocode exit_log now s)))).
Proof.
  intros Hs Hm Hv.
  split.
  - intros entry_location exit_location.
    apply route_valid_without_routes. exact Hv.
  - rewrite (find_matching_entry_match float_of_str cosine_similarity
               calculate_road_distance reverse_geocode _ _ _ Hs).
    eexists. split; [reflexivity|].
    split; [|split].
    + unfold finalize_journey. cbn [snd is_season_ticket].
      rewrite Hm. rewrite (route_valid_without_routes s _ _ _ Hv). reflexivity.
    + unfold finalize_journey. cbn [snd price].
      rewrite Hm. rewrite (route_valid_without_routes s _ _ _ Hv). reflexivity.
    + cbn [fst]. rewrite finalize_journey_recorded.
      apply in_or_app. right. left. reflexivity.
Qed.

Lemma text_distance_raises (fs : option (list fare_stage)) (text : string) :
  text <> EmptyString ->
  calculate_fare_try float_of_str fs (PyStr text) = None.
Proof.
  intros H. unfold calculate_fare_try, py_truthy.
  destruct (String.eqb text EmptyString) eqn:E.
  - apply String.eqb_eq in E. contradiction.
  - reflexivity.
Qed.

Lemma unreachable_table_raises (km : Q) :
  (0.1 <= km)%Q ->
  calculate_fare_try float_of_str None (PyNum km) = None.
Proof.
  intros H. rewrite (fare_from_100m float_of_str None H). reflexivity.
Qed.

Lemma finalize_price_cases (exit_log : face_log) (now : Z)
    (ct : current_trip_info) (E : temp_entry) (sim : Q) (s : tracker) :
  let journey :=
    snd (finalize_journey float_of_str cosine_similarity calculate_road_distance
           reverse_geocode exit_log now ct E sim s) in
  price journey = 0
  \/ price journey
     = calculate_fare float_of_str (fare_stages s)
         (PyNum (journey_distance calculate_road_distance exit_log E)).
Proof.
  unfold finalize_journey. cbn [snd price].
  destruct (fst (check_season_ticket_member cosine_similarity
                   (log_face_embedding exit_log) now s)) as [m|].
  - destruct (fst (is_route_valid_for_season_ticket float_of_str s m _ _)).
    + left. reflexivity.
    + right. reflexivity.
  - right. reflexivity.
Qed.

(** C10: when the body of [calculate_fare] raises, as it does for a
    distance that is a text and for a fare table whose lookup raises,
    [calculate_fare] answers 0; a journey matched while the fare
    computation raises is still recorded, at price 0. *)
Theorem fare_error_gives_free_journey
    (exit_log : face_log) (now : Z) (s : tracker)
    (ct : current_trip_info) (E : temp_entry) (sim : Q) :
  search_entries cosine_similarity exit_log now s = Match ct E sim ->
  calculate_fare_try float_of_str (fare_stages s)
    (PyNum (journey_distance calculate_road_distance exit_log E)) = None ->
  (forall fs d, calculate_fare_try float_of_str fs d = None ->
                calculate_fare float_of_str fs d = 0)
  /\ (forall fs text, text <> EmptyString ->
                      calculate_fare float_of_str fs (PyStr text) = 0)
  /\ (forall km, (0.1 <= km)%Q ->
                 calculate_fare float_of_str None (PyNum km) = 0)
  /\ exists journey,
       snd (fst (find_matching_entry float_of_str cosine_similarity
                   calculate_road_distance reverse_geocode exit_log now s))
       = Some journey
       /\ price journey = 0
       /\ In journey
            (final_passengers
               (fst (fst (find_matching_entry float_of_str cosine_similarity
                            calculate_road_distance reverse_geocode exit_log now s)))).
Proof.
  intros Hs Hraise.
  assert (Hzero : forall fs d, calculate_fare_try float_of_str fs d = None ->
                               calculate_fare float_of_str fs d = 0).
  { intros fs d H. unfold calculate_fare. rewrite H. reflexivity. }
  split; [exact Hzero|].
  split; [intros fs text H; apply Hzero, text_distance_raises; exact H|].
  split; [intros km H; apply Hzero, unreachable_table_raises; exact H|].
  rewrite (find_matching_entry_match float_of_str cosine_similarity
             calculate_road_distance reverse_geocode _ _ _ Hs).
  eexists. split; [reflexivity|].
  split.
  - destruct (finalize_price_cases exit_log now ct E sim s) as [H | H];
      [exact H|].
    cbv zeta in H. rewrite H. apply Hzero. exact Hraise.
  - cbn [fst]. rewrite finalize_journey_recorded.
    apply in_or_app. right. left. reflexivity.
Qed.

End Pricing.

Lemma unrestricted_season_ticket_is_exempt_witness :
  exists journey,
    snd (fst (find_matching_entry no_text_number rational_cosine
                (road_distance_of 12) no_geocoder exit_same (t0 + 600)
                member_on_board))
    = Some journey
    /\ is_season_ticket journey = true
    /\ price journey = 0.
Proof.
  destruct (search_entries rational_cosine exit_same (t0 + 600) member_on_board)
    as [| b | ct E sim] eqn:Hs; [vm_compute in Hs; discriminate Hs ..|].
  destruct (@unrestricted_season_ticket_is_exempt no_text_number rational_cosine
              (road_distance_of 12) no_geocoder exit_same (t0 + 600) member_on_board
              ct E sim unrestricted_member Hs)
    as [_ (journey & Hj & Hseason & Hprice & _)].
  - vm_compute. reflexivity.
  - right. reflexivity.
  - exists journey. repeat split; assumption.
Defined.

Lemma fare_error_gives_free_journey_witness :
  exists journey,
    snd (fst (find_matching_entry no_text_number rational_cosine
                (road_distance_of 12) no_geocoder exit_same (t0 + 600)
                fares_unreachable))
    = Some journey
    /\ price journey = 0.
Proof.
  destruct (search_entries rational_cosine exit_same (t0 + 600) fares_unreachable)
    as [| b | ct E sim] eqn:Hs; [vm_compute in Hs; discriminate Hs ..|].
  destruct (@fare_error_gives_free_journey no_text_number rational_cosine
              (road_distance_of 12) no_geocoder exit_same (t0 + 600) fares_unreachable
              ct E sim Hs)
    as (_ & _ & _ & journey & Hj & Hprice & _).
  - vm_compute. reflexivity.
  - exists journey. split; assumption.
Defined.

(* ------------------------------------------------------------------ *)
(** ** TripLedger: starting and ending trips *)

Section Trips.

Lemma update_one_ids (k : nat) (f : trip_session -> trip_session)
    (l : list trip_session) :
  (forall ts, ts_id (f ts) = ts_id ts) ->
  map ts_id (update_one (fun ts => Nat.eqb (ts_id ts) k) f l) = map ts_id l.
Proof.
  intros Hf. induction l as [|x t IH]; simpl; [reflexivity|].
  destruct (Nat.eqb (ts_id x) k); simpl; [rewrite Hf | rewrite IH]; reflexivity.
Qed.

Lemma update_one_in (k : nat) (f : trip_session -> trip_session)
    (l : list trip_session) (y : trip_session) :
  In y (update_one (fun ts => Nat.eqb (ts_id ts) k) f l) ->
  exists x, In x l /\ (y = x \/ y = f x).
Proof.
  induction l as [|x t IH]; simpl; [contradiction|].
  destruct (Nat.eqb (ts_id x) k); simpl.
  - intros [Hy | H].
    + exists x. split; [left; reflexivity | right; symmetry; exact Hy].
    + exists y. split; [right; exact H | left; reflexivity].
  - intros [Hy | H].
    + exists x. split; [left; reflexivity | left; symmetry; exact Hy].
    + destruct (IH H) as [x' [Hin Hx]]. exists x'. split; [right; exact Hin | exact Hx].
Qed.

(** Completing the session of the current trip leaves no ACTIVE session. *)
Lemma update_one_completes (k : nat) (f : trip_session -> trip_session)
    (l : list trip_session) :
  (forall ts, session_active (f ts) = false) ->
  NoDup (map ts_id l) ->
  map ts_id (filter session_active l) = [k] ->
  filter session_active (update_one (fun ts => Nat.eqb (ts_id ts) k) f l) = [].
Proof.
  intros Hf. induction l as [|x t IH]; simpl; intros Hnd Hact; [discriminate Hact|].
  inversion Hnd as [|? ? Hnotin Hnd']; subst.
  destruct (Nat.eqb (ts_id x) k) eqn:Hk.
  - apply Nat.eqb_eq in Hk. simpl. rewrite Hf.
    destruct (session_active x).
    + simpl in Hact. injection Hact as _ Hrest.
      apply map_eq_nil in Hrest. exact Hrest.
    + exfalso. apply Hnotin.
      assert (Hin : In k (map ts_id (filter session_active t)))
        by (rewrite Hact; left; reflexivity).
      apply in_map_iff in Hin. destruct Hin as [y [Hy Hin]].
      apply filter_In in Hin. rewrite Hk, <- Hy. apply in_map. exact (proj1 Hin).
  - simpl. destruct (session_active x).
    + simpl in Hact. injection Hact as Hx _.
      apply Nat.eqb_neq in Hk. contradiction.
    + apply IH; assumption.
Qed.

Lemma end_current_trip_state (now : Z) (s : tracker) (ct : current_trip_info) :
  current_trip s = Some ct ->
  let s' := fst (end_current_trip now s) in
  current_trip s' = None
  /\ next_oid s' = next_oid s
  /\ temp_entries s' = delete_many (in_trip (ct_trip_id ct)) (temp_entries s)
  /\ unmatched_passengers s'
     = unmatched_passengers s
       ++ map (entry_to_unmatched (ct_trip_id ct) (ct_start_time ct)
                 "Trip ended - no exit match found" now)
              (open_entries_of (ct_trip_id ct) s)
  /\ exists f,
       (forall ts, ts_id (f ts) = ts_id ts)
       /\ (forall ts, session_active (f ts) = false)
       /\ trip_sessions s'
          = update_one (fun ts => Nat.eqb (ts_id ts) (ct_id ct)) f (trip_sessions s).
Proof.
  intros Hct. unfold end_current_trip. rewrite Hct. cbn [fst].
  repeat split.
  eexists. split; [|split; [|reflexivity]].
  - intros ts. reflexivity.
  - intros ts. reflexivity.
Qed.

(** [end_current_trip] keeps the ledger coherent and leaves no ACTIVE
    trip. *)
Lemma end_current_trip_ok (now : Z) (s : tracker) :
  ledger_ok s ->
  ledger_ok (fst (end_current_trip now s))
  /\ current_trip (fst (end_current_trip now s)) = None.
Proof.
  intros (Hnd & Hlt & Hcur).
  destruct (current_trip s) as [ct|] eqn:Hct.
  - destruct (end_current_trip_state now s Hct)
      as (Hc & Hn & _ & _ & f & Hid & Hinact & Hts).
    cbv zeta in *.
    split; [|exact Hc].
    unfold ledger_ok, active_sessions. rewrite Hc, Hn, Hts.
    split; [rewrite update_one_ids by exact Hid; exact Hnd|].
    split.
    + intros ts Hin. apply update_one_in in Hin.
      destruct Hin as [x [Hx [-> | ->]]]; [|rewrite Hid]; apply Hlt; exact Hx.
    + destruct Hcur as [_ Hact].
      apply update_one_completes; assumption.
  - unfold end_current_trip. rewrite Hct. cbn [fst].
    split; [|exact Hct].
    unfold ledger_ok. rewrite Hct. repeat split; assumption.
Qed.

Lemma cleanup_orphans_state (now : Z) (s : tracker) :
  let s' := cleanup_orphans now s in
  current_trip s' = current_trip s
  /\ next_oid s' = next_oid s
  /\ trip_sessions s' = trip_sessions s
  /\ temp_entries s' = delete_many of_bus (temp_entries s)
  /\ unmatched_passengers s'
     = unmatched_passengers s
       ++ map (fun entry =>
                 entry_to_unmatched (te_trip_id entry) (te_trip_start_time entry)
                   "Orphaned entry - cleaned up before new trip" now entry)
              (filter of_bus (temp_entries s)).
Proof.
  unfold cleanup_orphans.
  destruct (filter of_bus (temp_entries s)) as [|e t] eqn:Hf.
  - cbv zeta. repeat split.
    + unfold delete_many.
      assert (H : forall l, filter of_bus l = [] ->
                            filter (fun x => negb (of_bus x)) l = l).
      { induction l as [|x l IH]; simpl; [reflexivity|].
        destruct (of_bus x); simpl; [discriminate|].
        intros H. rewrite IH by exact H. reflexivity. }
      symmetry. apply H. exact Hf.
    + simpl. rewrite app_nil_r. reflexivity.
  - cbv zeta. repeat split.
Qed.

Lemma delete_many_none (p : temp_entry -> bool) (l : list temp_entry) :
  filter p (delete_many p l) = [].
Proof.
  unfold delete_many. induction l as [|x t IH]; simpl; [reflexivity|].
  destruct (p x) eqn:Hp; simpl; [exact IH|]. rewrite Hp. exact IH.
Qed.

Lemma NoDup_snoc (l : list nat) (k : nat) :
  NoDup l -> ~ In k l -> NoDup (l ++ [k]).
Proof.
  induction l as [|x t IH]; simpl; intros Hnd Hk.
  - constructor; [intros [] | constructor].
  - inversion Hnd as [|? ? Hx Hnd']; subst. constructor.
    + intros Hin. apply in_app_or in Hin. destruct Hin as [Hin | [Hin | []]].
      * contradiction.
      * apply Hk. left. symmetry. exact Hin.
    + apply IH; [exact Hnd'|]. intros Hin. apply Hk. right. exact Hin.
Qed.

Lemma active_sessions_app (l : list trip_session) (ts : trip_session) :
  filter session_active (l ++ [ts])
  = filter session_active l ++ (if session_active ts then [ts] else []).
Proof.
  rewrite filter_app. simpl. destruct (session_active ts); reflexivity.
Qed.

(** Without a GPS fix, [start_new_trip] on a coherent ledger leaves a
    coherent ledger with exactly one ACTIVE trip, the new one, and an
    empty buffer for the bus; every entry that was open for the bus is
    among the unmatched records. *)
Lemma start_new_trip_without_gps (start_time : option Z) (now : Z) (s : tracker) :
  ledger_ok s ->
  let s' := fst (start_new_trip start_time None now s) in
  ledger_ok s'
  /\ List.length (active_sessions s') = 1%nat
  /\ (exists ct, current_trip s' = Some ct
                 /\ snd (start_new_trip start_time None now s) = Some (ct_trip_id ct))
  /\ filter of_bus (temp_entries s') = [].
Proof.
  intros Hok. unfold start_new_trip.
  set (s1 := if has_active_trip s then fst (end_current_trip now s) else s).
  assert (H1 : ledger_ok s1 /\ has_active_trip s1 = false).
  { unfold s1. destruct (has_active_trip s) eqn:Ha.
    - destruct (end_current_trip_ok now Hok) as [Hk Hc].
      split; [exact Hk|]. unfold has_active_trip. rewrite Hc. reflexivity.
    - split; assumption. }
  destruct H1 as [(Hnd & Hlt & Hcur) Hinactive].
  destruct (cleanup_orphans_state now s1) as (Hc2 & Hn2 & Ht2 & He2 & _).
  cbv zeta in *. cbn [fst snd].
  set (s2 := cleanup_orphans now s1) in *.
  assert (Hnone : active_sessions s2 = []).
  { unfold active_sessions. rewrite Ht2.
    unfold has_active_trip in Hinactive.
    destruct (current_trip s1) as [ct|].
    - destruct Hcur as [Hst _]. rewrite Hst in Hinactive. discriminate Hinactive.
    - exact Hcur. }
  unfold ledger_ok, active_sessions in *. cbn.
  rewrite active_sessions_app, Hnone. cbn.
  split; [|split; [reflexivity|split]].
  - split; [|split].
    + rewrite map_app. cbn. rewrite Ht2.
      apply NoDup_snoc; [exact Hnd|].
      intros Hin. apply in_map_iff in Hin. destruct Hin as [ts [Hid Hin]].
      specialize (Hlt ts Hin). rewrite Hn2 in Hid. lia.
    + intros ts Hin. apply in_app_or in Hin.
      destruct Hin as [Hin | [<- | []]]; cbn.
      * rewrite Ht2 in Hin. specialize (Hlt ts Hin). rewrite Hn2. lia.
      * lia.
    + split; reflexivity.
  - eexists. split; reflexivity.
  - rewrite He2. apply delete_many_none.
Qed.

Lemma filter_split_length (p q : temp_entry -> bool) (l : list temp_entry) :
  (List.length (filter (fun e => p e && q e) l)
   + List.length (filter q (delete_many p l)))%nat
  = List.length (filter q l).
Proof.
  unfold delete_many. induction l as [|x t IH]; simpl; [reflexivity|].
  destruct (p x), (q x) eqn:Hq; simpl; try rewrite Hq; simpl; lia.
Qed.

Lemma unmatched_entries_moved (f : temp_entry -> unmatched) (l : list temp_entry) :
  (forall e, un_type (f e) = ENTRY) ->
  filter (fun u => match un_type u with ENTRY => true | _ => false end) (map f l)
  = map f l.
Proof.
  intros Hf. induction l as [|x t IH]; simpl; [reflexivity|].
  rewrite Hf, IH. reflexivity.
Qed.

(** Whatever its arguments, [start_new_trip] called while a trip is
    active turns every open entry of that trip into an unmatched ENTRY
    record and empties the buffer of the bus; the unmatched ENTRY
    records grow by the number of entries that were open for the bus. *)
Lemma start_new_trip_migrates_open_entries
    (start_time : option Z) (initial_gps : option (Q * Q)) (now : Z)
    (s : tracker) (ct : current_trip_info) :
  current_trip s = Some ct ->
  ct_status ct = Active ->
  let s' := fst (start_new_trip start_time initial_gps now s) in
  (forall e, In e (open_entries_of (ct_trip_id ct) s) ->
     In (entry_to_unmatched (ct_trip_id ct) (ct_start_time ct)
           "Trip ended - no exit match found" now e)
        (unmatched_passengers s'))
  /\ filter of_bus (temp_entries s') = []
  /\ List.length (unmatched_entries s')
     = (List.length (unmatched_entries s)
        + List.length (filter of_bus (temp_entries s)))%nat.
Proof.
  intros Hct Hactive.
  assert (Hhas : has_active_trip s = true)
    by (unfold has_active_trip; rewrite Hct, Hactive; reflexivity).
  destruct (end_current_trip_state now s Hct) as (_ & _ & He1 & Hu1 & _).
  cbv zeta in He1, Hu1.
  destruct (cleanup_orphans_state now (fst (end_current_trip now s)))
    as (_ & _ & _ & He2 & Hu2).
  cbv zeta in He2, Hu2.
  assert (Hstate :
    temp_entries (fst (start_new_trip start_time initial_gps now s))
    = temp_entries (cleanup_orphans now (fst (end_current_trip now s)))
    /\ unmatched_passengers (fst (start_new_trip start_time initial_gps now s))
       = unmatched_passengers (cleanup_orphans now (fst (end_current_trip now s)))).
  { unfold start_new_trip. rewrite Hhas.
    destruct initial_gps; split; reflexivity. }
  destruct Hstate as [Hte Hun].
  cbv zeta. unfold unmatched_entries. rewrite Hte, Hun, He2, Hu2, Hu1, He1.
  split; [|split].
  - intros e He. apply in_or_app. left. apply in_or_app. right.
    apply in_map. exact He.
  - apply delete_many_none.
  - rewrite !filter_app, !length_app.
    rewrite !unmatched_entries_moved by (intros; reflexivity).
    rewrite !length_map. unfold open_entries_of.
    rewrite <- (filter_split_length (in_trip (ct_trip_id ct)) of_bus (temp_entries s)).
    lia.
Qed.

End Trips.

(** C8 (at the failing input): a trip is active with one passenger on
    board, so exactly one trip of the bus is ACTIVE; a second
    [start_new_trip], called with a GPS fix, completes that trip and
    moves the open entry to the unmatched records, then answers [None]
    without creating a trip.  No trip of the bus is ACTIVE afterwards. *)
Theorem start_trip_with_gps_leaves_no_active_trip :
  List.length (active_sessions one_on_board) = 1%nat
  /\ List.length (temp_entries one_on_board) = 1%nat
  /\ snd restart_with_gps = None
  /\ current_trip (fst restart_with_gps) = None
  /\ active_sessions (fst restart_with_gps) = []
  /\ temp_entries (fst restart_with_gps) = []
  /\ List.length (unmatched_entries (fst restart_with_gps)) = 1%nat.
Proof.
  repeat split; vm_compute; reflexivity.
Qed.

(* ------------------------------------------------------------------ *)
(** ** The [_id]s of the buffer stay distinct *)

Section BufferIds.

Variable float_of_str : string -> option Q.
Variable cosine_similarity : embedding -> embedding -> option Q.
Variable calculate_road_distance : Q -> Q -> Q -> Q -> option distance_info.
Variable reverse_geocode : Q -> Q -> option string.

Lemma filter_ids_distinct (p : temp_entry -> bool) (l : list temp_entry) :
  NoDup (map te_id l) -> NoDup (map te_id (filter p l)).
Proof.
  induction l as [|x t IH]; simpl; intros Hnd; [constructor|].
  inversion Hnd as [|? ? Hx Hnd']; subst.
  destruct (p x); simpl; [|exact (IH Hnd')].
  constructor; [|exact (IH Hnd')].
  intros Hin. apply Hx. apply in_map_iff in Hin.
  destruct Hin as [y [Hy Hin]]. apply filter_In in Hin.
  rewrite <- Hy. apply in_map. exact (proj1 Hin).
Qed.

Lemma delete_one_in (p : temp_entry -> bool) (l : list temp_entry) (e : temp_entry) :
  In e (delete_one p l) -> In e l.
Proof.
  induction l as [|x t IH]; simpl; [tauto|].
  destruct (p x); simpl; [tauto|].
  intros [H | H]; [left; exact H | right; exact (IH H)].
Qed.

Lemma delete_one_ids_distinct (p : temp_entry -> bool) (l : list temp_entry) :
  NoDup (map te_id l) -> NoDup (map te_id (delete_one p l)).
Proof.
  induction l as [|x t IH]; simpl; intros Hnd; [constructor|].
  inversion Hnd as [|? ? Hx Hnd']; subst.
  destruct (p x); simpl; [exact Hnd'|].
  constructor; [|exact (IH Hnd')].
  intros Hin. apply Hx. apply in_map_iff in Hin.
  destruct Hin as [y [Hy Hin]]. rewrite <- Hy.
  apply in_map. exact (delete_one_in _ _ _ Hin).
Qed.

Lemma buffer_ok_filtered (s s' : tracker) (p : temp_entry -> bool) :
  buffer_ok s ->
  temp_entries s' = delete_many p (temp_entries s) ->
  (next_oid s <= next_oid s')%nat ->
  buffer_ok s'.
Proof.
  intros [Hnd Hlt] Hte Hn. unfold buffer_ok. rewrite Hte. unfold delete_many.
  split; [apply filter_ids_distinct; exact Hnd|].
  intros e He. apply filter_In in He. specialize (Hlt e (proj1 He)). lia.
Qed.

Lemma end_current_trip_buffer_ok (now : Z) (s : tracker) :
  buffer_ok s -> buffer_ok (fst (end_current_trip now s)).
Proof.
  intros Hok. destruct (current_trip s) as [ct|] eqn:Hct.
  - destruct (end_current_trip_state now s Hct) as (_ & Hn & Hte & _).
    cbv zeta in Hn, Hte.
    eapply buffer_ok_filtered; [exact Hok | exact Hte | rewrite Hn; lia].
  - unfold end_current_trip. rewrite Hct. exact Hok.
Qed.

Lemma start_new_trip_buffer_ok (start_time : option Z) (initial_gps : option (Q * Q))
    (now : Z) (s : tracker) :
  buffer_ok s -> buffer_ok (fst (start_new_trip start_time initial_gps now s)).
Proof.
  intros Hok. unfold start_new_trip.
  set (s1 := if has_active_trip s then fst (end_current_trip now s) else s).
  assert (H1 : buffer_ok s1).
  { unfold s1. destruct (has_active_trip s);
      [apply end_current_trip_buffer_ok|]; exact Hok. }
  destruct (cleanup_orphans_state now s1) as (_ & Hn2 & _ & He2 & _).
  cbv zeta in Hn2, He2.
  assert (H2 : buffer_ok (cleanup_orphans now s1)).
  { eapply buffer_ok_filtered; [exact H1 | exact He2 | rewrite Hn2; lia]. }
  destruct initial_gps; cbn [fst]; [exact H2|].
  destruct H2 as [Hnd Hlt]. split; [exact Hnd|].
  intros e He. cbn in He |- *. specialize (Hlt e He). lia.
Qed.

Lemma store_entry_buffer_ok (log_entry : face_log) (now : Z) (s : tracker) :
  buffer_ok s -> buffer_ok (fst (store_entry cosine_similarity log_entry now s)).
Proof.
  intros Hok. unfold store_entry.
  set (s1 := if has_active_trip s then s else fst (start_new_trip None None now s)).
  assert (H1 : buffer_ok s1).
  { unfold s1. destruct (has_active_trip s);
      [|apply start_new_trip_buffer_ok]; exact Hok. }
  destruct (current_trip s1) as [ct|]; cbn [fst]; [|exact H1].
  destruct H1 as [Hnd Hlt]. split; cbn.
  - rewrite map_app. cbn. apply NoDup_snoc; [exact Hnd|].
    intros Hin. apply in_map_iff in Hin. destruct Hin as [e [Hid Hin]].
    specialize (Hlt e Hin). lia.
  - intros e He. apply in_app_or in He.
    destruct He as [He | [<- | []]]; cbn; [specialize (Hlt e He)|]; lia.
Qed.

Lemma find_matching_entry_buffer_ok (exit_log : face_log) (now : Z) (s : tracker) :
  buffer_ok s ->
  buffer_ok (fst (fst (find_matching_entry float_of_str cosine_similarity
                         calculate_road_distance reverse_geocode exit_log now s))).
Proof.
  intros Hok. unfold find_matching_entry.
  destruct (search_entries cosine_similarity exit_log now s) as [| b | ct E sim];
    cbn [fst]; [exact Hok | exact Hok |].
  destruct Hok as [Hnd Hlt]. unfold buffer_ok.
  rewrite finalize_journey_temp_entries.
  split; [apply delete_one_ids_distinct; exact Hnd|].
  intros e He. apply delete_one_in in He. exact (Hlt e He).
Qed.

(** Every face log leaves the [_id]s of the buffer distinct: the
    hypothesis of [consumed_entry_not_matched_again] holds in every state
    reached from the empty tracker. *)
Lemma process_face_log_buffer_ok (log_entry : face_log) (now : Z) (s : tracker) :
  buffer_ok s ->
  buffer_ok (fst (process_face_log float_of_str cosine_similarity
                    calculate_road_distance reverse_geocode log_entry now s)).
Proof.
  intros Hok. unfold process_face_log.
  destruct (log_location_type log_entry).
  - pose proof (store_entry_buffer_ok log_entry now Hok) as H.
    destruct (snd (store_entry cosine_similarity log_entry now s)); exact H.
  - pose proof (find_matching_entry_buffer_ok log_entry now Hok) as H.
    destruct (snd (fst (find_matching_entry float_of_str cosine_similarity
                          calculate_road_distance reverse_geocode log_entry now s)));
      cbn [fst]; [exact H|].
    unfold store_unmatched_exit.
    destruct (current_trip _) as [ct|]; cbn [fst]; [|exact H].
    destruct (ct_status ct); cbn [fst]; exact H.
  - exact Hok.
Qed.

Lemma empty_tracker_buffer_ok : buffer_ok empty_tracker.
Proof. split; [constructor | intros e []]. Qed.

End BufferIds.

(* ================================================================== *)
(** * Further properties of the code *)

(** ** GeoDistance *)

Section GeoMore.

Variable float_of_str : string -> option Q.

Local Open Scope R_scope.

Lemma haversine_angle_sym (lat1 lon1 lat2 lon2 : R) :
  haversine_angle lat1 lon1 lat2 lon2 = haversine_angle lat2 lon2 lat1 lon1.
Proof.
  unfold haversine_angle.
  replace ((radians lat1 - radians lat2) / 2)
    with (- ((radians lat2 - radians lat1) / 2)) by lra.
  replace ((radians lon1 - radians lon2) / 2)
    with (- ((radians lon2 - radians lon1) / 2)) by lra.
  rewrite !sin_neg, <- !Rsqr_neg.
  rewrite (Rmult_comm (cos (radians lat2)) (cos (radians lat1))).
  reflexivity.
Qed.

(** X1: the Haversine distance does not depend on the order of the two
    points, for the tracker's function and for the detector's, on every
    input (two calls that both fail give the same fallback value). *)
Theorem haversine_symmetric (lat1 lon1 lat2 lon2 : pyval) :
  calculate_haversine_distance float_of_str lat1 lon1 lat2 lon2
  = calculate_haversine_distance float_of_str lat2 lon2 lat1 lon1
  /\ calculate_distance float_of_str lat1 lon1 lat2 lon2
     = calculate_distance float_of_str lat2 lon2 lat1 lon1.
Proof.
  unfold calculate_haversine_distance, calculate_distance,
    calculate_haversine_distance_try, calculate_distance_try, bind.
  destruct (py_float float_of_str lat1), (py_float float_of_str lon1),
    (py_float float_of_str lat2), (py_float float_of_str lon2);
    try (split; reflexivity).
  rewrite (haversine_angle_sym (Q2R q) (Q2R q0) (Q2R q1) (Q2R q2)).
  split; reflexivity.
Qed.

Lemma asin_nonneg (x : R) : 0 <= x -> 0 <= asin x.
Proof.
  intros Hx. pose proof PI_RGT_0 as Hpi. unfold asin.
  destruct (Rle_dec x (-1)); [lra|].
  destruct (Rle_dec 1 x); [lra|].
  assert (Hs : 0 < sqrt (1 - x²)).
  { apply sqrt_lt_R0. unfold Rsqr. nra. }
  assert (Hq : 0 <= x / sqrt (1 - x²)).
  { unfold Rdiv. apply Rmult_le_pos; [exact Hx|].
    left. apply Rinv_0_lt_compat. exact Hs. }
  destruct Hq as [Hq | Hq].
  - left. rewrite <- atan_0. apply atan_increasing. exact Hq.
  - rewrite <- Hq, atan_0. lra.
Qed.

Lemma haversine_angle_range (lat1 lon1 lat2 lon2 : R) :
  0 <= haversine_angle lat1 lon1 lat2 lon2 <= PI.
Proof.
  unfold haversine_angle. cbv zeta.
  match goal with |- context [asin (sqrt ?a)] => set (A := a) end.
  pose proof (asin_nonneg (sqrt_pos A)) as H0.
  pose proof (asin_bound (sqrt A)) as [_ H1].
  lra.
Qed.

(** X2: for numeric coordinates the distance of a point to itself is 0,
    every distance is at least 0 and at most half the circumference of
    the Earth, [6371 * pi] km. *)
Theorem haversine_distance_range (lat1 lon1 lat2 lon2 : Q) :
  calculate_haversine_distance float_of_str
    (PyNum lat1) (PyNum lon1) (PyNum lat1) (PyNum lon1) = 0
  /\ 0 <= calculate_haversine_distance float_of_str
            (PyNum lat1) (PyNum lon1) (PyNum lat2) (PyNum lon2)
       <= 6371 * PI
  /\ calculate_distance float_of_str
       (PyNum lat1) (PyNum lon1) (PyNum lat2) (PyNum lon2)
     = Finite (calculate_haversine_distance float_of_str
                 (PyNum lat1) (PyNum lon1) (PyNum lat2) (PyNum lon2)).
Proof.
  unfold calculate_haversine_distance, calculate_distance,
    calculate_haversine_distance_try, calculate_distance_try, bind, py_float.
  split; [|split].
  - pose proof (haversine_distance_same_point lat1 lon1) as H.
    unfold haversine_distance in H. lra.
  - pose proof (haversine_angle_range (Q2R lat1) (Q2R lon1) (Q2R lat2) (Q2R lon2)).
    split; nra.
  - f_equal. lra.
Qed.

End GeoMore.

(* ------------------------------------------------------------------ *)
(** ** RouteDetector: the nearest waypoint *)

Section NearestWaypoint.

Variable float_of_str : string -> option Q.

Lemma nearest_step_cases (lat lon : Q) (acc : xreal * option waypoint) (wp : waypoint) :
  match waypoint_distance lat lon wp with
  | Some d =>
      nearest_step float_of_str lat lon acc wp
      = if xlt_dec (Finite d) (fst acc) then (Finite d, Some wp) else acc
  | None => nearest_step float_of_str lat lon acc wp = acc
  end.
Proof.
  unfold waypoint_distance, nearest_step.
  destruct (wp_latitude wp) as [a|]; [|reflexivity].
  destruct (wp_longitude wp) as [b|]; reflexivity.
Qed.

Lemma xlt_true (d : R) (m : xreal) :
  xlt_dec (Finite d) m = true ->
  match m with
  | Finite x => (d < x)%R
  | Infinity => True
  end.
Proof.
  destruct m as [x|]; simpl; [|trivial].
  destruct (Rlt_dec d x); [trivial | discriminate].
Qed.

Lemma xlt_false (d : R) (m : xreal) :
  xlt_dec (Finite d) m = false -> exists x, m = Finite x /\ (x <= d)%R.
Proof.
  destruct m as [x|]; simpl; [|discriminate].
  destruct (Rlt_dec d x); [discriminate|].
  intros _. exists x. split; [reflexivity | lra].
Qed.

Lemma xlt_trans (d d' : R) (m : xreal) :
  (d < d')%R -> xlt_dec (Finite d') m = true -> xlt_dec (Finite d) m = true.
Proof.
  intros Hlt H. apply xlt_true in H. destruct m as [x|]; simpl; [|reflexivity].
  destruct (Rlt_dec d x); [reflexivity | lra].
Qed.

(** The loop of [is_point_near_route]: either no waypoint improves on
    the initial distance, or the answer is the first waypoint at the
    least distance. *)
Lemma nearest_fold (lat lon : Q) (l : list waypoint) :
  forall acc,
    let res := fold_left (nearest_step float_of_str lat lon) l acc in
    (res = acc
     /\ forall wp d, In wp l -> waypoint_distance lat lon wp = Some d ->
                     xlt_dec (Finite d) (fst acc) = false)
    \/ (exists l1 wp l2 d,
          l = l1 ++ wp :: l2
          /\ waypoint_distance lat lon wp = Some d
          /\ res = (Finite d, Some wp)
          /\ xlt_dec (Finite d) (fst acc) = true
          /\ (forall wp' d', In wp' l1 ->
                waypoint_distance lat lon wp' = Some d' -> (d < d')%R)
          /\ (forall wp' d', In wp' l2 ->
                waypoint_distance lat lon wp' = Some d' -> (d <= d')%R)).
Proof.
  induction l as [|x t IH]; intros acc; cbv zeta; simpl.
  - left. split; [reflexivity|]. intros wp d [].
  - pose proof (nearest_step_cases lat lon acc x) as Hstep.
    destruct (waypoint_distance lat lon x) as [dx|] eqn:Hdx.
    + destruct (xlt_dec (Finite dx) (fst acc)) eqn:Hlt.
      * rewrite Hstep.
        destruct (IH (Finite dx, Some x)) as [[Hres Hall] | Hfound]; cbv zeta in *.
        -- right. exists [], x, t, dx. simpl.
           repeat split; try assumption.
           ++ intros wp' d' [].
           ++ intros wp' d' Hin Hd.
              destruct (xlt_false _ _ (Hall wp' d' Hin Hd)) as [y [Hy Hle]].
              simpl in Hy. injection Hy as <-. exact Hle.
        -- destruct Hfound as (l1 & wp & l2 & d & Hl & Hd & Hres & Hlt' & H1 & H2).
           right. exists (x :: l1), wp, l2, d. simpl.
           apply xlt_true in Hlt'. simpl in Hlt'.
           repeat split; try assumption.
           ++ rewrite Hl. reflexivity.
           ++ exact (xlt_trans _ Hlt' Hlt).
           ++ intros wp' d' [<- | Hin] Hd'.
              ** rewrite Hdx in Hd'. injection Hd' as <-. exact Hlt'.
              ** exact (H1 wp' d' Hin Hd').
      * rewrite Hstep.
        destruct (IH acc) as [[Hres Hall] | Hfound]; cbv zeta in *.
        -- left. split; [exact Hres|].
           intros wp d [<- | Hin] Hd.
           ++ rewrite Hdx in Hd. injection Hd as <-. exact Hlt.
           ++ exact (Hall wp d Hin Hd).
        -- destruct Hfound as (l1 & wp & l2 & d & Hl & Hd & Hres & Hlt' & H1 & H2).
           right. exists (x :: l1), wp, l2, d. simpl.
           repeat split; try assumption.
           ++ rewrite Hl. reflexivity.
           ++ intros wp' d' [<- | Hin] Hd'.
              ** rewrite Hdx in Hd'. injection Hd' as <-.
                 destruct (xlt_false _ _ Hlt) as [y [Hy Hle]].
                 rewrite Hy in Hlt'. apply xlt_true in Hlt'. lra.
              ** exact (H1 wp' d' Hin Hd').
    + rewrite Hstep.
      destruct (IH acc) as [[Hres Hall] | Hfound]; cbv zeta in *.
      * left. split; [exact Hres|].
        intros wp d [<- | Hin] Hd.
        -- rewrite Hdx in Hd. discriminate Hd.
        -- exact (Hall wp d Hin Hd).
      * destruct Hfound as (l1 & wp & l2 & d & Hl & Hd & Hres & Hlt' & H1 & H2).
        right. exists (x :: l1), wp, l2, d. simpl.
        repeat split; try assumption.
        -- rewrite Hl. reflexivity.
        -- intros wp' d' [<- | Hin] Hd'.
           ++ rewrite Hdx in Hd'. discriminate Hd'.
           ++ exact (H1 wp' d' Hin Hd').
Qed.

Lemma is_point_near_route_fold (lat lon : Q) (r : route) (threshold_km : R) :
  waypoints r <> [] ->
  is_point_near_route float_of_str lat lon r threshold_km
  = (xle_dec (fst (fold_left (nearest_step float_of_str lat lon)
                     (waypoints r) (Infinity, None)))
       (Finite threshold_km),
     Some (fold_left (nearest_step float_of_str lat lon)
             (waypoints r) (Infinity, None))).
Proof.
  unfold is_point_near_route. destruct (waypoints r); [congruence | reflexivity].
Qed.

Lemma near_route_iff (lat lon : Q) (r : route) (threshold_km : R) :
  fst (is_point_near_route float_of_str lat lon r threshold_km) = true
  <-> exists wp d,
        In wp (waypoints r)
        /\ waypoint_distance lat lon wp = Some d
        /\ (d <= threshold_km)%R.
Proof.
  destruct (waypoints r) as [|w0 ws] eqn:Hw.
  - unfold is_point_near_route. rewrite Hw. simpl. split; [discriminate|].
    intros (wp & d & [] & _).
  - rewrite is_point_near_route_fold by (rewrite Hw; discriminate).
    cbn [fst]. rewrite Hw.
    destruct (nearest_fold lat lon (w0 :: ws) (Infinity, None))
      as [[Hres Hall] | Hfound]; cbv zeta in *.
    + rewrite Hres. cbn [fst xle_dec]. split; [discriminate|].
      intros (wp & d & Hin & Hd & _).
      specialize (Hall wp d Hin Hd). simpl in Hall. discriminate Hall.
    + destruct Hfound as (l1 & wp & l2 & d & Hl & Hd & Hres & _ & H1 & H2).
      rewrite Hres. cbn [fst xle_dec].
      destruct (Rle_dec d threshold_km) as [Hle | Hgt].
      * split; [|reflexivity]. intros _. exists wp, d.
        split; [rewrite Hl; apply in_or_app; right; left; reflexivity|].
        split; assumption.
      * split; [discriminate|].
        intros (wp' & d' & Hin & Hd' & Hle). exfalso. apply Hgt.
        rewrite Hl in Hin. apply in_app_or in Hin.
        destruct Hin as [Hin | [<- | Hin]].
        -- specialize (H1 wp' d' Hin Hd'). lra.
        -- rewrite Hd in Hd'. injection Hd' as <-. exact Hle.
        -- specialize (H2 wp' d' Hin Hd'). lra.
Qed.

(** X3: a point is near a route exactly when some waypoint of the route
    that has both coordinates lies within the threshold; a route without
    waypoints is near nothing. *)
Theorem near_route_iff_waypoint_within (lat lon : Q) (r : route) (threshold_km : R) :
  fst (is_point_near_route float_of_str lat lon r threshold_km) = true
  <-> exists wp d,
        In wp (waypoints r)
        /\ waypoint_distance lat lon wp = Some d
        /\ (d <= threshold_km)%R.
Proof. exact (near_route_iff lat lon r threshold_km). Qed.


(** X5: a journey is on a route exactly when the route is in the cache
    and the entry point and the exit point are each near the route; an
    unknown route id gives [False] with the error answer. *)
Theorem journey_on_route_iff (route_cache : list route)
    (entry_lat entry_lon exit_lat exit_lon : Q) (rid : string) (threshold_km : R) :
  (cache_get route_cache rid = None ->
   is_journey_on_route float_of_str route_cache entry_lat entry_lon
     exit_lat exit_lon rid threshold_km = (false, RouteNotFound))
  /\ (fst (is_journey_on_route float_of_str route_cache entry_lat entry_lon
             exit_lat exit_lon rid threshold_km) = true
      <-> exists r,
            cache_get route_cache rid = Some r
            /\ (exists wp d, In wp (waypoints r)
                  /\ waypoint_distance entry_lat entry_lon wp = Some d
                  /\ (d <= threshold_km)%R)
            /\ (exists wp d, In wp (waypoints r)
                  /\ waypoint_distance exit_lat exit_lon wp = Some d
                  /\ (d <= threshold_km)%R)).
Proof.
  unfold is_journey_on_route. split.
  - intros ->. reflexivity.
  - destruct (cache_get route_cache rid) as [r|].
    + cbn [fst]. rewrite andb_true_iff, !near_route_iff. split.
      * intros [He Hx]. exists r. repeat split; assumption.
      * intros (r' & Hr & He & Hx). injection Hr as <-. split; assumption.
    + cbn [fst]. split; [discriminate|]. intros (r & Hr & _). discriminate Hr.
Qed.

End NearestWaypoint.






(* ------------------------------------------------------------------ *)
(** ** RouteDetector: what an acceptance means *)

Section Proximity.

Variable float_of_str : string -> option Q.

Lemma first_some_some {A B : Type} (f : A -> option B) (l : list A) (b : B) :
  first_some f l = Some b -> exists a, In a l /\ f a = Some b.
Proof.
  induction l as [|x t IH]; simpl; [discriminate|].
  destruct (f x) as [b'|] eqn:Hx.
  - intros H. injection H as <-. exists x. split; [left; reflexivity | exact Hx].
  - intros H. destruct (IH H) as [a [Hin Ha]]. exists a. split; [right|]; assumption.
Qed.

Lemma first_some_none {A B : Type} (f : A -> option B) (l : list A) :
  (forall a, In a l -> f a = None) -> first_some f l = None.
Proof.
  induction l as [|x t IH]; simpl; intros H; [reflexivity|].
  rewrite (H x) by (left; reflexivity).
  apply IH. intros a Ha. apply H. right. exact Ha.
Qed.

Lemma within_proximity_le (lat lon s_lat s_lon : Q) :
  within_proximity lat lon s_lat s_lon = true ->
  (haversine_distance lat lon s_lat s_lon <= 10)%R.
Proof.
  unfold within_proximity, PROXIMITY_THRESHOLD_KM.
  destruct (Rle_dec _ _); [trivial | discriminate].
Qed.

Lemma match_route_stops_sound (el eo xl xo : Q) (vrs : list valid_route)
    (r : bus_route) (info : match_info) :
  match_route_stops el eo xl xo vrs r = Some info ->
  exists e x vr,
    info = RouteStops (br_route_name r) e x (get_order e) (get_order x)
    /\ find (stop_near el eo) (br_stops r) = Some e
    /\ find (stop_near xl xo) (br_stops r) = Some x
    /\ (get_order e < get_order x)%Z
    /\ In vr vrs
    /\ str_in (lower (get_str (from_location vr)))
              (lower (get_str (stop_name e))) = true
    /\ str_in (lower (get_str (to_location vr)))
              (lower (get_str (stop_name x))) = true.
Proof.
  unfold match_route_stops.
  destruct (br_stops r) as [|s0 t] eqn:Hstops; [discriminate|].
  rewrite find_stops_find.
  destruct (find (stop_near el eo) (s0 :: t)) as [e|]; [|discriminate].
  destruct (find (stop_near xl xo) (s0 :: t)) as [x|]; [|discriminate].
  destruct (get_order e <? get_order x)%Z eqn:Hlt; [|discriminate].
  destruct (stops_match_member e x vrs) eqn:Hm; [|discriminate].
  intros H. injection H as <-.
  unfold stops_match_member in Hm. apply existsb_exists in Hm.
  destruct Hm as [vr [Hin Hvr]]. apply andb_true_iff in Hvr.
  exists e, x, vr. apply Z.ltb_lt in Hlt.
  repeat split; try reflexivity; try assumption; apply Hvr.
Qed.

(** X6: an acceptance by [_check_location_proximity] is of one of two
    kinds.  Either an active route has, as first stops within 10 km of
    the entry and of the exit, two stops in strictly increasing order
    whose names contain the from and to locations of one of the member's
    routes; or the from and to locations of one of the member's routes
    are known locations within 10 km of the entry and of the exit. *)
Theorem proximity_acceptance_sound
    (bus_routes : option (list bus_route)) (el eo xl xo : Q)
    (vrs : list valid_route) (info : match_info) :
  _check_location_proximity bus_routes el eo xl xo vrs = (true, info) ->
  (exists docs r e x vr,
      bus_routes = Some docs /\ In r docs /\ br_is_active r = true
      /\ info = RouteStops (br_route_name r) e x (get_order e) (get_order x)
      /\ find (stop_near el eo) (br_stops r) = Some e
      /\ find (stop_near xl xo) (br_stops r) = Some x
      /\ (get_order e < get_order x)%Z
      /\ In vr vrs
      /\ str_in (lower (get_str (from_location vr)))
                (lower (get_str (stop_name e))) = true
      /\ str_in (lower (get_str (to_location vr)))
                (lower (get_str (stop_name x))) = true)
  \/ (exists vr from_coords to_coords,
        In vr vrs
        /\ info = LocationProximity (lower (get_str (from_location vr)))
                                    (lower (get_str (to_location vr)))
        /\ dict_get known_locations (lower (get_str (from_location vr)))
           = Some from_coords
        /\ dict_get known_locations (lower (get_str (to_location vr)))
           = Some to_coords
        /\ (haversine_distance el eo (fst from_coords) (snd from_coords) <= 10)%R
        /\ (haversine_distance xl xo (fst to_coords) (snd to_coords) <= 10)%R).
Proof.
  unfold _check_location_proximity.
  destruct (check_route_stops bus_routes el eo xl xo vrs) as [i|] eqn:Hc.
  - intros H. injection H as <-. left.
    unfold check_route_stops in Hc.
    destruct bus_routes as [docs|]; [|discriminate Hc].
    apply first_some_some in Hc. destruct Hc as [r [Hin Hr]].
    apply filter_In in Hin. destruct Hin as [Hin Hact].
    apply match_route_stops_sound in Hr.
    destruct Hr as (e & x & vr & H1 & H2 & H3 & H4 & H5 & H6 & H7).
    exists docs, r, e, x, vr. repeat split; assumption.
  - destruct (first_some _ vrs) as [i|] eqn:Hk; [|discriminate].
    intros H. injection H as <-. right.
    apply first_some_some in Hk. destruct Hk as [vr [Hin Hvr]].
    unfold match_known_location in Hvr.
    destruct (dict_get known_locations (lower (get_str (from_location vr))))
      as [fc|] eqn:Hf; [|discriminate Hvr].
    destruct (dict_get known_locations (lower (get_str (to_location vr))))
      as [tc|] eqn:Ht; [|discriminate Hvr].
    destruct (within_proximity el eo (fst fc) (snd fc)) eqn:H1; [|discriminate Hvr].
    destruct (within_proximity xl xo (fst tc) (snd tc)) eqn:H2; [|discriminate Hvr].
    simpl in Hvr. injection Hvr as <-.
    exists vr, fc, tc.
    repeat split; try assumption; try reflexivity;
      apply within_proximity_le; assumption.
Qed.

Lemma check_proximity_no_routes (bus_routes : option (list bus_route))
    (el eo xl xo : Q) :
  _check_location_proximity bus_routes el eo xl xo [] = (false, NotWithinProximity).
Proof.
  unfold _check_location_proximity, check_route_stops.
  destruct bus_routes as [docs|]; [|reflexivity].
  rewrite first_some_none; [reflexivity|].
  intros r _. unfold match_route_stops.
  destruct (br_stops r); [reflexivity|].
  destruct (find_stops _ _ _ _ _) as [[e|] [x|]]; try reflexivity.
  destruct (_ <? _)%Z; reflexivity.
Qed.

(** X7: with an empty list of valid routes the detector accepts no
    journey, whatever the routes and the coordinates, and neither does
    the fallback on the route name. *)
Theorem no_valid_route_no_acceptance
    (route_cache : list route) (bus_routes : option (list bus_route))
    (el eo xl xo : Q) :
  fst (find_matching_season_ticket_routes float_of_str route_cache bus_routes
         el eo xl xo []) = false
  /\ fst (_check_location_proximity bus_routes el eo xl xo []) = false
  /\ fst (_fallback_route_validation []) = false.
Proof.
  split; [|split].
  - unfold find_matching_season_ticket_routes.
    destruct (filter _ _); [rewrite check_proximity_no_routes|]; reflexivity.
  - rewrite check_proximity_no_routes. reflexivity.
  - reflexivity.
Qed.

(** X8: the fare read for a stage is that of an active stage of least
    number at or above the stage when there is one, else that of an
    active stage of greatest number, and the hardcoded fare only when
    the table has no active stage. *)
Theorem fare_lookup_tiers (docs : list fare_stage) (stage : Z) :
  (exists p,
      In p docs /\ fs_is_active p = true
      /\ lookup_fare float_of_str docs stage = py_float float_of_str (fare p)
      /\ (((stage <= stage_number p)%Z
           /\ forall a, In a docs -> fs_is_active a = true ->
                        (stage <= stage_number a)%Z ->
                        (stage_number p <= stage_number a)%Z)
          \/ ((forall a, In a docs -> fs_is_active a = true ->
                         (stage_number a < stage)%Z)
              /\ forall a, In a docs -> fs_is_active a = true ->
                           (stage_number a <= stage_number p)%Z)))
  \/ ((forall a, In a docs -> fs_is_active a = true -> False)
      /\ lookup_fare float_of_str docs stage = Some (fallback_fare stage)).
Proof. exact (lookup_fare_cases float_of_str docs stage). Qed.

End Proximity.

Lemma match_b_to_c :
  match_route_stops 9 80 10 80 [ticket_b_to_c] route_bc
  = Some (RouteStops (Some "B-C"%string) stop_b stop_c 2 3).
Proof.
  unfold match_route_stops.
  change (br_stops route_bc) with [stop_b; stop_c]. cbv beta iota.
  rewrite find_stops_find.
  assert (Hb : stop_near 9 80 stop_b = true)
    by (unfold stop_near; simpl; rewrite within_proximity_same_point; reflexivity).
  assert (Hc1 : stop_near 10 80 stop_b = false)
    by (unfold stop_near; simpl; rewrite far_b_from_c; reflexivity).
  assert (Hc2 : stop_near 10 80 stop_c = true)
    by (unfold stop_near; simpl; rewrite within_proximity_same_point; reflexivity).
  cbn [find]. rewrite Hb, Hc1, Hc2. reflexivity.
Qed.

Lemma accept_b_to_c :
  _check_location_proximity (Some [route_bc]) 9 80 10 80 [ticket_b_to_c]
  = (true, RouteStops (Some "B-C"%string) stop_b stop_c 2 3).
Proof.
  unfold _check_location_proximity, check_route_stops.
  change (filter br_is_active [route_bc]) with [route_bc].
  cbn [first_some]. rewrite match_b_to_c. reflexivity.
Qed.

Lemma proximity_acceptance_sound_witness :
  (exists docs r e x vr,
      Some [route_bc] = Some docs /\ In r docs /\ br_is_active r = true
      /\ RouteStops (Some "B-C"%string) stop_b stop_c 2 3
         = RouteStops (br_route_name r) e x (get_order e) (get_order x)
      /\ find (stop_near 9 80) (br_stops r) = Some e
      /\ find (stop_near 10 80) (br_stops r) = Some x
      /\ (get_order e < get_order x)%Z
      /\ In vr [ticket_b_to_c]
      /\ str_in (lower (get_str (from_location vr)))
                (lower (get_str (stop_name e))) = true
      /\ str_in (lower (get_str (to_location vr)))
                (lower (get_str (stop_name x))) = true)
  \/ (exists vr from_coords to_coords,
        In vr [ticket_b_to_c]
        /\ RouteStops (Some "B-C"%string) stop_b stop_c 2 3
           = LocationProximity (lower (get_str (from_location vr)))
                               (lower (get_str (to_location vr)))
        /\ dict_get known_locations (lower (get_str (from_location vr)))
           = Some from_coords
        /\ dict_get known_locations (lower (get_str (to_location vr)))
           = Some to_coords
        /\ (haversine_distance 9 80 (fst from_coords) (snd from_coords) <= 10)%R
        /\ (haversine_distance 10 80 (fst to_coords) (snd to_coords) <= 10)%R).
Proof.
  apply (@proximity_acceptance_sound (Some [route_bc]) 9 80 10 80 [ticket_b_to_c]).
  exact accept_b_to_c.
Defined.

(* ------------------------------------------------------------------ *)
(** ** TripLedger: what a match means *)

Section MatchMeaning.

Variable float_of_str : string -> option Q.
Variable cosine_similarity : embedding -> embedding -> option Q.
Variable calculate_road_distance : Q -> Q -> Q -> Q -> option distance_info.
Variable reverse_geocode : Q -> Q -> option string.

Local Open Scope Q_scope.

Lemma Qltb_ge (x y : Q) : Qltb x y = false -> y <= x.
Proof.
  unfold Qltb. intros H. apply Qle_bool_iff.
  destruct (Qle_bool y x); [reflexivity | discriminate H].
Qed.

(** The matching loop: the running best never decreases; every candidate
    is at most the final best or at most the threshold; a final match is
    a candidate whose similarity is the final best, above the threshold. *)
Lemma match_loop_spec (emb : embedding) (l : list temp_entry) :
  forall acc res,
    fold_try (match_step cosine_similarity emb) l acc = Some res ->
    snd acc <= snd res
    /\ (forall e, In e l -> te_face_embedding e <> [] ->
          exists s', cosine_similarity emb (te_face_embedding e) = Some s'
                     /\ (s' <= snd res \/ s' <= similarity_threshold))
    /\ (res = acc
        \/ exists E, fst res = Some E /\ In E l
                     /\ cosine_similarity emb (te_face_embedding E) = Some (snd res)
                     /\ similarity_threshold < snd res).
Proof.
  induction l as [|x t IH]; intros acc res H; simpl in H.
  - injection H as <-. split; [apply Qle_refl|]. split; [intros e []|].
    left. reflexivity.
  - unfold bind in H.
    destruct (match_step cosine_similarity emb acc x) as [acc'|] eqn:Hs;
      [|discriminate H].
    destruct (IH _ _ H) as (Hle & Hall & Hres).
    unfold match_step in Hs.
    destruct (te_face_embedding x) as [|q0 qs] eqn:Hemb.
    + injection Hs as <-.
      split; [exact Hle|]. split.
      * intros e [<- | Hin] Hne; [congruence | exact (Hall e Hin Hne)].
      * destruct Hres as [-> | (E & HE & Hin & Hc & Ht)]; [left; reflexivity|].
        right. exists E. repeat split; try assumption. right. exact Hin.
    + unfold bind in Hs.
      destruct (cosine_similarity emb (q0 :: qs)) as [sim|] eqn:Hcos;
        [|discriminate Hs].
      destruct (Qltb (snd acc) sim) eqn:H1; simpl in Hs.
      * destruct (Qltb similarity_threshold sim) eqn:H2; injection Hs as <-.
        -- simpl in Hle. apply Qltb_lt in H1. apply Qltb_lt in H2.
           split; [apply Qle_trans with (y := sim); [apply Qlt_le_weak; exact H1 | exact Hle]|].
           split.
           ++ intros e [<- | Hin] Hne; [|exact (Hall e Hin Hne)].
              rewrite Hemb, Hcos. exists sim. split; [reflexivity | left; exact Hle].
           ++ right. destruct Hres as [-> | (E & HE & Hin & Hc & Ht)].
              ** exists x. simpl. rewrite Hemb.
                 repeat split; try assumption. left. reflexivity.
              ** exists E. repeat split; try assumption. right. exact Hin.
        -- apply Qltb_ge in H2.
           split; [exact Hle|]. split.
           ++ intros e [<- | Hin] Hne; [|exact (Hall e Hin Hne)].
              rewrite Hemb, Hcos. exists sim. split; [reflexivity | right; exact H2].
           ++ destruct Hres as [-> | (E & HE & Hin & Hc & Ht)]; [left; reflexivity|].
              right. exists E. repeat split; try assumption. right. exact Hin.
      * injection Hs as <-. apply Qltb_ge in H1.
        split; [exact Hle|]. split.
        -- intros e [<- | Hin] Hne; [|exact (Hall e Hin Hne)].
           rewrite Hemb, Hcos. exists sim. split; [reflexivity|].
           left. apply Qle_trans with (y := snd acc); assumption.
        -- destruct Hres as [-> | (E & HE & Hin & Hc & Ht)]; [left; reflexivity|].
           right. exists E. repeat split; try assumption. right. exact Hin.
Qed.

Lemma sort_desc_in_iff (x : temp_entry) (l : list temp_entry) :
  In x l -> In x (sort_desc l).
Proof.
  assert (Hins : forall e l', In x (e :: l') -> In x (insert_desc e l')).
  { intros e l'. induction l' as [|y t IH]; simpl; [tauto|].
    destruct (te_entry_timestamp y <=? te_entry_timestamp e)%Z; simpl; [tauto|].
    intros [H | [H | H]]; [right; apply IH; left; exact H | left; exact H |
                           right; apply IH; right; exact H]. }
  induction l as [|e t IH]; simpl; [tauto|].
  intros [H | H]; apply Hins; [left; exact H | right; exact (IH H)].
Qed.

Lemma entries_list_spec (now : Z) (ct : current_trip_info) (s : tracker) (e : temp_entry) :
  In e (entries_list now ct s)
  <-> In e (temp_entries s)
      /\ in_trip (ct_trip_id ct) e = true
      /\ of_bus e = true
      /\ (now - time_window_hours * 3600 <= te_entry_timestamp e)%Z
      /\ te_face_embedding e <> [].
Proof.
  unfold entries_list. split.
  - intros H. apply sort_desc_in in H. apply filter_In in H.
    destruct H as [Hin Hp]. rewrite !andb_true_iff in Hp.
    destruct Hp as [[[H1 H2] H3] H4]. apply Z.leb_le in H3.
    repeat split; try assumption.
    destruct (te_face_embedding e); [discriminate H4 | discriminate].
  - intros (Hin & H1 & H2 & H3 & H4). apply sort_desc_in_iff.
    apply filter_In. split; [exact Hin|].
    rewrite !andb_true_iff. repeat split; try assumption.
    + apply Z.leb_le. exact H3.
    + destruct (te_face_embedding e); [congruence | reflexivity].
Qed.

Lemma search_match_inv (exit_log : face_log) (now : Z) (s : tracker)
    (ct : current_trip_info) (E : temp_entry) (sim : Q) :
  search_entries cosine_similarity exit_log now s = Match ct E sim ->
  current_trip s = Some ct /\ ct_status ct = Active
  /\ best_match_of cosine_similarity (log_face_embedding exit_log)
       (entries_list now ct s) = Some (Some E, sim).
Proof.
  unfold search_entries. intros H.
  destruct (log_face_embedding exit_log) as [|q0 qs]; [discriminate H|].
  destruct (current_trip s) as [ct0|]; [|discriminate H].
  destruct (ct_status ct0) eqn:Hst; [|discriminate H].
  destruct (entries_list now ct0 s) as [|e0 es] eqn:Hl; [discriminate H|].
  destruct (best_match_of _ _ _) as [[[E0|] c]|] eqn:Hf; try discriminate H.
  injection H as <- <- <-. rewrite Hl.
  repeat split; try reflexivity; assumption.
Qed.

(** X9: an entry is matched only if it is an open entry of the current
    trip and of the bus, inside the time window, whose similarity to the
    exit face is above the threshold 0.7; its similarity is the one
    handed back and no candidate has a greater one. *)
Theorem match_is_best_candidate
    (exit_log : face_log) (now : Z) (s : tracker)
    (ct : current_trip_info) (E : temp_entry) (sim : Q) :
  search_entries cosine_similarity exit_log now s = Match ct E sim ->
  current_trip s = Some ct
  /\ ct_status ct = Active
  /\ In E (temp_entries s)
  /\ in_trip (ct_trip_id ct) E = true
  /\ of_bus E = true
  /\ (now - time_window_hours * 3600 <= te_entry_timestamp E)%Z
  /\ cosine_similarity (log_face_embedding exit_log) (te_face_embedding E) = Some sim
  /\ similarity_threshold < sim
  /\ forall e, In e (entries_list now ct s) ->
       exists s', cosine_similarity (log_face_embedding exit_log)
                    (te_face_embedding e) = Some s'
                  /\ s' <= sim.
Proof.
  intros H. destruct (search_match_inv _ _ _ H) as (Hct & Hst & Hbest).
  unfold best_match_of in Hbest.
  destruct (match_loop_spec _ _ _ Hbest) as (_ & Hall & Hres).
  destruct Hres as [Hres | (E' & HE & Hin & Hcos & Hthr)]; [discriminate Hres|].
  simpl in HE, Hcos, Hthr. injection HE as <-.
  apply entries_list_spec in Hin. destruct Hin as (Hin & H1 & H2 & H3 & H4).
  repeat split; try assumption.
  intros e He.
  assert (Hne : te_face_embedding e <> []) by (apply entries_list_spec in He; apply He).
  destruct (Hall e He Hne) as (s' & Hs' & [Hle | Hle]).
  - exists s'. split; [exact Hs' | exact Hle].
  - exists s'. split; [exact Hs'|].
    apply Qle_trans with (y := similarity_threshold);
      [exact Hle | apply Qlt_le_weak; exact Hthr].
Qed.

Lemma fold_try_total (emb : embedding) (l : list temp_entry) :
  (forall e, In e l ->
     exists s', cosine_similarity emb (te_face_embedding e) = Some s') ->
  forall acc, exists res,
    fold_try (match_step cosine_similarity emb) l acc = Some res.
Proof.
  induction l as [|x t IH]; intros Hall acc; simpl.
  - exists acc. reflexivity.
  - assert (Hx : exists acc', match_step cosine_similarity emb acc x = Some acc').
    { unfold match_step. destruct (te_face_embedding x) as [|q0 qs] eqn:He.
      - exists acc. reflexivity.
      - destruct (Hall x (or_introl eq_refl)) as [s' Hs']. rewrite He in Hs'.
        rewrite Hs'. simpl. destruct (_ && _); eexists; reflexivity. }
    destruct Hx as [acc' Hacc']. rewrite Hacc'. simpl.
    apply IH. intros e He. apply Hall. right. exact He.
Qed.

(** X10: during an active trip, when no similarity computation raises
    and some candidate entry is above the threshold, the exit is matched
    and a journey is recorded. *)
Theorem candidate_above_threshold_is_matched
    (exit_log : face_log) (now : Z) (s : tracker)
    (ct : current_trip_info) (e0 : temp_entry) (s0 : Q) :
  current_trip s = Some ct ->
  ct_status ct = Active ->
  log_face_embedding exit_log <> [] ->
  (forall e, In e (entries_list now ct s) ->
     exists s', cosine_similarity (log_face_embedding exit_log)
                  (te_face_embedding e) = Some s') ->
  In e0 (entries_list now ct s) ->
  cosine_similarity (log_face_embedding exit_log) (te_face_embedding e0) = Some s0 ->
  similarity_threshold < s0 ->
  exists E sim journey,
    search_entries cosine_similarity exit_log now s = Match ct E sim
    /\ s0 <= sim
    /\ find_matching_entry float_of_str cosine_similarity calculate_road_distance
         reverse_geocode exit_log now s
       = (fst (finalize_journey float_of_str cosine_similarity
                 calculate_road_distance reverse_geocode exit_log now ct E sim s),
          Some journey, sim)
    /\ entry_face_id journey = te_face_id E.
Proof.
  intros Hct Hst Hemb Hall Hin Hs0 Hthr.
  destruct (@fold_try_total (log_face_embedding exit_log) _ Hall (None, 0))
    as [[r b] Hres].
  destruct (match_loop_spec _ _ _ Hres) as (_ & Hcand & Hfin).
  assert (Hne : te_face_embedding e0 <> [])
    by (apply entries_list_spec in Hin; apply Hin).
  destruct (Hcand e0 Hin Hne) as (s' & Hs' & Hle).
  rewrite Hs0 in Hs'. injection Hs' as <-. simpl in Hle.
  assert (Hsearch : exists E, r = Some E /\ s0 <= b).
  { destruct Hfin as [Heq | (E & HE & _ & _ & Ht)].
    - injection Heq as -> ->. exfalso.
      destruct Hle as [Hle | Hle].
      + apply (Qlt_not_le _ _ Hthr).
        apply Qle_trans with (y := 0); [exact Hle | unfold Qle; simpl; lia].
      + exact (Qlt_not_le _ _ Hthr Hle).
    - simpl in HE, Ht. exists E. split; [exact HE|].
      destruct Hle as [Hle | Hle]; [exact Hle|].
      apply Qle_trans with (y := similarity_threshold);
        [exact Hle | apply Qlt_le_weak; exact Ht]. }
  destruct Hsearch as (E & -> & Hb).
  assert (Hmatch : search_entries cosine_similarity exit_log now s = Match ct E b).
  { unfold search_entries.
    destruct (log_face_embedding exit_log) as [|q0 qs]; [congruence|].
    rewrite Hct, Hst.
    destruct (entries_list now ct s) as [|x xs]; [contradiction|].
    unfold best_match_of. rewrite Hres. reflexivity. }
  exists E, b. eexists. split; [exact Hmatch|]. split; [exact Hb|].
  split.
  - rewrite (find_matching_entry_match float_of_str cosine_similarity
               calculate_road_distance reverse_geocode _ _ _ Hmatch).
    reflexivity.
  - reflexivity.
Qed.

Lemma fold_try_raises (emb : embedding) (l : list temp_entry) (e : temp_entry) :
  In e l ->
  te_face_embedding e <> [] ->
  cosine_similarity emb (te_face_embedding e) = None ->
  forall acc, fold_try (match_step cosine_similarity emb) l acc = None.
Proof.
  intros Hin Hne Hnone.
  induction l as [|x t IH]; intros acc; simpl; [contradiction|].
  destruct Hin as [<- | Hin].
  - unfold match_step. destruct (te_face_embedding x); [congruence|].
    rewrite Hnone. reflexivity.
  - destruct (match_step cosine_similarity emb acc x); simpl; [|reflexivity].
    apply IH. exact Hin.
Qed.

(** X11: when the similarity computation raises for one candidate entry
    (an embedding of another dimension), the whole search is abandoned:
    the answer is [None, 0.0] and nothing is written, even if another
    candidate is above the threshold. *)
Theorem raising_candidate_blocks_matching
    (exit_log : face_log) (now : Z) (s : tracker)
    (ct : current_trip_info) (e : temp_entry) :
  current_trip s = Some ct ->
  In e (entries_list now ct s) ->
  cosine_similarity (log_face_embedding exit_log) (te_face_embedding e) = None ->
  find_matching_entry float_of_str cosine_similarity calculate_road_distance
    reverse_geocode exit_log now s
  = (s, None, 0).
Proof.
  intros Hct Hin Hnone.
  assert (Hne : te_face_embedding e <> [])
    by (apply entries_list_spec in Hin; apply Hin).
  unfold find_matching_entry, search_entries.
  destruct (log_face_embedding exit_log) as [|q0 qs]; [reflexivity|].
  rewrite Hct. destruct (ct_status ct); [|reflexivity].
  destruct (entries_list now ct s) as [|x xs] eqn:Hl; [reflexivity|].
  unfold best_match_of. rewrite (@fold_try_raises _ _ _ Hin Hne Hnone). reflexivity.
Qed.

End MatchMeaning.

Lemma match_is_best_candidate_witness :
  exists E,
    In E (temp_entries one_on_board)
    /\ rational_cosine (log_face_embedding exit_same) (te_face_embedding E) = Some 1
    /\ similarity_threshold < 1.
Proof.
  destruct (search_entries rational_cosine exit_same (t0 + 600) one_on_board)
    as [| b | ct E sim] eqn:Hs; [vm_compute in Hs; discriminate Hs ..|].
  destruct (@match_is_best_candidate rational_cosine exit_same (t0 + 600)
              one_on_board ct E sim Hs)
    as (_ & _ & Hin & _ & _ & _ & Hcos & Hthr & _).
  assert (Hsim : sim = 1) by (vm_compute in Hs; injection Hs as _ _ <-; reflexivity).
  subst sim. exists E. repeat split; assumption.
Defined.

Lemma candidate_above_threshold_is_matched_witness :
  exists E sim,
    search_entries rational_cosine exit_same (t0 + 600) one_on_board
    = Match first_trip E sim
    /\ 1 <= sim.
Proof.
  destruct (temp_entries one_on_board) as [|e0 l] eqn:Hte;
    [vm_compute in Hte; discriminate Hte|].
  assert (Hin : In e0 (entries_list (t0 + 600) first_trip one_on_board)).
  { vm_compute in Hte. injection Hte as He0 Hl. subst e0 l.
    vm_compute. left. reflexivity. }
  assert (Hcos : rational_cosine (log_face_embedding exit_same)
                   (te_face_embedding e0) = Some 1).
  { vm_compute in Hte. injection Hte as He0 Hl. subst e0 l.
    vm_compute. reflexivity. }
  assert (Hall : forall e, In e (entries_list (t0 + 600) first_trip one_on_board) ->
            exists s', rational_cosine (log_face_embedding exit_same)
                         (te_face_embedding e) = Some s').
  { intros e He. vm_compute in He. destruct He as [<- | []].
    eexists. vm_compute. reflexivity. }
  destruct (@candidate_above_threshold_is_matched no_text_number rational_cosine
              no_road_distance no_geocoder exit_same (t0 + 600) one_on_board
              first_trip e0 1 eq_refl eq_refl
              ltac:(discriminate) Hall Hin Hcos eq_refl)
    as (E & sim & journey & Hm & Hle & _).
  exists E, sim. split; assumption.
Defined.

Lemma raising_candidate_blocks_matching_witness :
  find_matching_entry no_text_number rational_cosine no_road_distance
    no_geocoder exit_same (t0 + 600) mixed_on_board
  = (mixed_on_board, None, 0).
Proof.
  destruct (entries_list (t0 + 600) first_trip mixed_on_board) as [|e0 l] eqn:Hl;
    [vm_compute in Hl; discriminate Hl|].
  assert (Hin : In e0 (entries_list (t0 + 600) first_trip mixed_on_board))
    by (rewrite Hl; left; reflexivity).
  assert (Hnone : rational_cosine (log_face_embedding exit_same)
                    (te_face_embedding e0) = None).
  { vm_compute in Hl. injection Hl as He0 _. subst e0. vm_compute. reflexivity. }
  exact (@raising_candidate_blocks_matching no_text_number rational_cosine
           no_road_distance no_geocoder exit_same (t0 + 600) mixed_on_board
           first_trip e0 eq_refl Hin Hnone).
Defined.

(* ------------------------------------------------------------------ *)
(** ** TripLedger: the effect of one log and of a batch of logs *)

Section LedgerEffects.

Variable float_of_str : string -> option Q.
Variable cosine_similarity : embedding -> embedding -> option Q.
Variable calculate_road_distance : Q -> Q -> Q -> Q -> option distance_info.
Variable reverse_geocode : Q -> Q -> option string.

Local Open Scope Q_scope.

Lemma has_active_trip_inv (s : tracker) :
  has_active_trip s = true ->
  exists ct, current_trip s = Some ct /\ ct_status ct = Active.
Proof.
  unfold has_active_trip. destruct (current_trip s) as [ct|]; [|discriminate].
  destruct (ct_status ct) eqn:Hst; [|discriminate].
  intros _. exists ct. split; [reflexivity | assumption].
Qed.

Lemma find_without_match (exit_log : face_log) (now : Z) (s : tracker) :
  snd (fst (find_matching_entry float_of_str cosine_similarity
    calculate_road_distance reverse_geocode exit_log now s)) = None ->
  find_matching_entry float_of_str cosine_similarity
    calculate_road_distance reverse_geocode exit_log now s = (s, None, 0).
Proof.
  unfold find_matching_entry.
  destruct (search_entries cosine_similarity exit_log now s) as [| b | ct E sim] eqn:Hs.
  - reflexivity.
  - rewrite (no_match_similarity_zero _ _ _ _ Hs). reflexivity.
  - simpl. discriminate.
Qed.

Lemma search_needs_active_trip (exit_log : face_log) (now : Z) (s : tracker) :
  has_active_trip s = false ->
  search_entries cosine_similarity exit_log now s = Aborted.
Proof.
  unfold has_active_trip, search_entries. intros H.
  destruct (log_face_embedding exit_log); [reflexivity|].
  destruct (current_trip s) as [ct|]; [|reflexivity].
  destruct (ct_status ct); [discriminate | reflexivity].
Qed.

(** X12: an EXIT log that matches no entry during an active trip adds
    exactly one record to [unmatchedPassengers] and changes nothing
    else; the record is of type EXIT, belongs to the current trip, keeps
    the face of the log and carries the similarity 0. *)
Theorem exit_without_match_is_recorded
    (exit_log : face_log) (now : Z) (s : tracker) :
  log_location_type exit_log = EXIT ->
  has_active_trip s = true ->
  snd (fst (find_matching_entry float_of_str cosine_similarity
    calculate_road_distance reverse_geocode exit_log now s)) = None ->
  exists ct u,
    current_trip s = Some ct
    /\ process_face_log float_of_str cosine_similarity
    calculate_road_distance reverse_geocode exit_log now s
       = (set_unmatched_passengers (unmatched_passengers s ++ [u]) s,
          UnmatchedExit 0 true)
    /\ un_type u = EXIT
    /\ un_trip_id u = ct_trip_id ct
    /\ un_trip_start_time u = ct_start_time ct
    /\ un_face_id u = log_face_id exit_log
    /\ un_face_embedding u = log_face_embedding exit_log
    /\ un_timestamp u = _parse_timestamp_safe now (log_timestamp exit_log)
    /\ best_similarity_found u = 0.
Proof.
  intros Hty Hact Hnone.
  destruct (has_active_trip_inv _ Hact) as (ct & Hct & Hst).
  pose proof (find_without_match _ _ _ Hnone) as Hfind.
  exists ct. eexists. split; [exact Hct|]. split.
  - unfold process_face_log. rewrite Hty, Hfind. cbn [fst snd].
    unfold store_unmatched_exit. rewrite Hct, Hst. cbn [fst snd]. reflexivity.
  - repeat split; reflexivity.
Qed.

(** X13: without an active trip an EXIT log leaves no trace: nothing is
    searched, nothing is stored, and the answer carries the similarity 0
    and no unmatched id. *)
Theorem exit_without_active_trip_is_dropped
    (exit_log : face_log) (now : Z) (s : tracker) :
  log_location_type exit_log = EXIT ->
  has_active_trip s = false ->
  process_face_log float_of_str cosine_similarity
    calculate_road_distance reverse_geocode exit_log now s = (s, UnmatchedExit 0 false).
Proof.
  intros Hty Hact.
  unfold process_face_log, find_matching_entry.
  rewrite Hty, (search_needs_active_trip _ _ _ Hact). cbn [fst snd].
  unfold store_unmatched_exit. unfold has_active_trip in Hact.
  destruct (current_trip s) as [ct|]; [|reflexivity].
  destruct (ct_status ct); [discriminate | reflexivity].
Qed.

Lemma start_new_trip_fresh (now : Z) (s : tracker) :
  has_active_trip s = false ->
  current_trip (fst (start_new_trip None None now s))
  = Some {| ct_trip_id := generate_trip_id now;
            ct_start_time := now;
            ct_status := Active;
            ct_id := next_oid (cleanup_orphans now s) |}
  /\ temp_entries (fst (start_new_trip None None now s))
     = delete_many of_bus (temp_entries s)
  /\ final_passengers (fst (start_new_trip None None now s)) = final_passengers s.
Proof.
  intros H. unfold start_new_trip. rewrite H. cbn [fst].
  split; [reflexivity|]. split.
  - change (temp_entries (cleanup_orphans now s) = delete_many of_bus (temp_entries s)).
    apply (cleanup_orphans_state now s).
  - change (final_passengers (cleanup_orphans now s) = final_passengers s).
    unfold cleanup_orphans. destruct (filter of_bus (temp_entries s)); reflexivity.
Qed.

Lemma store_entry_spec (log_entry : face_log) (now : Z) (s : tracker) :
  exists ct e,
    current_trip (fst (store_entry cosine_similarity log_entry now s)) = Some ct
    /\ ct_status ct = Active
    /\ snd (store_entry cosine_similarity log_entry now s) = Some (te_id e)
    /\ te_trip_id e = ct_trip_id ct
    /\ te_bus_id e = bus_id
    /\ te_face_id e = log_face_id log_entry
    /\ te_face_embedding e = log_face_embedding log_entry
    /\ te_entry_timestamp e = _parse_timestamp_safe now (log_timestamp log_entry)
    /\ final_passengers (fst (store_entry cosine_similarity log_entry now s))
       = final_passengers s
    /\ (has_active_trip s = true ->
        current_trip s = Some ct
        /\ te_id e = next_oid s
        /\ temp_entries (fst (store_entry cosine_similarity log_entry now s))
           = temp_entries s ++ [e]
        /\ unmatched_passengers (fst (store_entry cosine_similarity log_entry now s))
           = unmatched_passengers s
        /\ trip_sessions (fst (store_entry cosine_similarity log_entry now s))
           = trip_sessions s)
    /\ (has_active_trip s = false ->
        ct_trip_id ct = generate_trip_id now
        /\ temp_entries (fst (store_entry cosine_similarity log_entry now s))
           = delete_many of_bus (temp_entries s) ++ [e]
        /\ filter of_bus (temp_entries (fst (store_entry cosine_similarity log_entry now s)))
           = [e]).
Proof.
  destruct (has_active_trip s) eqn:Hact.
  - destruct (has_active_trip_inv _ Hact) as (ct & Hct & Hst).
    exists ct. unfold store_entry. rewrite Hact, Hct. cbn [fst snd].
    eexists (Build_temp_entry _ _ _ _ _ _ _ _ _ _ _ _). split; [exact Hct|]. split; [exact Hst|].
    split; [reflexivity|].
    repeat (split; [reflexivity|]).
    split; [|discriminate].
    intros _. repeat (split; [reflexivity|]). reflexivity.
  - destruct (start_new_trip_fresh now s Hact) as (Hct & Hte & Hfp).
    eexists. unfold store_entry. rewrite Hact, Hct. cbn [fst snd].
    eexists (Build_temp_entry _ _ _ _ _ _ _ _ _ _ _ _). split; [reflexivity|]. split; [reflexivity|].
    split; [reflexivity|].
    repeat (split; [reflexivity|]).
    split; [exact Hfp|]. split; [discriminate|].
    intros _. split; [reflexivity|].
    cbn [temp_entries set_next_oid set_temp_entries]. rewrite Hte.
    split; [reflexivity|].
    rewrite filter_app, delete_many_none. reflexivity.
Qed.

(** X14: [store_entry] always stores the entry: it answers with the
    [_id] of a new open entry that belongs to an active current trip and
    to this bus and keeps the face of the log.  During an active trip
    only the buffer grows, by this entry; without one a trip is started
    first, the open entries of the bus are cleared, and the new entry is
    then the only open entry of the bus. *)
Theorem store_entry_opens_scoped_entry (log_entry : face_log) (now : Z) (s : tracker) :
  exists ct e,
    current_trip (fst (store_entry cosine_similarity log_entry now s)) = Some ct
    /\ ct_status ct = Active
    /\ snd (store_entry cosine_similarity log_entry now s) = Some (te_id e)
    /\ te_trip_id e = ct_trip_id ct
    /\ te_bus_id e = bus_id
    /\ te_face_id e = log_face_id log_entry
    /\ te_face_embedding e = log_face_embedding log_entry
    /\ te_entry_timestamp e = _parse_timestamp_safe now (log_timestamp log_entry)
    /\ final_passengers (fst (store_entry cosine_similarity log_entry now s))
       = final_passengers s
    /\ (has_active_trip s = true ->
        current_trip s = Some ct
        /\ te_id e = next_oid s
        /\ temp_entries (fst (store_entry cosine_similarity log_entry now s))
           = temp_entries s ++ [e]
        /\ unmatched_passengers (fst (store_entry cosine_similarity log_entry now s))
           = unmatched_passengers s
        /\ trip_sessions (fst (store_entry cosine_similarity log_entry now s))
           = trip_sessions s)
    /\ (has_active_trip s = false ->
        ct_trip_id ct = generate_trip_id now
        /\ temp_entries (fst (store_entry cosine_similarity log_entry now s))
           = delete_many of_bus (temp_entries s) ++ [e]
        /\ filter of_bus (temp_entries (fst (store_entry cosine_similarity log_entry now s)))
           = [e]).
Proof. exact (store_entry_spec log_entry now s). Qed.

Lemma delete_one_length (l : list temp_entry) (E : temp_entry) :
  In E l ->
  S (List.length (delete_one (fun e => Nat.eqb (te_id e) (te_id E)) l))
  = List.length l.
Proof.
  induction l as [|x t IH]; intros Hin; [destruct Hin|].
  cbn [delete_one]. destruct (Nat.eqb (te_id x) (te_id E)) eqn:Hx.
  - reflexivity.
  - destruct Hin as [-> | Hin].
    + rewrite Nat.eqb_refl in Hx. discriminate.
    + cbn [List.length]. rewrite (IH Hin). reflexivity.
Qed.

(** One EXIT log: either a journey is recorded and one entry leaves the
    buffer, or nothing but [unmatchedPassengers] changes. *)
Lemma exit_step (log : face_log) (now : Z) (s : tracker) :
  log_location_type log = EXIT ->
  current_trip (fst (process_face_log float_of_str cosine_similarity
                       calculate_road_distance reverse_geocode log now s))
  = current_trip s
  /\ is_stored_entry (snd (process_face_log float_of_str cosine_similarity
                             calculate_road_distance reverse_geocode log now s)) = false
  /\ ((is_matched_journey (snd (process_face_log float_of_str cosine_similarity
                                  calculate_road_distance reverse_geocode log now s)) = true
       /\ is_unmatched_exit (snd (process_face_log float_of_str cosine_similarity
                                    calculate_road_distance reverse_geocode log now s)) = false
       /\ List.length (final_passengers
                         (fst (process_face_log float_of_str cosine_similarity
                                 calculate_road_distance reverse_geocode log now s)))
          = S (List.length (final_passengers s))
       /\ S (List.length (temp_entries
                            (fst (process_face_log float_of_str cosine_similarity
                                    calculate_road_distance reverse_geocode log now s))))
          = List.length (temp_entries s)
       /\ unmatched_passengers
            (fst (process_face_log float_of_str cosine_similarity
                    calculate_road_distance reverse_geocode log now s))
          = unmatched_passengers s)
      \/ (is_matched_journey (snd (process_face_log float_of_str cosine_similarity
                                     calculate_road_distance reverse_geocode log now s)) = false
          /\ is_unmatched_exit (snd (process_face_log float_of_str cosine_similarity
                                       calculate_road_distance reverse_geocode log now s)) = true
          /\ final_passengers
               (fst (process_face_log float_of_str cosine_similarity
                       calculate_road_distance reverse_geocode log now s))
             = final_passengers s
          /\ temp_entries
               (fst (process_face_log float_of_str cosine_similarity
                       calculate_road_distance reverse_geocode log now s))
             = temp_entries s
          /\ List.length (unmatched_passengers
                            (fst (process_face_log float_of_str cosine_similarity
                                    calculate_road_distance reverse_geocode log now s)))
             = (List.length (unmatched_passengers s)
                + (if has_active_trip s then 1 else 0))%nat)).
Proof.
  intros Hty.
  destruct (search_entries cosine_similarity log now s) as [| b | ct E sim] eqn:Hs.
  1,2: assert (Hfind : find_matching_entry float_of_str cosine_similarity
                         calculate_road_distance reverse_geocode log now s
                       = (s, None, 0))
         by (unfold find_matching_entry; rewrite Hs;
             try rewrite (no_match_similarity_zero _ _ _ _ Hs); reflexivity).
  1,2: unfold process_face_log; rewrite Hty, Hfind; cbn [fst snd];
       unfold store_unmatched_exit, has_active_trip;
       destruct (current_trip s) as [c|] eqn:Hc;
       [destruct (ct_status c)|]; cbn [fst snd];
       (split; [first [reflexivity | exact Hc]|]); (split; [reflexivity|]); right;
       repeat (split; [reflexivity|]);
       cbn [unmatched_passengers set_unmatched_passengers];
       rewrite ?length_app; cbn [List.length]; lia.
  pose proof (find_matching_entry_match float_of_str cosine_similarity
                calculate_road_distance reverse_geocode _ _ _ Hs) as Hfind.
  destruct (search_match_in _ _ _ _ Hs) as [HinE _].
  unfold process_face_log. rewrite Hty, Hfind. cbn [fst snd].
  split; [reflexivity|]. split; [reflexivity|]. left.
  split; [reflexivity|]. split; [reflexivity|]. split.
  - rewrite finalize_journey_recorded, length_app. cbn [List.length]. lia.
  - split; [|reflexivity].
    rewrite finalize_journey_temp_entries. apply delete_one_length. exact HinE.
Qed.

Lemma has_active_trip_same (s s' : tracker) :
  current_trip s' = current_trip s -> has_active_trip s' = has_active_trip s.
Proof. unfold has_active_trip. intros ->. reflexivity. Qed.

Lemma exit_batch_counts (logs : list (face_log * Z)) :
  forall s,
    current_trip (fst (process_logs float_of_str cosine_similarity
                         calculate_road_distance reverse_geocode EXIT logs s))
    = current_trip s
    /\ (matched_journeys (summary_of (snd (process_logs float_of_str cosine_similarity
                            calculate_road_distance reverse_geocode EXIT logs s)))
        + unmatched_exits (summary_of (snd (process_logs float_of_str cosine_similarity
                             calculate_road_distance reverse_geocode EXIT logs s)))
        = List.length logs)%nat
    /\ stored_entries (summary_of (snd (process_logs float_of_str cosine_similarity
                         calculate_road_distance reverse_geocode EXIT logs s))) = 0%nat
    /\ List.length (final_passengers
                      (fst (process_logs float_of_str cosine_similarity
                              calculate_road_distance reverse_geocode EXIT logs s)))
       = (List.length (final_passengers s)
          + matched_journeys (summary_of (snd (process_logs float_of_str cosine_similarity
                                calculate_road_distance reverse_geocode EXIT logs s))))%nat
    /\ (List.length (temp_entries
                       (fst (process_logs float_of_str cosine_similarity
                               calculate_road_distance reverse_geocode EXIT logs s)))
        + matched_journeys (summary_of (snd (process_logs float_of_str cosine_similarity
                              calculate_road_distance reverse_geocode EXIT logs s))))%nat
       = List.length (temp_entries s)
    /\ List.length (unmatched_passengers
                      (fst (process_logs float_of_str cosine_similarity
                              calculate_road_distance reverse_geocode EXIT logs s)))
       = (List.length (unmatched_passengers s)
          + (if has_active_trip s
             then unmatched_exits
                    (summary_of (snd (process_logs float_of_str cosine_similarity
                                        calculate_road_distance reverse_geocode EXIT logs s)))
             else 0))%nat.
Proof.
  induction logs as [|[log now] rest IH]; intros s.
  - cbn. destruct (has_active_trip s); repeat split; lia.
  - cbn [process_logs fst snd].
    set (r1 := process_face_log float_of_str cosine_similarity calculate_road_distance
                 reverse_geocode (with_location_type EXIT log) now s).
    destruct (exit_step (with_location_type EXIT log) now s eq_refl)
      as (Hct & Hst & Hcase).
    fold r1 in Hct, Hst, Hcase.
    destruct (IH (fst r1)) as (Ict & Isum & Ist & Ifp & Ite & Iun).
    rewrite (has_active_trip_same _ _ Hct) in Iun.
    unfold summary_of in *. cbn [matched_journeys stored_entries unmatched_exits] in *.
    cbn [filter List.length]. rewrite Hst.
    split; [congruence|].
    destruct Hcase as [(Hm & Hu & Hfp & Hte & Hun) | (Hm & Hu & Hfp & Hte & Hun)];
      rewrite Hm, Hu; cbn [List.length].
    + rewrite Hun in Iun.
      repeat split; try lia; destruct (has_active_trip s); lia.
    + rewrite Hfp in Ifp. rewrite Hte in Ite.
      repeat split; try lia; destruct (has_active_trip s); lia.
Qed.

(** X15: a batch of EXIT logs is accounted for log by log: every log is
    answered by a matched journey or an unmatched exit, each matched
    journey moves exactly one record from the buffer to the passenger
    list, the current trip is kept, and during an active trip each
    unmatched exit adds one unmatched record. *)
Theorem exit_batch_accounting
    (path : logs_path) (logs : list (face_log * Z)) (s s' : tracker)
    (results : list response) (summary : processing_summary) :
  batch_location_type path (map fst logs) = EXIT ->
  do_POST_logs float_of_str cosine_similarity calculate_road_distance
    reverse_geocode path logs s = (s', results, summary) ->
  (matched_journeys summary + unmatched_exits summary = List.length logs)%nat
  /\ stored_entries summary = 0%nat
  /\ List.length (final_passengers s')
     = (List.length (final_passengers s) + matched_journeys summary)%nat
  /\ (List.length (temp_entries s') + matched_journeys summary)%nat
     = List.length (temp_entries s)
  /\ current_trip s' = current_trip s
  /\ List.length (unmatched_passengers s')
     = (List.length (unmatched_passengers s)
        + (if has_active_trip s then unmatched_exits summary else 0))%nat.
Proof.
  intros Hty Hres. unfold do_POST_logs in Hres. rewrite Hty in Hres.
  cbv zeta in Hres. injection Hres as Hs' Hr Hsum. subst s' results summary.
  destruct (exit_batch_counts logs s) as (Hct & Hsum & Hst & Hfp & Hte & Hun).
  repeat split; assumption.
Qed.

Lemma entry_step (log : face_log) (now : Z) (s : tracker) :
  log_location_type log = ENTRY ->
  has_active_trip (fst (process_face_log float_of_str cosine_similarity
                          calculate_road_distance reverse_geocode log now s)) = true
  /\ is_stored_entry (snd (process_face_log float_of_str cosine_similarity
                             calculate_road_distance reverse_geocode log now s)) = true
  /\ is_matched_journey (snd (process_face_log float_of_str cosine_similarity
                                calculate_road_distance reverse_geocode log now s)) = false
  /\ is_unmatched_exit (snd (process_face_log float_of_str cosine_similarity
                               calculate_road_distance reverse_geocode log now s)) = false
  /\ final_passengers (fst (process_face_log float_of_str cosine_similarity
                              calculate_road_distance reverse_geocode log now s))
     = final_passengers s
  /\ (has_active_trip s = true ->
      current_trip (fst (process_face_log float_of_str cosine_similarity
                           calculate_road_distance reverse_geocode log now s))
      = current_trip s
      /\ map te_face_id
           (temp_entries (fst (process_face_log float_of_str cosine_similarity
                                 calculate_road_distance reverse_geocode log now s)))
         = map te_face_id (temp_entries s) ++ [log_face_id log]
      /\ unmatched_passengers
           (fst (process_face_log float_of_str cosine_similarity
                   calculate_road_distance reverse_geocode log now s))
         = unmatched_passengers s).
Proof.
  intros Hty.
  destruct (store_entry_spec log now s)
    as (ct & e & Hct & Hst & Hsnd & _ & _ & Hfid & _ & _ & Hfp & Hact & _).
  unfold process_face_log. rewrite Hty. cbv zeta. rewrite Hsnd. cbn [fst snd].
  split; [unfold has_active_trip; rewrite Hct, Hst; reflexivity|].
  repeat (split; [reflexivity|]). split; [exact Hfp|].
  intros Ha. destruct (Hact Ha) as (Hc & _ & Hte & Hun & _).
  split; [congruence|]. split; [|exact Hun].
  rewrite Hte, map_app. cbn [map]. rewrite Hfid. reflexivity.
Qed.

Lemma entry_batch_counts (logs : list (face_log * Z)) :
  forall s,
    stored_entries (summary_of (snd (process_logs float_of_str cosine_similarity
                       calculate_road_distance reverse_geocode ENTRY logs s)))
    = List.length logs
    /\ matched_journeys (summary_of (snd (process_logs float_of_str cosine_similarity
                           calculate_road_distance reverse_geocode ENTRY logs s))) = 0%nat
    /\ unmatched_exits (summary_of (snd (process_logs float_of_str cosine_similarity
                          calculate_road_distance reverse_geocode ENTRY logs s))) = 0%nat
    /\ final_passengers (fst (process_logs float_of_str cosine_similarity
                                calculate_road_distance reverse_geocode ENTRY logs s))
       = final_passengers s
    /\ (logs <> [] ->
        has_active_trip (fst (process_logs float_of_str cosine_similarity
                                calculate_road_distance reverse_geocode ENTRY logs s))
        = true)
    /\ (has_active_trip s = true ->
        current_trip (fst (process_logs float_of_str cosine_similarity
                             calculate_road_distance reverse_geocode ENTRY logs s))
        = current_trip s
        /\ map te_face_id
             (temp_entries (fst (process_logs float_of_str cosine_similarity
                                   calculate_road_distance reverse_geocode ENTRY logs s)))
           = map te_face_id (temp_entries s) ++ map (fun p => log_face_id (fst p)) logs
        /\ unmatched_passengers
             (fst (process_logs float_of_str cosine_similarity
                     calculate_road_distance reverse_geocode ENTRY logs s))
           = unmatched_passengers s).
Proof.
  induction logs as [|[log now] rest IH]; intros s.
  - cbn. repeat split; try reflexivity; try congruence.
    rewrite app_nil_r. reflexivity.
  - cbn [process_logs fst snd].
    set (r1 := process_face_log float_of_str cosine_similarity calculate_road_distance
                 reverse_geocode (with_location_type ENTRY log) now s).
    destruct (entry_step (with_location_type ENTRY log) now s eq_refl)
      as (Hact1 & Hst & Hm & Hu & Hfp & Hkeep).
    fold r1 in Hact1, Hst, Hm, Hu, Hfp, Hkeep.
    destruct (IH (fst r1)) as (Ist & Im & Iu & Ifp & _ & Ikeep).
    destruct (Ikeep Hact1) as (Kct & Kte & Kun).
    unfold summary_of in *. cbn [matched_journeys stored_entries unmatched_exits] in *.
    cbn [filter List.length]. rewrite Hst, Hm, Hu. cbn [List.length].
    split; [lia|]. split; [exact Im|]. split; [exact Iu|].
    split; [congruence|]. split.
    + intros _. rewrite (has_active_trip_same _ _ Kct). exact Hact1.
    + intros Ha. destruct (Hkeep Ha) as (Hc & Hte & Hun).
      split; [congruence|]. split; [|congruence].
      rewrite Kte, Hte. cbn [map fst with_location_type log_face_id].
      rewrite <- app_assoc. reflexivity.
Qed.

(** X16: a batch that is treated as ENTRY stores every log as an open
    entry, whatever type the single logs carry: the summary counts as
    many stored entries as logs and nothing else, no journey is written,
    a trip is active afterwards, and during an active trip the buffer
    grows by the faces of the batch, in order. *)
Theorem entry_batch_accounting
    (path : logs_path) (logs : list (face_log * Z)) (s s' : tracker)
    (results : list response) (summary : processing_summary) :
  batch_location_type path (map fst logs) = ENTRY ->
  do_POST_logs float_of_str cosine_similarity calculate_road_distance
    reverse_geocode path logs s = (s', results, summary) ->
  stored_entries summary = List.length logs
  /\ matched_journeys summary = 0%nat
  /\ unmatched_exits summary = 0%nat
  /\ final_passengers s' = final_passengers s
  /\ (logs <> [] -> has_active_trip s' = true)
  /\ (has_active_trip s = true ->
      current_trip s' = current_trip s
      /\ map te_face_id (temp_entries s')
         = map te_face_id (temp_entries s) ++ map (fun p => log_face_id (fst p)) logs
      /\ unmatched_passengers s' = unmatched_passengers s).
Proof.
  intros Hty Hres. unfold do_POST_logs in Hres. rewrite Hty in Hres.
  cbv zeta in Hres. injection Hres as Hs' Hr Hsum. subst s' results summary.
  exact (entry_batch_counts logs s).
Qed.

(** X17: a batch whose location type is neither ENTRY nor EXIT (an empty
    batch on [/api/face-logs], or one whose first log has another type)
    changes nothing: every log is answered by an error, also logs that
    are labelled ENTRY or EXIT themselves. *)
Theorem unknown_batch_is_ignored
    (path : logs_path) (logs : list (face_log * Z)) (s : tracker) :
  batch_location_type path (map fst logs) = UnknownType ->
  do_POST_logs float_of_str cosine_similarity calculate_road_distance
    reverse_geocode path logs s
  = (s, map (fun _ => UnknownLocationType) logs,
     {| matched_journeys := 0; stored_entries := 0; unmatched_exits := 0 |}).
Proof.
  intros Hty. unfold do_POST_logs. rewrite Hty. cbv zeta.
  assert (H : process_logs float_of_str cosine_similarity calculate_road_distance
                reverse_geocode UnknownType logs s
              = (s, map (fun _ => UnknownLocationType) logs)).
  { clear Hty. induction logs as [|[log now] rest IH]; [reflexivity|].
    cbn [process_logs]. unfold process_face_log.
    cbn [with_location_type log_location_type fst snd].
    rewrite IH. reflexivity. }
  rewrite H. cbn [fst snd]. unfold summary_of. f_equal.
  clear. induction logs as [|a rest IH]; [reflexivity|].
  cbn [map filter]. cbn. injection IH as H1 H2 H3.
  cbn in H1, H2, H3. rewrite H1, H2, H3. reflexivity.
Qed.

(** X18: the ids of the buffer stay distinct and below the counter
    through every batch of logs, of any endpoint. *)
Theorem batch_keeps_buffer_ids_distinct
    (path : logs_path) (logs : list (face_log * Z)) (s : tracker) :
  buffer_ok s ->
  buffer_ok (fst (fst (do_POST_logs float_of_str cosine_similarity
                         calculate_road_distance reverse_geocode path logs s))).
Proof.
  unfold do_POST_logs. cbv zeta. cbn [fst].
  generalize (batch_location_type path (map fst logs)). intros ty.
  revert s. induction logs as [|[log now] rest IH]; intros s Hok; [exact Hok|].
  cbn [process_logs fst]. apply IH.
  apply process_face_log_buffer_ok. exact Hok.
Qed.

End LedgerEffects.

Lemma exit_without_match_is_recorded_witness :
  exists u,
    process_face_log no_text_number rational_cosine no_road_distance no_geocoder
      exit_half (t0 + 600) one_on_board
    = (set_unmatched_passengers (unmatched_passengers one_on_board ++ [u]) one_on_board,
       UnmatchedExit 0 true)
    /\ un_type u = EXIT.
Proof.
  destruct (@exit_without_match_is_recorded no_text_number rational_cosine
              no_road_distance no_geocoder exit_half (t0 + 600) one_on_board
              eq_refl eq_refl eq_refl)
    as (ct & u & _ & Hp & Hu & _).
  exists u. split; assumption.
Defined.

Lemma exit_without_active_trip_is_dropped_witness :
  process_face_log no_text_number rational_cosine no_road_distance no_geocoder
    exit_same (t0 + 600) empty_tracker
  = (empty_tracker, UnmatchedExit 0 false).
Proof.
  exact (@exit_without_active_trip_is_dropped no_text_number rational_cosine
           no_road_distance no_geocoder exit_same (t0 + 600) empty_tracker
           eq_refl eq_refl).
Defined.

Lemma exit_batch_accounting_witness :
  exists s' results,
    do_POST_logs no_text_number rational_cosine no_road_distance no_geocoder
      ExitLogs exit_batch one_on_board
    = (s', results,
       {| matched_journeys := 1; stored_entries := 0; unmatched_exits := 1 |})
    /\ List.length (final_passengers s') = 1%nat
    /\ temp_entries s' = [].
Proof.
  destruct (do_POST_logs no_text_number rational_cosine no_road_distance no_geocoder
              ExitLogs exit_batch one_on_board) as [[s' results] summary] eqn:Hres.
  destruct (@exit_batch_accounting no_text_number rational_cosine no_road_distance
              no_geocoder ExitLogs exit_batch one_on_board s' results summary
              eq_refl Hres)
    as (_ & _ & Hfp & Hte & _).
  assert (Hsum : summary
                 = {| matched_journeys := 1; stored_entries := 0; unmatched_exits := 1 |}).
  { vm_compute in Hres. injection Hres as _ _ <-. reflexivity. }
  subst summary. cbn [matched_journeys] in Hfp, Hte.
  exists s', results. split; [reflexivity|]. split.
  - rewrite Hfp. reflexivity.
  - assert (Hlen : List.length (temp_entries one_on_board) = 1%nat) by reflexivity.
    rewrite Hlen in Hte. destruct (temp_entries s'); [reflexivity|].
    cbn [List.length] in Hte. lia.
Defined.

Lemma entry_batch_accounting_witness :
  exists s' results,
    do_POST_logs no_text_number rational_cosine no_road_distance no_geocoder
      FaceLogs mixed_batch one_on_board
    = (s', results,
       {| matched_journeys := 0; stored_entries := 2; unmatched_exits := 0 |})
    /\ map te_face_id (temp_entries s') = [1; 5; 6]%Z.
Proof.
  destruct (do_POST_logs no_text_number rational_cosine no_road_distance no_geocoder
              FaceLogs mixed_batch one_on_board) as [[s' results] summary] eqn:Hres.
  destruct (@entry_batch_accounting no_text_number rational_cosine no_road_distance
              no_geocoder FaceLogs mixed_batch one_on_board s' results summary
              eq_refl Hres)
    as (Hst & Hm & Hu & _ & _ & Hkeep).
  destruct (Hkeep eq_refl) as (_ & Hte & _).
  exists s', results. split.
  - destruct summary as [m st u]. cbn in Hst, Hm, Hu. subst. reflexivity.
  - rewrite Hte. reflexivity.
Defined.

Lemma unknown_batch_is_ignored_witness :
  do_POST_logs no_text_number rational_cosine no_road_distance no_geocoder
    FaceLogs stray_batch one_on_board
  = (one_on_board,
     [UnknownLocationType; UnknownLocationType; UnknownLocationType],
     {| matched_journeys := 0; stored_entries := 0; unmatched_exits := 0 |}).
Proof.
  exact (@unknown_batch_is_ignored no_text_number rational_cosine no_road_distance
           no_geocoder FaceLogs stray_batch one_on_board eq_refl).
Defined.

Lemma batch_keeps_buffer_ids_distinct_witness :
  buffer_ok (fst (fst (do_POST_logs no_text_number rational_cosine no_road_distance
                         no_geocoder EntryLogs mixed_batch empty_tracker))).
Proof.
  apply (@batch_keeps_buffer_ids_distinct no_text_number rational_cosine
           no_road_distance no_geocoder EntryLogs mixed_batch empty_tracker).
  split; [constructor | intros e []].
Defined.

(* ------------------------------------------------------------------ *)
(** ** TripLedger: ending and starting trips *)

Lemma update_one_hit (k : nat) (f : trip_session -> trip_session)
    (l : list trip_session) :
  (exists x, In x l /\ ts_id x = k) ->
  exists x, In x l /\ ts_id x = k
            /\ In (f x) (update_one (fun ts => Nat.eqb (ts_id ts) k) f l).
Proof.
  induction l as [|y t IH]; intros (x & Hin & Hk); [destruct Hin|].
  cbn [update_one]. destruct (Nat.eqb (ts_id y) k) eqn:Hy.
  - apply Nat.eqb_eq in Hy. exists y.
    split; [left; reflexivity|]. split; [exact Hy | left; reflexivity].
  - destruct Hin as [-> | Hin].
    + rewrite Hk, Nat.eqb_refl in Hy. discriminate.
    + destruct IH as (x' & Hin' & Hk' & Hup); [exists x; split; assumption|].
      exists x'. split; [right; exact Hin'|]. split; [exact Hk' | right; exact Hup].
Qed.

Lemma filter_after_delete_many (p q : temp_entry -> bool) (l : list temp_entry) :
  filter (fun e => p e && q e) (delete_many p l) = [].
Proof.
  unfold delete_many. induction l as [|x t IH]; [reflexivity|].
  cbn [filter]. destruct (p x) eqn:Hp; cbn [negb]; [exact IH|].
  cbn [filter]. rewrite Hp. exact IH.
Qed.

Lemma current_session_exists (s : tracker) (ct : current_trip_info) :
  ledger_ok s -> current_trip s = Some ct ->
  exists ts, In ts (trip_sessions s) /\ ts_id ts = ct_id ct.
Proof.
  intros (_ & _ & Hcur) Hct. rewrite Hct in Hcur. destruct Hcur as [_ Hids].
  unfold active_sessions in Hids.
  destruct (filter session_active (trip_sessions s)) as [|ts rest] eqn:Hf;
    [discriminate|].
  exists ts. split.
  - assert (Hin : In ts (filter session_active (trip_sessions s)))
      by (rewrite Hf; left; reflexivity).
    apply filter_In in Hin. apply Hin.
  - cbn [map] in Hids. injection Hids as Hid _. exact Hid.
Qed.

(** X19: [end_current_trip] is idempotent: once a trip was ended (or when
    none was current) a further call answers [False] and changes
    nothing. *)
Theorem end_current_trip_twice (now now' : Z) (s : tracker) :
  end_current_trip now' (fst (end_current_trip now s))
  = (fst (end_current_trip now s), false).
Proof.
  destruct (current_trip s) as [ct|] eqn:Hct.
  - destruct (end_current_trip_state now s Hct) as (Hnone & _).
    unfold end_current_trip at 1. rewrite Hnone. reflexivity.
  - assert (He : end_current_trip now s = (s, false))
      by (unfold end_current_trip; rewrite Hct; reflexivity).
    rewrite He. cbn [fst]. unfold end_current_trip. rewrite Hct. reflexivity.
Qed.

(** X20: ending the current trip of a coherent ledger closes it: no trip
    of the bus is active afterwards, the session of the trip is
    completed at the time of the call with the number of recorded
    journeys of the trip and the number of its open entries, these open
    entries are all moved to [unmatchedPassengers], and the recorded
    journeys are untouched. *)
Theorem end_current_trip_closes_session
    (now : Z) (s : tracker) (ct : current_trip_info) :
  ledger_ok s ->
  current_trip s = Some ct ->
  snd (end_current_trip now s) = true
  /\ current_trip (fst (end_current_trip now s)) = None
  /\ active_sessions (fst (end_current_trip now s)) = []
  /\ open_entries_of (ct_trip_id ct) (fst (end_current_trip now s)) = []
  /\ final_passengers (fst (end_current_trip now s)) = final_passengers s
  /\ List.length (unmatched_passengers (fst (end_current_trip now s)))
     = (List.length (unmatched_passengers s)
        + List.length (open_entries_of (ct_trip_id ct) s))%nat
  /\ exists ts,
       In ts (trip_sessions (fst (end_current_trip now s)))
       /\ ts_id ts = ct_id ct
       /\ ts_status ts = Completed
       /\ ts_end_time ts = Some now
       /\ total_passengers ts
          = count_documents (fun fp => trip_id_eqb (fp_trip_id fp) (ct_trip_id ct))
              (final_passengers s)
       /\ total_unmatched ts = List.length (open_entries_of (ct_trip_id ct) s).
Proof.
  intros Hok Hct.
  destruct (end_current_trip_ok now Hok) as [Hok' Hnone].
  destruct (current_session_exists Hok Hct) as (ts0 & Hin0 & Hid0).
  split; [unfold end_current_trip; rewrite Hct; reflexivity|].
  split; [exact Hnone|].
  split.
  { destruct Hok' as (_ & _ & Hcur). rewrite Hnone in Hcur. exact Hcur. }
  unfold end_current_trip. rewrite Hct. cbn [fst].
  split.
  { unfold open_entries_of.
    cbn [temp_entries set_current_trip set_trip_sessions set_temp_entries
         set_unmatched_passengers].
    apply filter_after_delete_many. }
  split; [reflexivity|].
  split.
  { cbn [unmatched_passengers set_current_trip set_trip_sessions set_temp_entries
         set_unmatched_passengers].
    rewrite length_app, length_map. reflexivity. }
  cbn [trip_sessions set_current_trip set_trip_sessions set_temp_entries
       set_unmatched_passengers].
  match goal with
  | |- exists ts, In ts (update_one ?p ?f ?l) /\ _ =>
      destruct (@update_one_hit (ct_id ct) f l) as (x & Hx & Hidx & Hup);
        [exists ts0; split; assumption|]; exists (f x)
  end.
  split; [exact Hup|]. cbn.
  split; [exact Hidx|]. repeat split; reflexivity.
Qed.

(** X21: without a GPS fix [start_new_trip] leaves a coherent ledger with
    exactly one active trip of the bus, which is the current trip and
    the trip whose id is returned, and no open entry of the bus. *)
Theorem start_without_gps_opens_one_trip
    (start_time : option Z) (now : Z) (s : tracker) :
  ledger_ok s ->
  ledger_ok (fst (start_new_trip start_time None now s))
  /\ List.length (active_sessions (fst (start_new_trip start_time None now s))) = 1%nat
  /\ (exists ct,
        current_trip (fst (start_new_trip start_time None now s)) = Some ct
        /\ snd (start_new_trip start_time None now s) = Some (ct_trip_id ct))
  /\ filter of_bus (temp_entries (fst (start_new_trip start_time None now s))) = [].
Proof. intros Hok. exact (start_new_trip_without_gps start_time now Hok). Qed.

(** X22: [start_new_trip] during an active trip loses no open entry:
    each open entry of the trip that ends becomes an unmatched ENTRY
    record of that trip, the buffer keeps no entry of the bus, and the
    unmatched ENTRY records grow by the number of open entries of the
    bus, with or without a GPS fix. *)
Theorem start_new_trip_moves_open_entries
    (start_time : option Z) (initial_gps : option (Q * Q)) (now : Z)
    (s : tracker) (ct : current_trip_info) :
  current_trip s = Some ct ->
  ct_status ct = Active ->
  (forall e, In e (open_entries_of (ct_trip_id ct) s) ->
     In (entry_to_unmatched (ct_trip_id ct) (ct_start_time ct)
           "Trip ended - no exit match found" now e)
        (unmatched_passengers (fst (start_new_trip start_time initial_gps now s))))
  /\ filter of_bus (temp_entries (fst (start_new_trip start_time initial_gps now s))) = []
  /\ List.length (unmatched_entries (fst (start_new_trip start_time initial_gps now s)))
     = (List.length (unmatched_entries s)
        + List.length (filter of_bus (temp_entries s)))%nat.
Proof.
  intros Hct Hst.
  exact (start_new_trip_migrates_open_entries start_time initial_gps now s Hct Hst).
Qed.

(** A concrete ledger with one trip session is coherent by evaluation. *)
Ltac ledger_ok_by_evaluation :=
  split; [|split];
  [ vm_compute; constructor; [intros []|constructor]
  | let ts := fresh "ts" in
    let Hin := fresh "Hin" in
    intros ts Hin; vm_compute in Hin; destruct Hin as [<- | []]; vm_compute; lia
  | vm_compute; split; reflexivity ].

Lemma end_current_trip_closes_session_witness :
  active_sessions (fst (end_current_trip (t0 + 3600) one_on_board)) = []
  /\ List.length (unmatched_passengers (fst (end_current_trip (t0 + 3600) one_on_board)))
     = 1%nat.
Proof.
  destruct (@end_current_trip_closes_session (t0 + 3600) one_on_board first_trip
              ltac:(ledger_ok_by_evaluation) eq_refl)
    as (_ & _ & Hact & _ & _ & Hun & _).
  split; [exact Hact|]. rewrite Hun. reflexivity.
Defined.

Lemma start_without_gps_opens_one_trip_witness :
  List.length (active_sessions (fst (start_new_trip None None (t0 + 3600) one_on_board)))
  = 1%nat.
Proof.
  exact (proj1 (proj2 (@start_without_gps_opens_one_trip None (t0 + 3600) one_on_board
                         ltac:(ledger_ok_by_evaluation)))).
Defined.

Lemma start_new_trip_moves_open_entries_witness :
  filter of_bus
    (temp_entries (fst (start_new_trip None (Some gps_fix) (t0 + 3600) one_on_board)))
  = []
  /\ List.length
       (unmatched_entries (fst (start_new_trip None (Some gps_fix) (t0 + 3600) one_on_board)))
     = 1%nat.
Proof.
  destruct (@start_new_trip_moves_open_entries None (Some gps_fix) (t0 + 3600)
              one_on_board first_trip eq_refl eq_refl)
    as (_ & Hbuf & Hlen).
  split; [exact Hbuf|]. rewrite Hlen. reflexivity.
Defined.

(* ------------------------------------------------------------------ *)
(** ** Season tickets: what a detection means *)

Section SeasonDetection.

Variable cosine_similarity : embedding -> embedding -> option Q.

Local Open Scope Q_scope.

(** The member loop keeps, with a detected member, the similarity of
    that member, which is above the threshold and the greatest so far. *)
Lemma season_loop_spec (emb : embedding) (l : list member) :
  forall acc res,
    fold_try (season_step cosine_similarity emb) l acc = Some res ->
    (forall m0, fst acc = Some m0 -> season_ticket_similarity_threshold < snd acc) ->
    snd acc <= snd res
    /\ (forall m, In m l -> m_face_embedding m <> [] ->
          exists s', cosine_similarity emb (m_face_embedding m) = Some s'
                     /\ s' <= snd res)
    /\ (forall m, fst res = Some m ->
          season_ticket_similarity_threshold < snd res
          /\ (fst acc = Some m /\ snd res = snd acc
              \/ In m l /\ m_face_embedding m <> []
                 /\ cosine_similarity emb (m_face_embedding m) = Some (snd res))).
Proof.
  induction l as [|x t IH]; intros acc res Hres Hinv.
  - cbn in Hres. injection Hres as Hacc. subst res.
    split; [apply Qle_refl|]. split; [intros m []|].
    intros m Hm. split; [exact (Hinv m Hm)|]. left. split; [exact Hm | reflexivity].
  - cbn [fold_try] in Hres. unfold bind in Hres.
    destruct (season_step cosine_similarity emb acc x) as [acc'|] eqn:Hstep;
      [|discriminate].
    assert (Hacc' :
      (forall m0, fst acc' = Some m0 -> season_ticket_similarity_threshold < snd acc')
      /\ snd acc <= snd acc'
      /\ (m_face_embedding x <> [] ->
          exists s', cosine_similarity emb (m_face_embedding x) = Some s'
                     /\ s' <= snd acc')
      /\ (forall m, fst acc' = Some m ->
            fst acc = Some m /\ snd acc' = snd acc
            \/ m = x /\ m_face_embedding x <> []
               /\ cosine_similarity emb (m_face_embedding x) = Some (snd acc'))).
    { unfold season_step in Hstep.
      destruct (m_face_embedding x) as [|q qs] eqn:Hemb.
      - injection Hstep as Hs. subst acc'.
        split; [exact Hinv|]. split; [apply Qle_refl|].
        split; [intros Hne; exfalso; apply Hne; reflexivity|].
        intros m Hm. left. split; [exact Hm | reflexivity].
      - unfold bind in Hstep.
        destruct (cosine_similarity emb (q :: qs)) as [sim|] eqn:Hcos; [|discriminate].
        destruct (Qltb (snd acc) sim) eqn:Hlt.
        + apply Qltb_lt in Hlt.
          destruct (Qltb season_ticket_similarity_threshold sim) eqn:Hthr.
          * apply Qltb_lt in Hthr. injection Hstep as Hs. subst acc'. cbn [fst snd].
            split; [intros _ _; exact Hthr|].
            split; [apply Qlt_le_weak; exact Hlt|].
            split; [intros _; exists sim; split; [reflexivity | apply Qle_refl]|].
            intros m Hm. injection Hm as Hm. subst m. right.
            split; [reflexivity|]. split; [discriminate | reflexivity].
          * apply Qltb_ge in Hthr. injection Hstep as Hs. subst acc'. cbn [fst snd].
            split.
            { intros m0 Hm0. exfalso. pose proof (Hinv m0 Hm0) as H0.
              apply (Qlt_irrefl sim).
              apply Qle_lt_trans with season_ticket_similarity_threshold; [exact Hthr|].
              apply Qlt_trans with (snd acc); assumption. }
            split; [apply Qlt_le_weak; exact Hlt|].
            split; [intros _; exists sim; split; [reflexivity | apply Qle_refl]|].
            intros m Hm. exfalso. pose proof (Hinv m Hm) as H0.
            apply (Qlt_irrefl sim).
            apply Qle_lt_trans with season_ticket_similarity_threshold; [exact Hthr|].
            apply Qlt_trans with (snd acc); assumption.
        + apply Qltb_ge in Hlt. injection Hstep as Hs. subst acc'.
          split; [exact Hinv|]. split; [apply Qle_refl|].
          split; [intros _; exists sim; split; [reflexivity | exact Hlt]|].
          intros m Hm. left. split; [exact Hm | reflexivity]. }
    destruct Hacc' as (Hinv' & Hle & Hx & Hfrom).
    destruct (IH acc' res Hres Hinv') as (Hle' & Hall & Hfin).
    split; [apply Qle_trans with (snd acc'); assumption|].
    split.
    + intros m [<- | Hin] Hne.
      * destruct (Hx Hne) as (s' & Hs' & Hb). exists s'.
        split; [exact Hs' | apply Qle_trans with (snd acc'); assumption].
      * exact (Hall m Hin Hne).
    + intros m Hm. destruct (Hfin m Hm) as (Hthr & [[Hm' Heq] | (Hin & Hne & Hcos)]).
      * split; [exact Hthr|].
        destruct (Hfrom m Hm') as [[Hm0 Heq0] | (-> & Hne & Hcos)].
        -- left. split; [exact Hm0 | congruence].
        -- right. split; [left; reflexivity|]. split; [exact Hne|].
           rewrite Heq. exact Hcos.
      * split; [exact Hthr|]. right.
        split; [right; exact Hin|]. split; assumption.
Qed.

Lemma season_loop_raises (emb : embedding) (l : list member) (m : member) :
  In m l ->
  m_face_embedding m <> [] ->
  cosine_similarity emb (m_face_embedding m) = None ->
  forall acc, fold_try (season_step cosine_similarity emb) l acc = None.
Proof.
  induction l as [|x t IH]; intros Hin Hne Hnone acc; [destruct Hin|].
  cbn [fold_try]. unfold bind.
  destruct Hin as [-> | Hin].
  - unfold season_step. destruct (m_face_embedding m) as [|q qs] eqn:Hemb;
      [exfalso; apply Hne; reflexivity|].
    rewrite Hnone. reflexivity.
  - destruct (season_step cosine_similarity emb acc x); [|reflexivity].
    apply IH; assumption.
Qed.

(** The members the query of [check_season_ticket_member] selects. *)
Lemma active_member_spec (now : Z) (s : tracker) (m : member) :
  In m (filter (fun m => is_active m && (valid_from m <=? now)%Z
                         && (now <=? valid_until m)%Z
                         && nonempty (m_face_embedding m))
               (season_ticket_members s))
  <-> In m (season_ticket_members s)
      /\ is_active m = true
      /\ (valid_from m <= now <= valid_until m)%Z
      /\ m_face_embedding m <> [].
Proof.
  rewrite filter_In. rewrite !Bool.andb_true_iff, !Z.leb_le.
  assert (Hne : nonempty (m_face_embedding m) = true <-> m_face_embedding m <> []).
  { destruct (m_face_embedding m); cbn; split; congruence. }
  rewrite Hne. tauto.
Qed.

(** X23: a member detected by [check_season_ticket_member] is a member
    of the collection who is active, valid at the time of the check and
    has an embedding; the similarity handed back is the similarity of
    that member, it is above 0.65, and no other eligible member has a
    greater one. *)
Theorem season_ticket_detection_sound
    (face_embedding : embedding) (now : Z) (s : tracker) (m : member) (sim : Q) :
  check_season_ticket_member cosine_similarity face_embedding now s = (Some m, sim) ->
  In m (season_ticket_members s)
  /\ is_active m = true
  /\ (valid_from m <= now <= valid_until m)%Z
  /\ m_face_embedding m <> []
  /\ cosine_similarity face_embedding (m_face_embedding m) = Some sim
  /\ season_ticket_similarity_threshold < sim
  /\ forall m',
       In m' (season_ticket_members s) ->
       is_active m' = true ->
       (valid_from m' <= now <= valid_until m')%Z ->
       m_face_embedding m' <> [] ->
       exists s', cosine_similarity face_embedding (m_face_embedding m') = Some s'
                  /\ s' <= sim.
Proof.
  unfold check_season_ticket_member.
  destruct face_embedding as [|q0 qs]; [discriminate|].
  set (emb := q0 :: qs).
  set (members := filter _ (season_ticket_members s)).
  destruct members as [|x t] eqn:Hmem; [discriminate|].
  destruct (fold_try (season_step cosine_similarity emb) (x :: t) (None, 0))
    as [[[best|] b]|] eqn:Hloop; try discriminate.
  intros H. injection H as Hb Hs. subst best b.
  destruct (season_loop_spec emb (x :: t) (None, 0) Hloop) as (_ & Hall & Hfin);
    [cbn; discriminate|].
  destruct (Hfin m eq_refl) as (Hthr & [[Habs _] | (Hin & Hne & Hcos)]);
    [discriminate Habs|].
  cbn [snd] in Hthr, Hcos.
  rewrite <- Hmem in Hin. subst members.
  apply active_member_spec in Hin. destruct Hin as (Hin & Hact & Hval & _).
  repeat (split; [assumption|]).
  intros m' Hin' Hact' Hval' Hne'.
  apply (Hall m'); [|exact Hne'].
  rewrite <- Hmem. apply active_member_spec. repeat split; try assumption; apply Hval'.
Qed.

(** X24: one eligible member whose embedding makes the similarity
    computation raise (another dimension than the face at hand) switches
    the detection off for everybody: the answer is [(None, 0.0)]
    whatever the other members are. *)
Theorem raising_member_blocks_detection
    (face_embedding : embedding) (now : Z) (s : tracker) (m : member) :
  In m (season_ticket_members s) ->
  is_active m = true ->
  (valid_from m <= now <= valid_until m)%Z ->
  m_face_embedding m <> [] ->
  cosine_similarity face_embedding (m_face_embedding m) = None ->
  check_season_ticket_member cosine_similarity face_embedding now s = (None, 0).
Proof.
  intros Hin Hact Hval Hne Hnone.
  unfold check_season_ticket_member.
  destruct face_embedding as [|q0 qs]; [reflexivity|].
  set (members := filter _ (season_ticket_members s)).
  assert (Hm : In m members)
    by (apply active_member_spec; repeat split; try assumption; apply Hval).
  destruct members as [|x t] eqn:Hmem; [reflexivity|].
  rewrite (@season_loop_raises (q0 :: qs) (x :: t) m Hm Hne Hnone). reflexivity.
Qed.

End SeasonDetection.

Lemma season_ticket_detection_sound_witness :
  In unrestricted_member (season_ticket_members member_on_board)
  /\ rational_cosine [2; 2; 2; 2] (m_face_embedding unrestricted_member) = Some 1
  /\ season_ticket_similarity_threshold < 1.
Proof.
  destruct (@season_ticket_detection_sound rational_cosine [2; 2; 2; 2] (t0 + 600)
              member_on_board unrestricted_member 1 eq_refl)
    as (Hin & _ & _ & _ & Hcos & Hthr & _).
  repeat split; assumption.
Defined.

Lemma raising_member_blocks_detection_witness :
  check_season_ticket_member rational_cosine [1; 1; 1; 1] (t0 + 600)
    two_members_on_board
  = (None, 0).
Proof.
  apply (@raising_member_blocks_detection rational_cosine [1; 1; 1; 1] (t0 + 600)
           two_members_on_board short_member).
  - right. left. reflexivity.
  - reflexivity.
  - vm_compute. split; discriminate.
  - discriminate.
  - reflexivity.
Defined.

(* ------------------------------------------------------------------ *)
(** ** The schedule and the trip context *)

Lemma find_session_in (k : nat) (l : list trip_session) (ts : trip_session) :
  find (fun ts => Nat.eqb (ts_id ts) k) l = Some ts ->
  In ts l /\ ts_id ts = k.
Proof.
  intros H. apply find_some in H. destruct H as [Hin Hk].
  split; [exact Hin | apply Nat.eqb_eq; exact Hk].
Qed.

Lemma route_info_duration (t : Z) :
  ri_estimated_duration_hours (get_current_route_info t) = 8%Z.
Proof. unfold get_current_route_info. destruct (_ && _)%bool; reflexivity. Qed.

Lemma Qltb_minutes (d m : Z) :
  Qltb (inject_Z d / 60) (m # 1) = (d <? m * 60)%Z.
Proof.
  destruct (d <? m * 60)%Z eqn:H.
  - apply Z.ltb_lt in H. apply Qltb_true.
    apply Qlt_shift_div_r; [reflexivity|].
    unfold Qlt, Qmult, inject_Z. cbn [Qnum Qden]. lia.
  - apply Z.ltb_ge in H. apply Qltb_false.
    apply Qle_shift_div_l; [reflexivity|].
    unfold Qle, Qmult, inject_Z. cbn [Qnum Qden]. lia.
Qed.

Lemma get_current_trip_cases (now : Z) (s : tracker) (v : trip_view) :
  get_current_trip now s = Some v ->
  (current_trip s = None
   /\ tv_trip_id v = None
   /\ tv_status v = "waiting_for_departure"%string
   /\ tv_passengers_inside v = 0%nat)
  \/ (exists ct ts,
        current_trip s = Some ct
        /\ In ts (trip_sessions s) /\ ts_id ts = ct_id ct
        /\ tv_trip_id v = Some (ct_trip_id ct)
        /\ tv_trip_active v = true
        /\ tv_passengers_inside v
           = count_documents (in_trip (ct_trip_id ct)) (temp_entries s)
        /\ tv_passengers_completed v
           = count_documents (fun fp => trip_id_eqb (fp_trip_id fp) (ct_trip_id ct))
               (final_passengers s)
        /\ (let d := (now - ts_start_time ts)%Z in
            (d < 3600 /\ tv_status v = "departing"%string
             \/ 3600 <= d < 25200 /\ tv_status v = "in_transit"%string
             \/ 25200 <= d < 39600 /\ tv_status v = "approaching_destination"%string
             \/ 39600 <= d /\ tv_status v = "should_have_arrived"%string)%Z)).
Proof.
  unfold get_current_trip. destruct (current_trip s) as [ct|].
  - destruct (find _ (trip_sessions s)) as [ts|] eqn:Hf; [|discriminate].
    intros H. injection H as Hv. subst v. right.
    destruct (find_session_in _ _ Hf) as [Hin Hid].
    exists ct, ts. cbn [tv_trip_id tv_trip_active tv_status tv_passengers_inside
                        tv_passengers_completed].
    repeat (split; [first [reflexivity | assumption]|]).
    cbv zeta. rewrite route_info_duration.
    change (inject_Z (8 * 60) - 60)%Q with (420 # 1).
    change (inject_Z (8 * 60) + 180)%Q with (660 # 1).
    rewrite !Qltb_minutes.
    change (60 * 60)%Z with 3600%Z. change (420 * 60)%Z with 25200%Z.
    change (660 * 60)%Z with 39600%Z.
    destruct (_ <? 3600)%Z eqn:H1; [apply Z.ltb_lt in H1; left; split; [lia|reflexivity]|].
    apply Z.ltb_ge in H1. right.
    destruct (_ <? 25200)%Z eqn:H2; [apply Z.ltb_lt in H2; left; split; [lia|reflexivity]|].
    apply Z.ltb_ge in H2. right.
    destruct (_ <? 39600)%Z eqn:H3; [apply Z.ltb_lt in H3; left; split; [lia|reflexivity]|].
    apply Z.ltb_ge in H3. right. split; [lia|reflexivity].
  - intros H. injection H as Hv. subst v. left. repeat split; reflexivity.
Qed.

Lemma status_never_active (now : Z) (s : tracker) (v : trip_view) :
  get_current_trip now s = Some v -> status_is_active v = false.
Proof.
  intros H. unfold status_is_active.
  destruct (get_current_trip_cases _ _ H)
    as [(_ & _ & -> & _) | (ct & ts & _ & _ & _ & _ & _ & _ & _ & Hst)];
    [reflexivity|].
  cbv zeta in Hst.
  destruct Hst as [[_ ->] | [[_ ->] | [[_ ->] | [_ ->]]]]; reflexivity.
Qed.

(** X25: [get_current_trip] reports, without a current trip, the status
    [waiting_for_departure] with no trip id and nobody inside, and for a
    running trip its counts of open entries and of recorded journeys and
    a status fixed by the time since its start: [departing] below one
    hour, [in_transit] below seven hours, [approaching_destination]
    below eleven hours, [should_have_arrived] from then on; the status
    is never [active]. *)
Theorem current_trip_status_by_duration (now : Z) (s : tracker) (v : trip_view) :
  get_current_trip now s = Some v ->
  status_is_active v = false
  /\ ((current_trip s = None
   /\ tv_trip_id v = None
   /\ tv_status v = "waiting_for_departure"%string
   /\ tv_passengers_inside v = 0%nat)
  \/ (exists ct ts,
        current_trip s = Some ct
        /\ In ts (trip_sessions s) /\ ts_id ts = ct_id ct
        /\ tv_trip_id v = Some (ct_trip_id ct)
        /\ tv_trip_active v = true
        /\ tv_passengers_inside v
           = count_documents (in_trip (ct_trip_id ct)) (temp_entries s)
        /\ tv_passengers_completed v
           = count_documents (fun fp => trip_id_eqb (fp_trip_id fp) (ct_trip_id ct))
               (final_passengers s)
        /\ (let d := (now - ts_start_time ts)%Z in
            (d < 3600 /\ tv_status v = "departing"%string
             \/ 3600 <= d < 25200 /\ tv_status v = "in_transit"%string
             \/ 25200 <= d < 39600 /\ tv_status v = "approaching_destination"%string
             \/ 39600 <= d /\ tv_status v = "should_have_arrived"%string)%Z))).
Proof.
  intros H. split.
  - exact (status_never_active _ _ H).
  - exact (get_current_trip_cases _ _ H).
Qed.

Lemma cleanup_for_new_trip_state (now : Z) (s : tracker) :
  current_trip (fst (cleanup_old_temp_entries_for_new_trip now s)) = current_trip s
  /\ next_oid (fst (cleanup_old_temp_entries_for_new_trip now s)) = next_oid s
  /\ trip_sessions (fst (cleanup_old_temp_entries_for_new_trip now s)) = trip_sessions s
  /\ final_passengers (fst (cleanup_old_temp_entries_for_new_trip now s))
     = final_passengers s
  /\ filter of_bus (temp_entries (fst (cleanup_old_temp_entries_for_new_trip now s))) = []
  /\ List.length (unmatched_entries (fst (cleanup_old_temp_entries_for_new_trip now s)))
     = (List.length (unmatched_entries s)
        + List.length (filter of_bus (temp_entries s)))%nat
  /\ snd (cleanup_old_temp_entries_for_new_trip now s)
     = List.length (filter of_bus (temp_entries s)).
Proof.
  unfold cleanup_old_temp_entries_for_new_trip.
  destruct (filter of_bus (temp_entries s)) as [|e t] eqn:Hf.
  - cbn [fst snd List.length]. repeat (split; [first [reflexivity | exact Hf]|]).
    split; [lia | reflexivity].
  - cbn [fst snd]. repeat (split; [reflexivity|]).
    split; [apply delete_many_none|]. split; [|reflexivity].
    unfold unmatched_entries.
    cbn [unmatched_passengers set_temp_entries set_unmatched_passengers].
    rewrite filter_app, length_app.
    rewrite unmatched_entries_moved by (intros; reflexivity).
    rewrite length_map. reflexivity.
Qed.

Lemma cleanup_orphans_final_passengers (now : Z) (s : tracker) :
  final_passengers (cleanup_orphans now s) = final_passengers s.
Proof.
  unfold cleanup_orphans. destruct (filter of_bus (temp_entries s)); reflexivity.
Qed.

Lemma end_current_trip_final_passengers (now : Z) (s : tracker) :
  final_passengers (fst (end_current_trip now s)) = final_passengers s.
Proof.
  unfold end_current_trip. destruct (current_trip s); reflexivity.
Qed.

(** What every call of [start_new_trip] does to the buffer, whether a
    trip was active or not. *)
Lemma start_new_trip_any (start_time : option Z) (initial_gps : option (Q * Q))
    (now : Z) (s : tracker) :
  filter of_bus (temp_entries (fst (start_new_trip start_time initial_gps now s))) = []
  /\ List.length (unmatched_entries (fst (start_new_trip start_time initial_gps now s)))
     = (List.length (unmatched_entries s)
        + List.length (filter of_bus (temp_entries s)))%nat
  /\ final_passengers (fst (start_new_trip start_time initial_gps now s))
     = final_passengers s.
Proof.
  destruct (has_active_trip s) eqn:Hhas.
  - destruct (has_active_trip_inv _ Hhas) as (ct & Hct & Hst).
    destruct (start_new_trip_migrates_open_entries start_time initial_gps now s Hct Hst)
      as (_ & Hbuf & Hlen).
    split; [exact Hbuf|]. split; [exact Hlen|].
    unfold start_new_trip. rewrite Hhas.
    destruct initial_gps; cbn [fst];
      [|change (final_passengers (cleanup_orphans now (fst (end_current_trip now s)))
                = final_passengers s)];
      rewrite cleanup_orphans_final_passengers;
      apply end_current_trip_final_passengers.
  - destruct (cleanup_orphans_state now s) as (_ & _ & _ & Hte & Hun).
    cbv zeta in Hte, Hun.
    assert (Hstate :
      temp_entries (fst (start_new_trip start_time initial_gps now s))
      = temp_entries (cleanup_orphans now s)
      /\ unmatched_passengers (fst (start_new_trip start_time initial_gps now s))
         = unmatched_passengers (cleanup_orphans now s)
      /\ final_passengers (fst (start_new_trip start_time initial_gps now s))
         = final_passengers (cleanup_orphans now s)).
    { unfold start_new_trip. rewrite Hhas.
      destruct initial_gps; repeat split; reflexivity. }
    destruct Hstate as (Ht & Hu & Hf).
    unfold unmatched_entries. rewrite Ht, Hu, Hf, Hte, Hun.
    split; [apply delete_many_none|]. split.
    + rewrite filter_app, length_app.
      rewrite unmatched_entries_moved by (intros; reflexivity).
      rewrite length_map. reflexivity.
    + apply cleanup_orphans_final_passengers.
Qed.

Lemma start_new_trip_current (now : Z) (s : tracker) :
  exists ct,
    current_trip (fst (start_new_trip None None now s)) = Some ct
    /\ ct_trip_id ct = generate_trip_id now
    /\ ct_start_time ct = now
    /\ ct_status ct = Active.
Proof.
  unfold start_new_trip. cbn [fst]. eexists. split; [reflexivity|].
  repeat split; reflexivity.
Qed.

Lemma ledger_ok_same_sessions (s s' : tracker) :
  trip_sessions s' = trip_sessions s ->
  next_oid s' = next_oid s ->
  current_trip s' = current_trip s ->
  ledger_ok s -> ledger_ok s'.
Proof.
  unfold ledger_ok, active_sessions. intros -> -> ->. exact (fun H => H).
Qed.

Lemma trip_context_inside (trip_start trip_end : option Z) (now : Z) (s : tracker) :
  is_within_trip_schedule (Some (minute_of_day now)) trip_start trip_end = true ->
  fst (trip_context (Some trip_start) (Some trip_end) now s)
  = fst (start_new_trip None None now
           (fst (cleanup_old_temp_entries_for_new_trip now s))).
Proof.
  intros Hin. unfold trip_context. rewrite Hin.
  destruct (get_current_trip now s) as [v|] eqn:Hv; [|reflexivity].
  rewrite (status_never_active _ _ Hv). reflexivity.
Qed.

(** X26: inside the schedule window every request to
    [/api/trip-context] restarts the trip, also when a trip is running:
    the open entries of the bus are all moved to [unmatchedPassengers],
    the buffer of the bus is empty afterwards, and the current trip is a
    new trip that starts at the time of the request; the recorded
    journeys are kept, and on a coherent ledger exactly one trip of the
    bus is active afterwards. *)
Theorem trip_context_restarts_inside_window
    (trip_start trip_end : option Z) (now : Z) (s : tracker) :
  is_within_trip_schedule (Some (minute_of_day now)) trip_start trip_end = true ->
  filter of_bus
    (temp_entries (fst (trip_context (Some trip_start) (Some trip_end) now s))) = []
  /\ (exists ct,
        current_trip (fst (trip_context (Some trip_start) (Some trip_end) now s))
        = Some ct
        /\ ct_trip_id ct = generate_trip_id now
        /\ ct_start_time ct = now
        /\ ct_status ct = Active)
  /\ List.length
       (unmatched_entries (fst (trip_context (Some trip_start) (Some trip_end) now s)))
     = (List.length (unmatched_entries s)
        + List.length (filter of_bus (temp_entries s)))%nat
  /\ final_passengers (fst (trip_context (Some trip_start) (Some trip_end) now s))
     = final_passengers s
  /\ (ledger_ok s ->
      List.length
        (active_sessions (fst (trip_context (Some trip_start) (Some trip_end) now s)))
      = 1%nat).
Proof.
  intros Hin. rewrite (trip_context_inside _ _ _ s Hin).
  destruct (cleanup_for_new_trip_state now s)
    as (Hct & Hoid & Hts & Hfp & Hbuf & Hun & _).
  destruct (start_new_trip_any None None now
              (fst (cleanup_old_temp_entries_for_new_trip now s)))
    as (Hbuf' & Hun' & Hfp').
  split; [exact Hbuf'|]. split; [apply start_new_trip_current|].
  split; [rewrite Hun', Hbuf, Hun; cbn [List.length]; lia|].
  split; [rewrite Hfp'; exact Hfp|].
  intros Hok.
  pose proof (@ledger_ok_same_sessions _ _ Hts Hoid Hct Hok) as Hok1.
  exact (proj1 (proj2 (start_new_trip_without_gps None now Hok1))).
Qed.

(** X27: outside the schedule window, and when one of the two schedule
    parameters is absent, a request to [/api/trip-context] changes
    nothing: the response is built from [get_current_trip] and a running
    trip is not ended. *)
Theorem trip_context_outside_window_is_passive
    (esp32_trip_start esp32_trip_end : option (option Z)) (now : Z) (s : tracker) :
  esp32_trip_start = None
  \/ esp32_trip_end = None
  \/ (exists trip_start trip_end,
        esp32_trip_start = Some trip_start /\ esp32_trip_end = Some trip_end
        /\ is_within_trip_schedule (Some (minute_of_day now)) trip_start trip_end
           = false) ->
  trip_context esp32_trip_start esp32_trip_end now s = (s, get_current_trip now s).
Proof.
  intros [-> | [-> | (st & en & -> & -> & Hout)]].
  - reflexivity.
  - destruct esp32_trip_start; reflexivity.
  - unfold trip_context. rewrite Hout.
    destruct (get_current_trip now s) as [v|] eqn:Hv; [|reflexivity].
    rewrite (status_never_active _ _ Hv). reflexivity.
Qed.

(** X28: with the tolerance of 30 minutes [is_departure_time] holds
    exactly from 06:30 to 07:30 and from 17:30 to 18:30, and the route
    it then reports is the route [get_current_route_info] gives for the
    same time except from 17:30 up to 18:00, where it reports
    Colombo-Jaffna while the route of the time of day is still
    Jaffna-Colombo. *)
Theorem departure_window (current_time : Z) :
  (fst (is_departure_time current_time 30) = true
   <-> (390 <= current_time / 60 <= 450 \/ 1050 <= current_time / 60 <= 1110)%Z)
  /\ (fst (is_departure_time current_time 30) = true ->
      (snd (is_departure_time current_time 30)
       = Some (get_current_route_info current_time)
       <-> ~ (1050 <= current_time / 60 < 1080)%Z)).
Proof.
  unfold is_departure_time, schedule, get_current_route_info.
  cbn [find snd ri_departure_time jaffna_to_colombo colombo_to_jaffna].
  change (7 * 60)%Z with 420%Z. change (18 * 60)%Z with 1080%Z.
  change (6 * 3600)%Z with 21600%Z. change (18 * 3600)%Z with 64800%Z.
  pose proof (Z.div_mod current_time 60 ltac:(lia)) as Hdm.
  pose proof (Z.mod_pos_bound current_time 60 ltac:(lia)) as Hmod.
  destruct (Z.abs (current_time / 60 - 420) <=? 30)%Z eqn:H1.
  - apply Z.leb_le in H1. cbn [fst snd]. split.
    + split; [intros _; left; lia | reflexivity].
    + intros _.
      assert (Hr : ((21600 <=? current_time) && (current_time <? 64800))%Z = true).
      { apply Bool.andb_true_iff. split; [apply Z.leb_le | apply Z.ltb_lt]; lia. }
      rewrite Hr. split; [intros _; lia | reflexivity].
  - apply Z.leb_gt in H1.
    destruct (Z.abs (current_time / 60 - 1080) <=? 30)%Z eqn:H2.
    + apply Z.leb_le in H2. cbn [fst snd]. split.
      * split; [intros _; right; lia | reflexivity].
      * intros _.
        destruct ((21600 <=? current_time) && (current_time <? 64800))%Z eqn:Hr.
        -- apply Bool.andb_true_iff in Hr. destruct Hr as [_ Hr].
           apply Z.ltb_lt in Hr.
           split; [discriminate | intros Hn; exfalso; apply Hn; lia].
        -- split; [|reflexivity]. intros _ Hn.
           apply Bool.andb_false_iff in Hr.
           destruct Hr as [Hr | Hr];
             [apply Z.leb_gt in Hr | apply Z.ltb_ge in Hr]; lia.
    + apply Z.leb_gt in H2. cbn [fst snd]. split.
      * split; [discriminate | lia].
      * discriminate.
Qed.

Lemma current_trip_status_by_duration_witness :
  exists v,
    get_current_trip (t0 + 600) one_on_board = Some v
    /\ status_is_active v = false.
Proof.
  destruct (get_current_trip (t0 + 600) one_on_board) as [v|] eqn:Hv;
    [|vm_compute in Hv; discriminate Hv].
  exists v. split; [reflexivity|].
  exact (proj1 (@current_trip_status_by_duration (t0 + 600) one_on_board v Hv)).
Defined.

Lemma trip_context_restarts_inside_window_witness :
  filter of_bus
    (temp_entries
       (fst (trip_context (Some (Some 1200%Z)) (Some (Some 1439%Z)) (t0 + 600)
               one_on_board))) = []
  /\ List.length
       (unmatched_entries
          (fst (trip_context (Some (Some 1200%Z)) (Some (Some 1439%Z)) (t0 + 600)
                  one_on_board))) = 1%nat.
Proof.
  destruct (@trip_context_restarts_inside_window (Some 1200%Z) (Some 1439%Z)
              (t0 + 600) one_on_board eq_refl)
    as (Hbuf & _ & Hun & _).
  split; [exact Hbuf|]. rewrite Hun. reflexivity.
Defined.

Lemma trip_context_outside_window_is_passive_witness :
  fst (trip_context (Some (Some 360%Z)) (Some (Some 1080%Z)) (t0 + 600) one_on_board)
  = one_on_board.
Proof.
  rewrite (@trip_context_outside_window_is_passive (Some (Some 360%Z))
             (Some (Some 1080%Z)) (t0 + 600) one_on_board).
  - reflexivity.
  - right. right. exists (Some 360%Z), (Some 1080%Z).
    split; [reflexivity|]. split; reflexivity.
Defined.

(* ------------------------------------------------------------------ *)
(** ** Board heartbeats *)

Lemma heartbeat_fold (device_id location ip_address : string) (now : Z)
    (boards : list board) :
  forall acc,
    let res := fold_left (heartbeat_step device_id location ip_address now) boards acc in
    List.length (fst res)
    = (List.length (fst acc)
       + List.length (filter is_text_or_dict boards))%nat
    /\ (snd res = true
        <-> snd acc = true
            \/ exists b, In b boards /\ board_device_id b = Some device_id
                         /\ b <> BoardOther)
    /\ (snd res = true -> snd acc = false ->
        In (new_board device_id location ip_address (Some now)) (fst res))
    /\ (forall b, In b (fst acc) -> In b (fst res)).
Proof.
  induction boards as [|b t IH]; intros acc.
  - cbn. split; [lia|]. split.
    + split; [intros H; left; exact H | intros [H | (b & [] & _)]; exact H].
    + split; [intros H1 H2; congruence | intros b H; exact H].
  - cbn [fold_left]. cbv zeta.
    set (acc' := heartbeat_step device_id location ip_address now acc b).
    destruct (IH acc') as (Hlen & Hfound & Hin & Hkeep). cbv zeta in *.
    assert (Hstep :
      List.length (fst acc')
      = (List.length (fst acc)
         + (match b with BoardOther => 0 | _ => 1 end))%nat
      /\ (snd acc' = true
          <-> snd acc = true \/ (board_device_id b = Some device_id /\ b <> BoardOther))
      /\ (snd acc' = true -> snd acc = false ->
          In (new_board device_id location ip_address (Some now)) (fst acc'))
      /\ (forall x, In x (fst acc) -> In x (fst acc'))).
    { subst acc'. destruct b as [device | dev bid loc bname ip seen |]; cbn [heartbeat_step].
      - destruct (String.eqb device device_id) eqn:He; cbn [fst snd board_device_id].
        + apply String.eqb_eq in He. subst device.
          rewrite length_app. cbn [List.length].
          split; [lia|]. split.
          * split; [intros _; right; split; [reflexivity | discriminate] | reflexivity].
          * split; [intros _ _; apply in_or_app; right; left; reflexivity|].
            intros x Hx. apply in_or_app. left. exact Hx.
        + apply String.eqb_neq in He. rewrite length_app. cbn [List.length].
          split; [lia|]. split.
          * split; [intros H; left; exact H|].
            intros [H | [H _]]; [exact H | congruence].
          * split; [intros H1 H2; congruence|].
            intros x Hx. apply in_or_app. left. exact Hx.
      - cbn [board_device_id].
        destruct (py_or dev bid) as [d|] eqn:Hd.
        + destruct (String.eqb d device_id) eqn:He; cbn [fst snd].
          * apply String.eqb_eq in He. subst d.
            rewrite length_app. cbn [List.length].
            split; [lia|]. split.
            -- split; [intros _; right; split; [reflexivity | discriminate] | reflexivity].
            -- split; [intros _ _; apply in_or_app; right; left; reflexivity|].
               intros x Hx. apply in_or_app. left. exact Hx.
          * apply String.eqb_neq in He. rewrite length_app. cbn [List.length].
            split; [lia|]. split.
            -- split; [intros H; left; exact H|].
               intros [H | [H _]]; [exact H | congruence].
            -- split; [intros H1 H2; congruence|].
               intros x Hx. apply in_or_app. left. exact Hx.
        + cbn [fst snd]. rewrite length_app. cbn [List.length].
          split; [lia|]. split.
          * split; [intros H; left; exact H|].
            intros [H | [H _]]; [exact H | discriminate].
          * split; [intros H1 H2; congruence|].
            intros x Hx. apply in_or_app. left. exact Hx.
      - cbn [fst snd board_device_id]. split; [lia|]. split.
        + split; [intros H; left; exact H|].
          intros [H | [H _]]; [exact H | discriminate].
        + split; [intros H1 H2; congruence | intros x Hx; exact Hx]. }
    destruct Hstep as (Slen & Sfound & Sin & Skeep).
    split.
    { rewrite Hlen, Slen.
      destruct b; cbn [filter is_text_or_dict List.length]; lia. }
    split.
    { rewrite Hfound, Sfound. split.
      - intros [[H | [Hb Hne]] | (x & Hx & Hd & Hne)].
        + left. exact H.
        + right. exists b. split; [left; reflexivity|]. split; assumption.
        + right. exists x. split; [right; exact Hx|]. split; assumption.
      - intros [H | (x & [<- | Hx] & Hd & Hne)].
        + left. left. exact H.
        + left. right. split; assumption.
        + right. exists x. split; [exact Hx|]. split; assumption. }
    split.
    { intros Hres Hacc. destruct (snd acc') eqn:Ha.
      - apply Hkeep. apply Sin; [reflexivity | exact Hacc].
      - apply Hin; [exact Hres | reflexivity]. }
    intros x Hx. apply Hkeep. apply Skeep. exact Hx.
Qed.

Lemma heartbeat_all_dicts (device_id location ip_address : string) (now : Z)
    (boards : list board) :
  forall acc,
    (forall x, In x (fst acc) -> is_text_or_dict x = true) ->
    forall x,
      In x (fst (fold_left (heartbeat_step device_id location ip_address now) boards acc)) ->
      is_text_or_dict x = true.
Proof.
  induction boards as [|b t IH]; intros acc Hacc x Hx; [exact (Hacc x Hx)|].
  cbn [fold_left] in Hx. revert x Hx. apply IH.
  intros x Hx.
  destruct b as [device | dev bid loc bname ip seen |]; cbn [heartbeat_step] in Hx.
  - destruct (String.eqb device device_id); cbn [fst] in Hx;
      apply in_app_or in Hx; destruct Hx as [Hx | [<- | []]];
      first [exact (Hacc x Hx) | reflexivity].
  - destruct (py_or dev bid) as [d|]; [destruct (String.eqb d device_id)|];
      cbn [fst] in Hx;
      apply in_app_or in Hx; destruct Hx as [Hx | [<- | []]];
      first [exact (Hacc x Hx) | reflexivity].
  - exact (Hacc x Hx).
Qed.

Lemma filter_all_true (p : board -> bool) (l : list board) :
  (forall x, In x l -> p x = true) -> filter p l = l.
Proof.
  induction l as [|x t IH]; intros H; [reflexivity|].
  cbn [filter]. rewrite (H x (or_introl eq_refl)). f_equal.
  apply IH. intros y Hy. apply H. right. exact Hy.
Qed.

Lemma heartbeat_spec (device_id location ip_address : string) (now : Z)
    (boards : list board) :
  In (new_board device_id location ip_address (Some now))
     (update_board_heartbeat device_id location ip_address now boards)
  /\ (forall x, In x (update_board_heartbeat device_id location ip_address now boards) ->
      is_text_or_dict x = true)
  /\ ((exists b, In b boards /\ board_device_id b = Some device_id) ->
      List.length (update_board_heartbeat device_id location ip_address now boards)
      = List.length (filter is_text_or_dict boards))
  /\ (~ (exists b, In b boards /\ board_device_id b = Some device_id) ->
      List.length (update_board_heartbeat device_id location ip_address now boards)
      = S (List.length (filter is_text_or_dict boards))).
Proof.
  unfold update_board_heartbeat.
  destruct (heartbeat_fold device_id location ip_address now boards ([], false))
    as (Hlen & Hfound & Hin & _).
  pose proof (@heartbeat_all_dicts device_id location ip_address now boards ([], false)
                (fun x (H : In x []) => match H with end)) as Hall.
  cbv zeta in *. cbn [fst snd List.length] in Hlen, Hfound, Hin.
  assert (Hex : (exists b, In b boards /\ board_device_id b = Some device_id /\ b <> BoardOther)
                <-> (exists b, In b boards /\ board_device_id b = Some device_id)).
  { split.
    - intros (b & Hb & Hd & _). exists b. split; assumption.
    - intros (b & Hb & Hd). exists b. split; [exact Hb|]. split; [exact Hd|].
      intros ->. discriminate Hd. }
  destruct (snd (fold_left _ boards ([], false))) eqn:Hs.
  - split; [apply Hin; reflexivity|]. split; [exact Hall|]. split.
    + intros _. rewrite Hlen. reflexivity.
    + intros Hn. exfalso. apply Hn. apply Hex.
      destruct (proj1 Hfound eq_refl) as [H | H]; [discriminate | exact H].
  - split; [apply in_or_app; right; left; reflexivity|]. split.
    + intros x Hx. apply in_app_or in Hx. destruct Hx as [Hx | [<- | []]];
        [exact (Hall x Hx) | reflexivity].
    + split.
      * intros Hex'. assert (H : false = true)
          by (apply Hfound; right; apply Hex; exact Hex').
        discriminate.
      * intros _. rewrite length_app, Hlen. cbn [List.length]. lia.
Qed.

Lemma py_or_default (a : option string) (s : string) :
  exists r, py_or a (Some s) = Some r.
Proof.
  destruct a as [[|c r]|]; cbn [py_or]; eexists; reflexivity.
Qed.

(** What one iteration appends: nothing for a value that is neither a
    text nor a dictionary, the board of the heartbeat for a board of the
    device, and otherwise the board in the new format, its [last_seen]
    kept. *)
Lemma heartbeat_step_cases (device_id location ip_address : string) (now : Z)
    (acc : list board * bool) (b : board) :
  (b = BoardOther
   /\ heartbeat_step device_id location ip_address now acc b = acc)
  \/ (board_device_id b = Some device_id
      /\ fst (heartbeat_step device_id location ip_address now acc b)
         = fst acc ++ [new_board device_id location ip_address (Some now)])
  \/ (exists dev,
        b = BoardText dev /\ dev <> device_id
        /\ fst (heartbeat_step device_id location ip_address now acc b)
           = fst acc ++ [new_board dev "Unknown" "No IP" None])
  \/ (exists dev bid loc bname ipa seen,
        b = BoardDict dev bid loc bname ipa seen
        /\ py_or dev bid <> Some device_id
        /\ fst (heartbeat_step device_id location ip_address now acc b)
           = fst acc
             ++ [BoardDict (py_or (py_or dev bid) (Some "Unknown"%string)) None
                   (py_or (py_or loc bname) (Some "Unknown"%string)) None
                   (py_or ipa (Some "No IP"%string)) seen]).
Proof.
  destruct b as [dev | dev bid loc bname ipa seen |]; cbn [heartbeat_step].
  - destruct (String.eqb dev device_id) eqn:He.
    + apply String.eqb_eq in He. subst dev. right. left. split; reflexivity.
    + apply String.eqb_neq in He. right. right. left. exists dev.
      split; [reflexivity|]. split; [exact He | reflexivity].
  - destruct (py_or dev bid) as [i|] eqn:Hi.
    + destruct (String.eqb i device_id) eqn:He.
      * apply String.eqb_eq in He. subst i. right. left.
        split; [exact Hi | reflexivity].
      * apply String.eqb_neq in He. right. right. right.
        exists dev, bid, loc, bname, ipa, seen.
        split; [reflexivity|]. rewrite Hi. split; [congruence | reflexivity].
    + right. right. right. exists dev, bid, loc, bname, ipa, seen.
      split; [reflexivity|]. rewrite Hi. split; [discriminate | reflexivity].
  - left. split; reflexivity.
Qed.

Lemma heartbeat_fold_members (device_id location ip_address : string) (now : Z)
    (boards : list board) :
  forall acc,
    (forall dev, In (BoardText dev) boards -> dev <> device_id ->
       In (new_board dev "Unknown" "No IP" None)
          (fst (fold_left (heartbeat_step device_id location ip_address now)
                  boards acc)))
    /\ (forall dev bid loc bname ipa seen,
          In (BoardDict dev bid loc bname ipa seen) boards ->
          py_or dev bid <> Some device_id ->
          In (BoardDict (py_or (py_or dev bid) (Some "Unknown"%string)) None
                (py_or (py_or loc bname) (Some "Unknown"%string)) None
                (py_or ipa (Some "No IP"%string)) seen)
             (fst (fold_left (heartbeat_step device_id location ip_address now)
                     boards acc)))
    /\ (forall x,
          In x (fst (fold_left (heartbeat_step device_id location ip_address now)
                       boards acc)) ->
          In x (fst acc)
          \/ x = new_board device_id location ip_address (Some now)
          \/ (exists dev,
                In (BoardText dev) boards /\ dev <> device_id
                /\ x = new_board dev "Unknown" "No IP" None)
          \/ (exists dev bid loc bname ipa seen,
                In (BoardDict dev bid loc bname ipa seen) boards
                /\ py_or dev bid <> Some device_id
                /\ x = BoardDict (py_or (py_or dev bid) (Some "Unknown"%string)) None
                         (py_or (py_or loc bname) (Some "Unknown"%string)) None
                         (py_or ipa (Some "No IP"%string)) seen)).
Proof.
  induction boards as [|b t IH]; intros acc.
  - cbn [fold_left]. split; [intros dev []|]. split; [intros dev bid loc bname ipa seen []|].
    intros x Hx. left. exact Hx.
  - cbn [fold_left].
    set (acc' := heartbeat_step device_id location ip_address now acc b).
    destruct (IH acc') as (Htext & Hdict & Hback).
    destruct (heartbeat_fold device_id location ip_address now t acc')
      as (_ & _ & _ & Hkeep).
    cbv zeta in Hkeep.
    pose proof (heartbeat_step_cases device_id location ip_address now acc b) as Hstep.
    fold acc' in Hstep.
    split; [|split].
    + intros dev [Hb | Hin] Hne; [|exact (Htext dev Hin Hne)].
      apply Hkeep. subst b.
      destruct Hstep as [[Habs _] | [[Hd _] | [(dev' & Hb & _ & Hfst)
                          | (dev' & bid & loc & bname & ipa & seen & Hb & _)]]].
      * discriminate Habs.
      * cbn [board_device_id] in Hd. congruence.
      * injection Hb as <-. rewrite Hfst. apply in_or_app. right. left. reflexivity.
      * discriminate Hb.
    + intros dev bid loc bname ipa seen [Hb | Hin] Hne;
        [|exact (Hdict dev bid loc bname ipa seen Hin Hne)].
      apply Hkeep. subst b.
      destruct Hstep as [[Habs _] | [[Hd _] | [(dev' & Hb & _)
                          | (dev' & bid' & loc' & bname' & ipa' & seen' & Hb & _ & Hfst)]]].
      * discriminate Habs.
      * cbn [board_device_id] in Hd. congruence.
      * discriminate Hb.
      * injection Hb as <- <- <- <- <- <-. rewrite Hfst.
        apply in_or_app. right. left. reflexivity.
    + intros x Hx.
      destruct (Hback x Hx) as [Hacc' | [Hnew | [(dev & Hin & Hne & Hxe)
                                 | (dev & bid & loc & bname & ipa & seen & Hin & Hne & Hxe)]]].
      * destruct Hstep as [[_ Hsame] | [[_ Hfst] | [(dev & Hb & Hne & Hfst)
                            | (dev & bid & loc & bname & ipa & seen & Hb & Hne & Hfst)]]].
        -- rewrite Hsame in Hacc'. left. exact Hacc'.
        -- rewrite Hfst in Hacc'. apply in_app_or in Hacc'.
           destruct Hacc' as [H | [<- | []]]; [left; exact H | right; left; reflexivity].
        -- rewrite Hfst in Hacc'. apply in_app_or in Hacc'.
           destruct Hacc' as [H | [<- | []]]; [left; exact H|].
           right. right. left. exists dev.
           split; [left; exact Hb|]. split; [exact Hne | reflexivity].
        -- rewrite Hfst in Hacc'. apply in_app_or in Hacc'.
           destruct Hacc' as [H | [<- | []]]; [left; exact H|].
           right. right. right. exists dev, bid, loc, bname, ipa, seen.
           split; [left; exact Hb|]. split; [exact Hne | reflexivity].
      * right. left. exact Hnew.
      * right. right. left. exists dev.
        split; [right; exact Hin|]. split; assumption.
      * right. right. right. exists dev, bid, loc, bname, ipa, seen.
        split; [right; exact Hin|]. split; assumption.
Qed.

(** X29: after a heartbeat the board list holds the device in the new
    format with its location, its address and the time of the heartbeat
    as [last_seen]; every element of the new list is a dictionary in the
    new format (device id, location, address and [last_seen], no other
    field); every text of the old list that is not the device is kept
    with location Unknown, address No IP and no [last_seen], every
    dictionary that is not the device is kept with its [last_seen] and
    with its first non-empty id, location or name, and address, or the
    default text; nothing else is in the new list; values of any other
    kind are dropped, and one board is added exactly when no board of
    the old list stood for the device. *)
Theorem heartbeat_registers_board
    (device_id location ip_address : string) (now : Z) (boards : list board) :
  In (new_board device_id location ip_address (Some now))
     (update_board_heartbeat device_id location ip_address now boards)
  /\ (forall x, In x (update_board_heartbeat device_id location ip_address now boards) ->
      exists dev loc ipa seen, x = new_board dev loc ipa seen)
  /\ (forall dev, In (BoardText dev) boards -> dev <> device_id ->
      In (new_board dev "Unknown" "No IP" None)
         (update_board_heartbeat device_id location ip_address now boards))
  /\ (forall dev bid loc bname ipa seen,
        In (BoardDict dev bid loc bname ipa seen) boards ->
        py_or dev bid <> Some device_id ->
        In (BoardDict (py_or (py_or dev bid) (Some "Unknown"%string)) None
              (py_or (py_or loc bname) (Some "Unknown"%string)) None
              (py_or ipa (Some "No IP"%string)) seen)
           (update_board_heartbeat device_id location ip_address now boards))
  /\ (forall x, In x (update_board_heartbeat device_id location ip_address now boards) ->
      x = new_board device_id location ip_address (Some now)
      \/ (exists dev,
            In (BoardText dev) boards /\ dev <> device_id
            /\ x = new_board dev "Unknown" "No IP" None)
      \/ (exists dev bid loc bname ipa seen,
            In (BoardDict dev bid loc bname ipa seen) boards
            /\ py_or dev bid <> Some device_id
            /\ x = BoardDict (py_or (py_or dev bid) (Some "Unknown"%string)) None
                     (py_or (py_or loc bname) (Some "Unknown"%string)) None
                     (py_or ipa (Some "No IP"%string)) seen))
  /\ ((exists b, In b boards /\ board_device_id b = Some device_id) ->
      List.length (update_board_heartbeat device_id location ip_address now boards)
      = List.length (filter is_text_or_dict boards))
  /\ (~ (exists b, In b boards /\ board_device_id b = Some device_id) ->
      List.length (update_board_heartbeat device_id location ip_address now boards)
      = S (List.length (filter is_text_or_dict boards))).
Proof.
  destruct (heartbeat_spec device_id location ip_address now boards)
    as (Hin & _ & Hfound & Hmissing).
  destruct (heartbeat_fold_members device_id location ip_address now boards ([], false))
    as (Htext & Hdict & Hback).
  assert (Hsub : forall x,
            In x (fst (fold_left (heartbeat_step device_id location ip_address now)
                         boards ([], false))) ->
            In x (update_board_heartbeat device_id location ip_address now boards)).
  { intros x Hx. unfold update_board_heartbeat.
    destruct (snd (fold_left _ boards ([], false))); [exact Hx|].
    apply in_or_app. left. exact Hx. }
  assert (Hchar : forall x,
            In x (update_board_heartbeat device_id location ip_address now boards) ->
            x = new_board device_id location ip_address (Some now)
            \/ (exists dev,
                  In (BoardText dev) boards /\ dev <> device_id
                  /\ x = new_board dev "Unknown" "No IP" None)
            \/ (exists dev bid loc bname ipa seen,
                  In (BoardDict dev bid loc bname ipa seen) boards
                  /\ py_or dev bid <> Some device_id
                  /\ x = BoardDict (py_or (py_or dev bid) (Some "Unknown"%string)) None
                           (py_or (py_or loc bname) (Some "Unknown"%string)) None
                           (py_or ipa (Some "No IP"%string)) seen)).
  { intros x Hx. unfold update_board_heartbeat in Hx.
    assert (Hx' : In x (fst (fold_left (heartbeat_step device_id location ip_address now)
                               boards ([], false)))
                  \/ x = new_board device_id location ip_address (Some now)).
    { destruct (snd (fold_left _ boards ([], false))); [left; exact Hx|].
      apply in_app_or in Hx. destruct Hx as [Hx | [<- | []]];
        [left; exact Hx | right; reflexivity]. }
    destruct Hx' as [Hx' | Hx']; [|left; exact Hx'].
    destruct (Hback x Hx') as [[] | H]. exact H. }
  split; [exact Hin|]. split; [|split; [|split; [|split; [|split]]]].
  - intros x Hx.
    destruct (Hchar x Hx) as [-> | [(dev & _ & _ & ->)
                               | (dev & bid & loc & bname & ipa & seen & _ & _ & ->)]].
    + eexists _, _, _, _. reflexivity.
    + eexists _, _, _, _. reflexivity.
    + destruct (py_or_default (py_or dev bid) "Unknown") as (r1 & ->).
      destruct (py_or_default (py_or loc bname) "Unknown") as (r2 & ->).
      destruct (py_or_default ipa "No IP") as (r3 & ->).
      exists r1, r2, r3, seen. reflexivity.
  - intros dev Hb Hne. apply Hsub. exact (Htext dev Hb Hne).
  - intros dev bid loc bname ipa seen Hb Hne. apply Hsub.
    exact (Hdict dev bid loc bname ipa seen Hb Hne).
  - exact Hchar.
  - exact Hfound.
  - exact Hmissing.
Qed.

(** X30: a further heartbeat of a device with a non-empty id adds no
    board: the list keeps its length, whatever location, address and
    time the further heartbeat carries, and holds the device with the
    data of the further heartbeat. *)
Theorem repeated_heartbeat_adds_no_board
    (device_id location ip_address location' ip_address' : string) (now now' : Z)
    (boards : list board) :
  device_id <> EmptyString ->
  List.length
    (update_board_heartbeat device_id location' ip_address' now'
       (update_board_heartbeat device_id location ip_address now boards))
  = List.length (update_board_heartbeat device_id location ip_address now boards)
  /\ In (new_board device_id location' ip_address' (Some now'))
        (update_board_heartbeat device_id location' ip_address' now'
           (update_board_heartbeat device_id location ip_address now boards)).
Proof.
  intros Hne.
  destruct (heartbeat_spec device_id location ip_address now boards)
    as (Hin & Hall & _).
  destruct (heartbeat_spec device_id location' ip_address' now'
              (update_board_heartbeat device_id location ip_address now boards))
    as (Hin' & _ & Hfound & _).
  split; [|exact Hin'].
  rewrite Hfound.
  - rewrite (filter_all_true _ _ Hall). reflexivity.
  - exists (new_board device_id location ip_address (Some now)).
    split; [exact Hin|].
    cbn [board_device_id new_board py_or].
    destruct device_id; [exfalso; apply Hne; reflexivity | reflexivity].
Qed.

Lemma repeated_heartbeat_adds_no_board_witness :
  List.length
    (update_board_heartbeat "ESP32_CAM_01" "Rear door" "10.0.0.8" (t0 + 60)
       (update_board_heartbeat "ESP32_CAM_01" "Front door" "10.0.0.7" t0
          [BoardText "ESP32_CAM_01"; BoardOther;
           BoardDict None (Some "ESP32_CAM_02"%string) None
             (Some "Exit camera"%string) None None]))
  = 2%nat.
Proof.
  rewrite (proj1 (@repeated_heartbeat_adds_no_board "ESP32_CAM_01" "Front door"
                    "10.0.0.7" "Rear door" "10.0.0.8" t0 (t0 + 60)
                    [BoardText "ESP32_CAM_01"; BoardOther;
                     BoardDict None (Some "ESP32_CAM_02"%string) None
                       (Some "Exit camera"%string) None None]
                    ltac:(discriminate))).
  reflexivity.
Defined.
